(** * sitcpy: a shallow embedding of the RBCP codec, the virtual register
    bank, the line framing of the command server, the DAQ receive loop and
    the forward-only [State] primitive.

    Bytes are integers in [0, 255] ([Z]); [bytes] and [bytearray] values are
    lists of them.  Python exceptions are values of [exn]; a function that
    may raise returns a [result].  Callbacks registered on a register are
    opaque callables: calling one is recorded as an [event] on a trace. *)

From Stdlib Require Import ZArith Lia List Bool.
From stdpp Require Import base list gmap.
Import ListNotations.
Local Open Scope Z_scope.

(** ** Python values, exceptions and sequence operations *)

Module Py.

(** Messages of the exceptions raised by the library. *)
Inductive message : Type :=
| RegisterAddressMustBeInt
| InvalidRegisterAddress
| LengthBetween0And255
| HeaderTooShort (len_packet header_size : Z)
| HeaderVersionMismatch
| PacketIdMismatch
| ReadBytesError (address byte_length : Z)
| NoMessage.

(** The exception classes the modelled code raises.  [RbcpBusError] is a
    subclass of [RbcpError] in the source; they are distinct classes and
    are kept distinct here. *)
Inductive exn : Type :=
| ValueError (m : message)
| RbcpError (m : message)
| RbcpBusError
| VirtualRegisterOutOfRange (m : message)
| IndexError
| StructError
| ZeroDivisionError
| RecursionError
| TypeError.

Inductive result (A : Type) : Type :=
| Ok (a : A)
| Raise (e : exn).
Arguments Ok {A} a.
Arguments Raise {A} e.

Definition bind {A B : Type} (r : result A) (k : A -> result B) : result B :=
  match r with
  | Ok a => k a
  | Raise e => Raise e
  end.

Definition bind_flip {A B : Type} (k : A -> result B) (r : result A) : result B :=
  bind r k.

Definition is_ok {A : Type} (r : result A) : bool :=
  match r with Ok _ => true | Raise _ => false end.

(** The arguments a caller can hand to a function that checks [is_int]. *)
Inductive value : Type :=
| VInt (z : Z)
| VFloat (numerator denominator : Z)
| VBytes (b : list Z)
| VNone.

Definition is_int (v : value) : bool :=
  match v with VInt _ => true | _ => false end.

Definition len {A : Type} (l : list A) : Z := Z.of_nat (length l).

(** The type of a bytes-like object: a [bytes] object cannot be assigned
    to, a [bytearray] can. *)
Inductive bytes_like : Type :=
| Bytes
| Bytearray.

(** Index normalisation of a slice bound: a negative bound counts from the
    end, and every bound is clamped to [0, len]. *)
Definition clamp (n : Z) (i : Z) : Z :=
  if i <? 0 then Z.max (i + n) 0 else Z.min i n.

(** [l[lo:hi]] with optional bounds (step 1). *)
Definition slice {A : Type} (lo hi : option Z) (l : list A) : list A :=
  let n := len l in
  let a := match lo with Some i => clamp n i | None => 0 end in
  let b := match hi with Some i => clamp n i | None => n end in
  take (Z.to_nat (b - a)) (drop (Z.to_nat a) l).

(** [l[lo:hi] = data] on a bytearray. *)
Definition slice_assign {A : Type} (lo hi : Z) (data l : list A) : list A :=
  let n := len l in
  let a := clamp n lo in
  let b := Z.max a (clamp n hi) in
  take (Z.to_nat a) l ++ data ++ drop (Z.to_nat b) l.

(** [l[i]]: negative indices count from the end, out of range raises. *)
Definition getitem (l : list Z) (i : Z) : result Z :=
  let j := if i <? 0 then i + len l else i in
  if (j <? 0) || (len l <=? j) then Raise IndexError
  else Ok (nth (Z.to_nat j) l 0).

(** [l[i] = x] on a bytearray. *)
Definition setitem (l : list Z) (i x : Z) : result (list Z) :=
  let j := if i <? 0 then i + len l else i in
  if (j <? 0) || (len l <=? j) then Raise IndexError
  else Ok (<[Z.to_nat j := x]> l).

(** [bytearray(n)]: [n] zero bytes. *)
Definition bytearray (n : Z) : result (list Z) :=
  if n <? 0 then Raise (ValueError NoMessage) else Ok (repeat 0 (Z.to_nat n)).

Definition is_byte (x : Z) : bool := (0 <=? x) && (x <=? 255).

(** [struct.pack("8B", ...)]: every argument must fit an unsigned byte. *)
Definition struct_pack_8B (xs : list Z) : result (list Z) :=
  if forallb is_byte xs then Ok xs else Raise StructError.

(** [struct.pack(">L", x)]: four bytes, most significant first. *)
Definition struct_pack_BE_L (x : Z) : result (list Z) :=
  if (0 <=? x) && (x <=? 0xffffffff) then
    Ok [Z.land (Z.shiftr x 24) 0xff; Z.land (Z.shiftr x 16) 0xff;
        Z.land (Z.shiftr x 8) 0xff; Z.land x 0xff]
  else Raise StructError.

(** [struct.unpack(">I", b)[0]] on four bytes. *)
Definition struct_unpack_BE_I (b : list Z) : result Z :=
  match b with
  | [b0; b1; b2; b3] =>
      Ok (Z.lor (Z.shiftl b0 24)
            (Z.lor (Z.shiftl b1 16) (Z.lor (Z.shiftl b2 8) b3)))
  | _ => Raise StructError
  end.

(** [a % b] on integers: the sign follows the divisor; [b = 0] raises. *)
Definition mod_ (a b : Z) : result Z :=
  if b =? 0 then Raise ZeroDivisionError else Ok (a mod b).

(** [l] starts with [sub]. *)
Fixpoint startswith (sub l : list Z) : bool :=
  match sub, l with
  | [], _ => true
  | _ :: _, [] => false
  | x :: sub', y :: l' => (x =? y) && startswith sub' l'
  end.

Fixpoint find_from (sub l : list Z) (i : Z) : Z :=
  if startswith sub l then i
  else match l with
       | [] => -1
       | _ :: l' => find_from sub l' (i + 1)
       end.

(** [l.find(sub)]: the lowest index where [sub] occurs, or [-1]. *)
Definition find (l sub : list Z) : Z := find_from sub l 0.

End Py.

#[global] Instance result_ret : MRet Py.result := @Py.Ok.
#[global] Instance result_bind : MBind Py.result := @Py.bind_flip.

(** ** sitcpy/rbcp.py: the client side codec *)

Module Rbcp.
Import Py.

Definition HEADER_SIZE : Z := 8.
Definition HEADER_READ : Z := 0.
Definition HEADER_WRITE : Z := 1.
Definition HEADER_VERTYPE : Z := 0xff.

(** [Rbcp._make_header(read_write, register_address, length, packet_id)]. *)
Definition _make_header (read_write : Z) (register_address length : value)
    (packet_id : Z) : result (list Z) :=
  if negb (is_int register_address) then
    Raise (ValueError RegisterAddressMustBeInt)
  else if negb (is_int length) then
    Raise (ValueError RegisterAddressMustBeInt)
  else
    match register_address, length with
    | VInt a, VInt n =>
        if (a <? 0) || (0xffffffff <? a) then
          Raise (ValueError InvalidRegisterAddress)
        else if (n <? 0) || (255 <? n) then
          Raise (ValueError LengthBetween0And255)
        else if 0xffffffff <? a + n then
          Raise (ValueError InvalidRegisterAddress)
        else
          let command_type := if read_write =? HEADER_READ then 0xc0 else 0x80 in
          struct_pack_8B
            [HEADER_VERTYPE; command_type; packet_id; n;
             Z.land (Z.shiftr (Z.land a 0xff000000) 24) 0xff;
             Z.land (Z.shiftr (Z.land a 0x00ff0000) 16) 0xff;
             Z.land (Z.shiftr (Z.land a 0x0000ff00) 8) 0xff;
             Z.land (Z.shiftr (Z.land a 0x000000ff) 0) 0xff]
    | _, _ => Raise (ValueError RegisterAddressMustBeInt)
    end.

(** [Rbcp._check_packet(packet, wait_id)]. *)
Definition _check_packet (packet : list Z) (wait_id : Z) : result unit :=
  let len_packet := len packet in
  if len_packet <? HEADER_SIZE then
    Raise (RbcpError (HeaderTooShort len_packet HEADER_SIZE))
  else
    p0 ← getitem packet 0;
    if negb (p0 =? HEADER_VERTYPE) then Raise (RbcpError HeaderVersionMismatch)
    else
      p1 ← getitem packet 1;
      if Z.land p1 0x1 =? 1 then Raise RbcpBusError
      else
        p2 ← getitem packet 2;
        if negb (p2 =? wait_id) then Raise (RbcpError PacketIdMismatch)
        else Ok tt.

(** The datagram socket of the client over a network in state [N]:
    [sendto] hands the network a datagram and tells how many bytes were
    accepted; [recvfrom] gives the datagram [select] found readable within
    the socket timeout, if any. *)
Record socket (N : Type) : Type := mkSocket {
  sendto : N -> list Z -> N * Z;
  recvfrom : N -> N * option (list Z)
}.
Arguments sendto {N} _ _ _.
Arguments recvfrom {N} _ _.

(** How a request fails: [RbcpTimeout]; [RbcpError] with the message of a
    negative [sendto] or of an empty reply; or what [_make_header] or
    [_check_packet] raised. *)
Inductive failure : Type :=
| RbcpTimeout
| SendtoNegative (res : Z)
| ReceiveLengthZero
| Raised (e : exn).

(** The outcome of a request; [Sending] when the send loop has not finished
    within the calls of [sendto] it was given. *)
Inductive outcome (A : Type) : Type :=
| Returned (a : A)
| Failed (f : failure)
| Sending.
Arguments Returned {A} a.
Arguments Failed {A} f.
Arguments Sending {A}.

(** [class Rbcp]: the packet id of the next request. *)
Record Rbcp : Type := mkRbcp {
  _packet_id : Z
}.

(** [Rbcp._recv_packet()]; [recvfrom(HEADER_SIZE + 256)] keeps at most that
    many bytes of the datagram. *)
Definition _recv_packet {N : Type} (sock : socket N) (net : N)
    : N * outcome (list Z) :=
  match recvfrom sock net with
  | (net', None) => (net', Failed RbcpTimeout)
  | (net', Some datagram) =>
      let reply_data := slice None (Some (HEADER_SIZE + 256)) datagram in
      match reply_data with
      | [] => (net', Failed ReceiveLengthZero)
      | _ :: _ => (net', Returned reply_data)
      end
  end.

(** The [while sent_size < send_size] loop of [_rbcp_send_recv]; [calls]
    bounds the calls of [sendto]. *)
Fixpoint send_loop {N : Type} (calls : nat) (sock : socket N) (net : N)
    (rbcp_packet : list Z) (sent_size : Z) : N * outcome unit :=
  if sent_size <? len rbcp_packet then
    match calls with
    | O => (net, Sending)
    | S calls' =>
        let '(net', res) :=
          sendto sock net (slice (Some sent_size) None rbcp_packet) in
        if res <? 0 then (net', Failed (SendtoNegative res))
        else send_loop calls' sock net' rbcp_packet (sent_size + res)
    end
  else (net, Returned tt).

(** [Rbcp._rbcp_send_recv(rbcp_packet, wait_id)]. *)
Definition _rbcp_send_recv {N : Type} (calls : nat) (sock : socket N) (net : N)
    (rbcp_packet : list Z) (wait_id : Z) : N * outcome (list Z) :=
  match send_loop calls sock net rbcp_packet 0 with
  | (net', Returned _) =>
      match _recv_packet sock net' with
      | (net'', Returned receive_packet) =>
          match _check_packet receive_packet wait_id with
          | Ok _ =>
              (net'', Returned (slice (Some HEADER_SIZE) None receive_packet))
          | Raise e => (net'', Failed (Raised e))
          end
      | (net'', Failed f) => (net'', Failed f)
      | (net'', Sending) => (net'', Sending)
      end
  | (net', Failed f) => (net', Failed f)
  | (net', Sending) => (net', Sending)
  end.

(** [Rbcp.read(register_address, length)]: the client after the call, the
    network after it, and the outcome. *)
Definition read {N : Type} (calls : nat) (sock : socket N) (self : Rbcp) (net : N)
    (register_address length_ : value) : Rbcp * N * outcome (list Z) :=
  match _make_header HEADER_READ register_address length_ (_packet_id self) with
  | Raise e => (self, net, Failed (Raised e))
  | Ok header =>
      let wait_id := _packet_id self in
      let packet_id := _packet_id self + 1 in
      let packet_id := if packet_id =? 256 then 0 else packet_id in
      let packet_data := [] in
      let rbcp_packet := header ++ packet_data in
      let '(net', res) := _rbcp_send_recv calls sock net rbcp_packet wait_id in
      ({| _packet_id := packet_id |}, net', res)
  end.

(** [Rbcp.write(register_address, packet_data)] for a bytes object. *)
Definition write {N : Type} (calls : nat) (sock : socket N) (self : Rbcp) (net : N)
    (register_address : value) (packet_data : list Z)
    : Rbcp * N * outcome (list Z) :=
  match _make_header HEADER_WRITE register_address (VInt (len packet_data))
          (_packet_id self) with
  | Raise e => (self, net, Failed (Raised e))
  | Ok header =>
      let wait_id := _packet_id self in
      let packet_id := _packet_id self + 1 in
      let packet_id := if packet_id =? 256 then 0 else packet_id in
      let rbcp_packet := header ++ packet_data in
      let '(net', res) := _rbcp_send_recv calls sock net rbcp_packet wait_id in
      ({| _packet_id := packet_id |}, net', res)
  end.

End Rbcp.

(** ** sitcpy/rbcp_server.py: virtual registers, the RBCP server and the
    data generator *)

Module RbcpServer.
Import Py.

(** A callback registered on a register is an opaque callable, identified
    by a name.  Calling it is an observable event. *)
Inductive callable : Type := Callable (name : nat).

Inductive event : Type :=
| ReadCall (cb : callable) (address : Z)
| WriteCall (cb : callable) (address value : Z).

(** A computation that calls callbacks and may raise: the calls made so
    far (also when it raises) and the outcome. *)
Definition Eff (A : Type) : Type := (list event * result A)%type.

Definition eff_ret {A : Type} (a : A) : Eff A := ([], Ok a).

Definition eff_raise {A : Type} (e : exn) : Eff A := ([], Raise e).

Definition eff_bind {A B : Type} (k : A -> Eff B) (c : Eff A) : Eff B :=
  match c with
  | (t, Ok a) => let '(t', r) := k a in (t ++ t', r)
  | (t, Raise e) => (t, Raise e)
  end.

Definition lift {A : Type} (r : result A) : Eff A := ([], r).

Definition call_read (cb : callable) (address : Z) : Eff unit :=
  ([ReadCall cb address], Ok tt).

Definition call_write (cb : callable) (address value : Z) : Eff unit :=
  ([WriteCall cb address value], Ok tt).

#[global] Instance Eff_ret : MRet Eff := @eff_ret.
#[global] Instance Eff_bind : MBind Eff := @eff_bind.

(** [try: c except VirtualRegisterOutOfRange: handler]. *)
Definition try_out_of_range {A : Type} (c : Eff A) (handler : Eff A) : Eff A :=
  match c with
  | (t, Raise (VirtualRegisterOutOfRange _)) =>
      let '(t', r) := handler in (t ++ t', r)
  | _ => c
  end.

(** [_make_header(read_write, packet_id, register_address, length)] of the
    server; [read_write] is one of the strings "r", "w", "re", "we". *)
Inductive read_write : Type := r | w | re | we | other.

Definition _make_header (rw : read_write) (packet_id register_address length : Z)
    : result (list Z) :=
  let command_type :=
    match rw with
    | r => 0xc8
    | w => 0x88
    | re => 0xc9
    | we => 0x89
    | other => 0
    end in
  struct_pack_8B
    [0xff; command_type; packet_id; length;
     Z.land (Z.shiftr (Z.land register_address 0xff000000) 24) 0xff;
     Z.land (Z.shiftr (Z.land register_address 0x00ff0000) 16) 0xff;
     Z.land (Z.shiftr (Z.land register_address 0x0000ff00) 8) 0xff;
     Z.land (Z.shiftr (Z.land register_address 0x000000ff) 0) 0xff].

(** [class VirtualRegister]. *)
Record VirtualRegister : Type := mkVirtualRegister {
  _memory : list Z;
  _memory_type : bytes_like;
  _memory_size : Z;
  _start_address : Z;
  _read_callbacks : gmap Z callable;
  _write_callbacks : gmap Z callable
}.

(** [VirtualRegister(memory_size, start_address)]. *)
Definition __init__ (memory_size start_address : Z) : result VirtualRegister :=
  memory ← bytearray memory_size;
  Ok {| _memory := memory; _memory_type := Bytearray;
        _memory_size := memory_size;
        _start_address := start_address;
        _read_callbacks := ∅; _write_callbacks := ∅ |}.

(** [VirtualRegister.set_initial_data(initial_data)] for a bytes-like object
    of type [initial_type]: the register keeps the object it is given. *)
Definition set_initial_data (self : VirtualRegister) (initial_type : bytes_like)
    (initial_data : list Z) : VirtualRegister :=
  {| _memory := initial_data; _memory_type := initial_type;
     _memory_size := len initial_data;
     _start_address := _start_address self;
     _read_callbacks := _read_callbacks self;
     _write_callbacks := _write_callbacks self |}.

Definition get_memory (self : VirtualRegister) : list Z := _memory self.

Definition get_register_info (self : VirtualRegister) : Z * Z * Z :=
  (_start_address self, _start_address self + _memory_size self, _memory_size self).

Definition _is_intersect (self register : VirtualRegister) : bool :=
  let '(start_address, end_address, memory_size) := get_register_info register in
  if _start_address self <=? start_address then
    if start_address <? _start_address self + _memory_size self then true else false
  else
    if _start_address self <? end_address then true else false.

Definition _is_neighbor (self register : VirtualRegister) : bool :=
  let '(start_address, end_address, _memory_size') := get_register_info register in
  if _start_address self + _memory_size self =? start_address then true
  else if end_address =? _start_address self then true
  else false.

Definition check_address_range (self : VirtualRegister) (address length : Z) : bool :=
  if _start_address self <=? address then
    if address + length <=? _start_address self + _memory_size self then true
    else false
  else false.

(** The [for write_address in range(...)] loop of [write_bytes]. *)
Fixpoint write_callbacks_loop (self : VirtualRegister) (data_bytes : list Z)
    (write_address : Z) (count : nat) : Eff unit :=
  match count with
  | O => mret tt
  | S count' =>
      match _write_callbacks self !! write_address with
      | Some cb =>
          value ← lift (getitem data_bytes (write_address - _start_address self));
          call_write cb write_address value
      | None => mret tt
      end ≫= λ _, write_callbacks_loop self data_bytes (write_address + 1) count'
  end.

Definition write_bytes (self : VirtualRegister) (address : Z) (data_bytes : list Z)
    : Eff VirtualRegister :=
  let byte_length := len data_bytes in
  if check_address_range self address byte_length then
    _ ← write_callbacks_loop self data_bytes address (Z.to_nat byte_length);
    match _memory_type self with
    | Bytearray =>
        mret {| _memory := slice_assign (address - _start_address self)
                             (address - _start_address self + byte_length)
                             data_bytes (_memory self);
                _memory_type := Bytearray;
                _memory_size := _memory_size self;
                _start_address := _start_address self;
                _read_callbacks := _read_callbacks self;
                _write_callbacks := _write_callbacks self |}
    | Bytes => eff_raise TypeError
    end
  else eff_raise (VirtualRegisterOutOfRange (ReadBytesError address byte_length)).

(** The [for read_address in range(...)] loop of [read_bytes]. *)
Fixpoint read_callbacks_loop (self : VirtualRegister) (read_address : Z)
    (count : nat) : Eff unit :=
  match count with
  | O => mret tt
  | S count' =>
      match _read_callbacks self !! read_address with
      | Some cb => call_read cb read_address
      | None => mret tt
      end ≫= λ _, read_callbacks_loop self (read_address + 1) count'
  end.

Definition read_bytes (self : VirtualRegister) (address byte_length : Z)
    : Eff (list Z) :=
  if check_address_range self address byte_length then
    _ ← read_callbacks_loop self address (Z.to_nat byte_length);
    let address' := address - _start_address self in
    mret (slice (Some address') (Some (address' + byte_length)) (_memory self))
  else eff_raise (VirtualRegisterOutOfRange (ReadBytesError address byte_length)).

Definition register_write_callback (self : VirtualRegister) (address : Z)
    (write_callback : callable) : VirtualRegister :=
  if check_address_range self address 1 then
    {| _memory := _memory self; _memory_type := _memory_type self;
       _memory_size := _memory_size self;
       _start_address := _start_address self;
       _read_callbacks := _read_callbacks self;
       _write_callbacks := <[address := write_callback]> (_write_callbacks self) |}
  else self.

Definition register_read_callback (self : VirtualRegister) (address : Z)
    (read_callback : callable) : VirtualRegister :=
  if check_address_range self address 1 then
    {| _memory := _memory self; _memory_type := _memory_type self;
       _memory_size := _memory_size self;
       _start_address := _start_address self;
       _read_callbacks := <[address := read_callback]> (_read_callbacks self);
       _write_callbacks := _write_callbacks self |}
  else self.

(** [VirtualRegister.merge(self, register)]: the flag returned and [self]
    as the call leaves it. *)
Definition merge (self register : VirtualRegister) : Eff (bool * VirtualRegister) :=
  let '(r_start_address, r_end_address, _r_memory_size) := get_register_info register in
  if _is_neighbor self register || _is_intersect self register then
    let start_address := Z.min (_start_address self) r_start_address in
    let memory_size :=
      Z.max (_start_address self + _memory_size self) r_end_address - start_address in
    merged ← lift (__init__ memory_size start_address);
    merged ← write_bytes merged (_start_address self) (_memory self);
    merged ← write_bytes merged r_start_address (get_memory register);
    mret (true,
          {| _memory := get_memory merged;
             _memory_type := Bytearray; _memory_size := len (get_memory merged);
             _start_address := start_address;
             _read_callbacks := _read_callbacks self;
             _write_callbacks := _write_callbacks self |})
  else mret (false, self).

(** [VirtualRegister.create(start_address, initial_data)] for a bytes-like
    object of type [initial_type]. *)
Definition create (start_address : Z) (initial_type : bytes_like)
    (initial_data : list Z) : result VirtualRegister :=
  virtual_register ← __init__ (len initial_data) start_address;
  Ok (set_initial_data virtual_register initial_type initial_data).

(** [class RbcpServer]: the fields the register bank and the datagram
    loop use. *)
Record RbcpServer : Type := mkRbcpServer {
  _registers : list VirtualRegister;
  _error_short_message : Z
}.

(** [RbcpServer()]: the bank starts with the reserved SiTCP region. *)
Definition RbcpServer__init__ : result RbcpServer :=
  reserved ← __init__ 65536 0xFFFF0000;
  Ok {| _registers := [reserved]; _error_short_message := 0 |}.

(** [RbcpServer.read_registers(address, length)] over the list of
    registers. *)
Fixpoint read_registers (registers : list VirtualRegister) (address length : Z)
    : Eff (list Z) :=
  match registers with
  | [] => eff_raise (VirtualRegisterOutOfRange NoMessage)
  | register :: registers' =>
      try_out_of_range (read_bytes register address length)
        (read_registers registers' address length)
  end.

(** [RbcpServer.write_registers(address, write_data)]: the data read back
    and the registers after the write. *)
Fixpoint write_registers (registers : list VirtualRegister) (address : Z)
    (write_data : list Z) : Eff (list Z * list VirtualRegister) :=
  match registers with
  | [] => eff_raise (VirtualRegisterOutOfRange NoMessage)
  | register :: registers' =>
      (* [read_bytes] checks the range [write_bytes] has just accepted, so
         the handler only runs when [write_bytes] raised *)
      try_out_of_range
        (register' ← write_bytes register address write_data;
         read_data ← read_bytes register' address (len write_data);
         mret (read_data, register' :: registers'))
        ('(read_data, registers'') ← write_registers registers' address write_data;
         mret (read_data, register :: registers''))
  end.

(** The inner loop of [merge_registers]: [register1] is offered every
    later register in turn; at the first one it absorbs, that register is
    deleted from the list. *)
Fixpoint merge_inner (register1 : VirtualRegister) (later : list VirtualRegister)
    : Eff (option (VirtualRegister * list VirtualRegister)) :=
  match later with
  | [] => mret None
  | register2 :: later' =>
      '(merged, register1') ← merge register1 register2;
      if merged : bool then mret (Some (register1', later'))
      else
        found ← merge_inner register1 later';
        mret (match found with
              | Some (register1'', later'') => Some (register1'', register2 :: later'')
              | None => None
              end)
  end.

(** The outer loop: the first pair (index1 < index2) that merges, with the
    list as the merge and the deletion leave it. *)
Fixpoint merge_outer (registers : list VirtualRegister)
    : Eff (option (list VirtualRegister)) :=
  match registers with
  | [] => mret None
  | register1 :: later =>
      found ← merge_inner register1 later;
      match found with
      | Some (register1', later') => mret (Some (register1' :: later'))
      | None =>
          found' ← merge_outer later;
          mret (match found' with
                | Some later' => Some (register1 :: later')
                | None => None
                end)
      end
  end.

(** [RbcpServer.merge_registers()] calls itself after every merge.
    [depth] is the number of nested calls of itself that the recursion
    limit of the interpreter still allows when the method is called; the
    call that would exceed it raises [RecursionError]. *)
Fixpoint merge_registers_rec (depth : nat) (registers : list VirtualRegister)
    : Eff (list VirtualRegister) :=
  if len registers <=? 1 then mret registers
  else
    found ← merge_outer registers;
    match found with
    | None => mret registers
    | Some registers' =>
        match depth with
        | O => eff_raise RecursionError
        | S depth' => merge_registers_rec depth' registers'
        end
    end.

Definition merge_registers (depth : nat) (registers : list VirtualRegister)
    : Eff (list VirtualRegister) :=
  merge_registers_rec depth registers.

(** [self._registers] as a call of [merge_registers] leaves it, whether the
    call returns or raises: [merge] changes [register1] in place and
    [del self._registers[index2]] the list, both before the method calls
    itself; a [merge] that raises has not yet changed [register1]. *)
Fixpoint merge_registers_bank (depth : nat) (registers : list VirtualRegister)
    : list VirtualRegister :=
  if len registers <=? 1 then registers
  else
    match merge_outer registers with
    | (_, Ok (Some registers')) =>
        match depth with
        | O => registers'
        | S depth' => merge_registers_bank depth' registers'
        end
    | _ => registers
    end.

(** The body of the datagram loop of [RbcpServer.run] for one received
    datagram: the reply sent with [sendto], if any, and the server after
    it.  An exception other than [OSError] leaves the loop. *)
Definition on_datagram (self : RbcpServer) (rbcp_msg : list Z)
    : Eff (option (list Z) * RbcpServer) :=
  if len rbcp_msg <? 8 then
    mret (None, {| _registers := _registers self;
                   _error_short_message := _error_short_message self + 1 |})
  else
    b0 ← lift (getitem rbcp_msg 0);
    if negb (b0 =? 0xff) then mret (None, self)
    else
      b1 ← lift (getitem rbcp_msg 1);
      if negb (b1 =? 0xc0) && negb (b1 =? 0x80) then mret (None, self)
      else
        let packet_read := b1 =? 0xc0 in
        packet_id ← lift (getitem rbcp_msg 2);
        packet_length ← lift (getitem rbcp_msg 3);
        packet_address ← lift (struct_unpack_BE_I (slice (Some 4) (Some 8) rbcp_msg));
        let packet_data := slice (Some 8) None rbcp_msg in
        if packet_read then
          reply ←
            try_out_of_range
              (packet_data' ← read_registers (_registers self) packet_address packet_length;
               header ← lift (_make_header r packet_id packet_address packet_length);
               mret (header ++ packet_data'))
              (let packet_length' := len packet_data in
               header ← lift (_make_header re packet_id packet_address packet_length');
               mret (header ++ packet_data));
          mret (Some reply, self)
        else
          '(reply, registers') ←
            try_out_of_range
              ('(_, registers') ← write_registers (_registers self) packet_address
                                    (slice (Some 0) (Some packet_length) packet_data);
               header ← lift (_make_header w packet_id packet_address packet_length);
               mret (header ++ packet_data, registers'))
              (let packet_length' := len packet_data in
               header ← lift (_make_header we packet_id packet_address packet_length');
               mret (header ++ packet_data, _registers self));
          mret (Some reply, {| _registers := registers';
                               _error_short_message := _error_short_message self |}).

(** The size recorded for a register is the length of its memory: what
    [__init__], [set_initial_data] and [merge] establish and [write_bytes]
    keeps. *)
Definition consistent (self : VirtualRegister) : Prop :=
  _memory_size self = len (_memory self).

(** The byte address [address] lies in the register. *)
Definition holds (self : VirtualRegister) (address : Z) : Prop :=
  _start_address self <= address < _start_address self + _memory_size self.

(** The byte the register stores for [address]. *)
Definition byte_at (self : VirtualRegister) (address : Z) : Z :=
  nth (Z.to_nat (address - _start_address self)) (_memory self) 0.

(** Every register of the list that holds [address] stores for it a byte
    that satisfies [V]. *)
Definition stores_only (V : Z -> Prop) (registers : list VirtualRegister)
    (address : Z) : Prop :=
  forall register, In register registers -> holds register address ->
    V (byte_at register address).

(** Some register of the list holds [address]. *)
Definition held (registers : list VirtualRegister) (address : Z) : Prop :=
  exists register, In register registers /\ holds register address.

(** The callback maps of a register. *)
Definition callbacks (self : VirtualRegister) : gmap Z callable * gmap Z callable :=
  (_read_callbacks self, _write_callbacks self).

(** What a sweep of [merge_registers] that merged two registers keeps:
    consistency, the addresses held, the bytes stored for them, and the
    callback maps of the registers that stay; the list is one shorter. *)
Definition sweep_keeps (registers registers' : list VirtualRegister) : Prop :=
  Forall consistent registers'
  /\ length registers = S (length registers')
  /\ (forall a, held registers a -> held registers' a)
  /\ (forall V a, stores_only V registers a -> stores_only V registers' a)
  /\ sublist (callbacks <$> registers') (callbacks <$> registers).

(** A list on which [merge_registers] finds nothing to merge. *)
Definition settled (registers : list VirtualRegister) : Prop :=
  len registers <= 1 \/ merge_outer registers = ([], Ok None).

(** The outcome of a one-byte [read_registers] at [address]. *)
Definition read_byte (registers : list VirtualRegister) (address : Z) : option Z :=
  match snd (read_registers registers address 1) with
  | Ok [b] => Some b
  | _ => None
  end.

(** [class DataGenerator]. *)
Record DataGenerator : Type := mkDataGenerator {
  _data_unit : Z;
  _count : Z;
  _data_unit_count : Z
}.

Definition DataGenerator__init__ : DataGenerator :=
  {| _data_unit := 8; _count := 0; _data_unit_count := 2 |}.

(** [for count_byte in count_bytes: data[index] = count_byte; index += 1]. *)
Fixpoint store_count_bytes (data : list Z) (index : Z) (count_bytes : list Z)
    : result (list Z) :=
  match count_bytes with
  | [] => Ok data
  | count_byte :: count_bytes' =>
      data' ← setitem data index count_byte;
      store_count_bytes data' (index + 1) count_bytes'
  end.

(** The [for data_unit in range(...)] loop of [create_data]; [iterations]
    is the number of values left in the range. *)
Fixpoint create_data_loop (unit_size : Z) (count : Z) (data : list Z)
    (data_unit : Z) (iterations : nat) : result (list Z * Z) :=
  match iterations with
  | O => Ok (data, count)
  | S iterations' =>
      count_bytes ← struct_pack_BE_L count;
      data ← setitem data (unit_size * data_unit) 0xa5;
      data ← store_count_bytes data (unit_size * data_unit + 4) count_bytes;
      let count := count + 1 in
      let count := if count =? 0xffffffff then 0 else count in
      create_data_loop unit_size count data (data_unit + 1) iterations'
  end.

(** [DataGenerator.create_data(data_unit_count)]: the record returned and
    the generator after the call.  The loop runs over
    [range(0, data_unit_count - 1)]. *)
Definition create_data (self : DataGenerator) (data_unit_count : Z)
    : result (list Z * DataGenerator) :=
  data ← bytearray (_data_unit self * data_unit_count);
  '(data, count) ← create_data_loop (_data_unit self) (_count self) data 0
                      (Z.to_nat (data_unit_count - 1 - 0));
  Ok (data, {| _data_unit := _data_unit self; _count := count;
               _data_unit_count := _data_unit_count self |}).

(** The counter after one data-unit: [self._count += 1], back to 0 on
    reaching 0xffffffff. *)
Definition next_count (count : Z) : Z :=
  if count + 1 =? 0xffffffff then 0 else count + 1.

(** A data-unit as the loop of [create_data] fills it for the counter
    [count]. *)
Definition filled_unit (count : Z) : list Z :=
  [0xa5; 0; 0; 0;
   Z.land (Z.shiftr count 24) 0xff; Z.land (Z.shiftr count 16) 0xff;
   Z.land (Z.shiftr count 8) 0xff; Z.land count 0xff].

(** [units] filled data-units in a row, counting from [count]. *)
Fixpoint filled_units (count : Z) (units : nat) : list Z :=
  match units with
  | O => []
  | S units' => filled_unit count ++ filled_units (next_count count) units'
  end.

(** What [select] and [send] give one pass of the loop of
    [SessionThreadGen.run]: the socket is writable and [send] takes the
    first [accepted] bytes of the record, the socket is writable and [send]
    raises [OSError], or the socket is not writable. *)
Inductive select_writable : Type :=
| Writable (accepted : nat)
| WritableSendRaises
| NotWritable.

(** The loop of [SessionThreadGen.run] over the passes made while the state
    is RUNNING: the bytes put on the connection by each [send], in order,
    and the generator when the loop is left.  An [OSError] leaves the loop;
    what [create_data] raises leaves [run]. *)
Fixpoint SessionThreadGen_run (self : DataGenerator) (passes : list select_writable)
    : result (list (list Z) * DataGenerator) :=
  match passes with
  | [] => Ok ([], self)
  | pass :: passes' =>
      let data_count := _data_unit_count self in
      match pass with
      | Writable accepted =>
          '(data, self) ← create_data self data_count;
          '(sent, self) ← SessionThreadGen_run self passes';
          Ok (take accepted data :: sent, self)
      | WritableSendRaises =>
          '(_, self) ← create_data self data_count;
          Ok ([], self)
      | NotWritable => SessionThreadGen_run self passes'
      end
  end.

End RbcpServer.

(** ** sitcpy/cui.py: line framing of a text session *)

Module Cui.
Import Py.

Definition CR : Z := 13.
Definition LF : Z := 10.

(** [class TextHandler]: the line separator detected last. *)
Record TextHandler : Type := mkTextHandler {
  _linesep : list Z
}.

Definition TextHandler__init__ : TextHandler := {| _linesep := [CR; LF] |}.

(** The [for delimiter, delimiter_str in ...] loop of
    [find_delimiter_position]. *)
Fixpoint find_delimiter_loop (self : TextHandler) (byte_data : list Z)
    (delimiters : list (list Z)) : Z * TextHandler :=
  match delimiters with
  | [] => (-1, self)
  | delimiter :: delimiters' =>
      let pos := find byte_data delimiter in
      if 0 <=? pos then (pos + len delimiter, {| _linesep := delimiter |})
      else find_delimiter_loop self byte_data delimiters'
  end.

(** [TextHandler.find_delimiter_position(byte_data)]: the position
    returned and the handler after the call. *)
Definition find_delimiter_position (self : TextHandler) (byte_data : list Z)
    : Z * TextHandler :=
  find_delimiter_loop self byte_data [[CR; LF]; [LF]; [CR]].

(** [class SessionThread]: the handler and the bytes kept for the next
    frame. *)
Record SessionThread : Type := mkSessionThread {
  _data_handler : TextHandler;
  _rest_byte_data : list Z
}.

(** What one pass of the receive branch of [SessionThread.run] does: the
    message handed to [on_data], if any, whether the loop goes on, and the
    session after it. *)
Record received : Type := mkReceived {
  message : option (list Z);
  continue : bool;
  session : SessionThread
}.

(** The receive branch of the loop of [SessionThread.run] for the bytes
    [recv] returned; [on_data] is the handler's method, which tells
    whether the session goes on. *)
Definition on_recv (on_data : list Z -> bool) (self : SessionThread)
    (byte_data : list Z) : received :=
  match byte_data with
  | [] => {| message := None; continue := false; session := self |}
  | _ :: _ =>
      let byte_data :=
        match _rest_byte_data self with
        | [] => byte_data
        | _ :: _ => _rest_byte_data self ++ byte_data
        end in
      let '(delimiter_pos, handler) :=
        find_delimiter_position (_data_handler self) byte_data in
      if 0 <=? delimiter_pos then
        let msg := slice None (Some delimiter_pos) byte_data in
        if negb (on_data msg) then
          {| message := Some msg; continue := false;
             session := {| _data_handler := handler;
                           _rest_byte_data := _rest_byte_data self |} |}
        else
          {| message := Some msg; continue := true;
             session := {| _data_handler := handler;
                           _rest_byte_data :=
                             slice (Some delimiter_pos) None byte_data |} |}
      else
        {| message := None; continue := true;
           session := {| _data_handler := handler; _rest_byte_data := byte_data |} |}
  end.

(** The passes of the loop of [SessionThread.run] in which the socket is
    readable, one for each chunk [recv] returns: the messages handed to
    [on_data] and the session when the loop is left or the chunks end. *)
Fixpoint run_loop (on_data : list Z -> bool) (self : SessionThread)
    (chunks : list (list Z)) : list (list Z) * SessionThread :=
  match chunks with
  | [] => ([], self)
  | chunk :: chunks' =>
      let res := on_recv on_data self chunk in
      let handed := match message res with Some msg => [msg] | None => [] end in
      if continue res then
        let '(handed', self') := run_loop on_data (session res) chunks' in
        (handed ++ handed', self')
      else (handed, session res)
  end.

(** What [select] and [recv] give one pass of the loop of
    [CommandClient._receive]. *)
Inductive select_result : Type :=
| Readable (read_byte_data : list Z)
| NotReadable.

(** The [while True] loop of [CommandClient._receive(strip_prompt)] with
    [prompt] the bytes of [self._prompt]: the value returned, or nothing
    when the loop is still running after the passes given. *)
Fixpoint _receive_loop (prompt : list Z) (strip_prompt : bool) (byte_data : list Z)
    (evs : list select_result) : option (option (list Z)) :=
  match evs with
  | [] => None
  | NotReadable :: evs' => _receive_loop prompt strip_prompt byte_data evs'
  | Readable read_byte_data :: evs' =>
      match read_byte_data with
      | [] => Some None
      | _ :: _ =>
          let pos_prompt := find read_byte_data prompt in
          if 0 <=? pos_prompt then
            if strip_prompt then
              Some (Some (byte_data ++ slice (Some 0) (Some pos_prompt) read_byte_data))
            else Some (Some (byte_data ++ read_byte_data))
          else _receive_loop prompt strip_prompt (byte_data ++ read_byte_data) evs'
      end
  end.

Definition _receive (prompt : list Z) (strip_prompt : bool) (evs : list select_result)
    : option (option (list Z)) :=
  _receive_loop prompt strip_prompt [] evs.

(** The bytes [recv] returned over the passes, in order. *)
Fixpoint received_bytes (evs : list select_result) : list Z :=
  match evs with
  | [] => []
  | Readable read_byte_data :: evs' => read_byte_data ++ received_bytes evs'
  | NotReadable :: evs' => received_bytes evs'
  end.

(** [sub in byte_data] for bytes objects. *)
Definition contains (byte_data sub : list Z) : Prop :=
  exists pre post, byte_data = pre ++ sub ++ post.

End Cui.

(** ** sitcpy/daq_client.py: the receive loop of the DAQ client *)

Module DaqClient.
Import Py.

(** What [select] and [recv] give one pass of the loop. *)
Inductive select_result : Type :=
| Readable (received : list Z)
| NotReadable.

(** The calls the loop makes on the DAQ handler. *)
Inductive handler_call : Type :=
| on_daq_data (byte_data : list Z)
| on_running.

(** The variables of [DaqClient.run] that the loop updates. *)
Record loop_state : Type := mkLoopState {
  byte_array : list Z;
  _data_bytes : Z;
  running : Z
}.

Definition loop_start : loop_state :=
  {| byte_array := []; _data_bytes := 0; running := 0 |}.

(** The [if sock in readable:] branch. *)
Definition on_readable (data_unit : Z) (st : loop_state) (received : list Z)
    : result (list handler_call * loop_state) :=
  let byte_array := byte_array st ++ received in
  let length := len byte_array in
  if data_unit <=? length then
    rest ← mod_ length data_unit;
    if rest =? 0 then
      Ok ([on_daq_data byte_array],
          {| byte_array := []; _data_bytes := _data_bytes st + length;
             running := running st |})
    else
      Ok ([on_daq_data (slice (Some 0) (Some (- rest)) byte_array)],
          {| byte_array := slice (Some (- rest)) None byte_array;
             _data_bytes := _data_bytes st + (length - rest);
             running := running st |})
  else
    Ok ([], {| byte_array := byte_array; _data_bytes := _data_bytes st;
               running := running st |}).

(** The [running += 1; if running % 2 == 0: ...] tail of a pass. *)
Definition tick (st : loop_state) : list handler_call * loop_state :=
  let running := running st + 1 in
  if running mod 2 =? 0 then
    ([on_running], {| byte_array := byte_array st; _data_bytes := _data_bytes st;
                      running := 0 |})
  else
    ([], {| byte_array := byte_array st; _data_bytes := _data_bytes st;
            running := running |}).

(** One pass of the [while] loop of [DaqClient.run]. *)
Definition iteration (data_unit : Z) (st : loop_state) (ev : select_result)
    : result (list handler_call * loop_state) :=
  '(calls, st) ← match ev with
                 | Readable received => on_readable data_unit st received
                 | NotReadable => Ok ([], st)
                 end;
  let '(calls', st) := tick st in
  Ok (calls ++ calls', st).

(** The loop over the passes made while the state is RUNNING: all handler
    calls in order and the variables when the loop is left. *)
Fixpoint run_loop (data_unit : Z) (st : loop_state) (evs : list select_result)
    : result (list handler_call * loop_state) :=
  match evs with
  | [] => Ok ([], st)
  | ev :: evs' =>
      '(calls, st) ← iteration data_unit st ev;
      '(calls', st) ← run_loop data_unit st evs';
      Ok (calls ++ calls', st)
  end.

(** Every buffer handed to [on_daq_data] is a positive whole number of
    data units. *)
Definition aligned (data_unit : Z) (calls : list handler_call) : Prop :=
  forall byte_data, In (on_daq_data byte_data) calls ->
    0 < len byte_data /\ len byte_data mod data_unit = 0.

(** The bytes handed to [on_daq_data], in order. *)
Fixpoint delivered (calls : list handler_call) : list Z :=
  match calls with
  | [] => []
  | on_daq_data byte_data :: calls' => byte_data ++ delivered calls'
  | on_running :: calls' => delivered calls'
  end.

(** The bytes [recv] returned, in order. *)
Fixpoint received_bytes (evs : list select_result) : list Z :=
  match evs with
  | [] => []
  | Readable received :: evs' => received ++ received_bytes evs'
  | NotReadable :: evs' => received_bytes evs'
  end.

(** The number of calls of [on_running] among the handler calls. *)
Fixpoint running_calls (calls : list handler_call) : nat :=
  match calls with
  | [] => O
  | on_running :: calls' => S (running_calls calls')
  | on_daq_data _ :: calls' => running_calls calls'
  end.

End DaqClient.

(** ** sitcpy/__init__.py: the forward-only state shared by the threads *)

Module State.

Definition THREAD_NOT_STARTED : Z := 0.
Definition THREAD_STARTING : Z := 1.
Definition THREAD_RUNNING : Z := 2.
Definition THREAD_STOPPING : Z := 3.
Definition THREAD_STOPPED : Z := 4.

(** [class State]: the state value, and for the condition variable
    [self._cond] the threads that are blocked in [self._cond.wait] and have
    not been notified. *)
Record State : Type := mkState {
  _state : Z;
  _cond : list nat
}.

Definition __init__ (initial_state : Z) : State :=
  {| _state := initial_state; _cond := [] |}.

Definition __call__ (self : State) : Z := _state self.

(** [State.transit(new_state)], run with the lock of [self._cond] held: the
    value returned and the object after the call.  [notify_all] notifies
    every thread blocked on the condition. *)
Definition transit (self : State) (new_state : Z) : bool * State :=
  if _state self <? new_state then
    (true, {| _state := new_state; _cond := [] |})
  else (false, self).

(** Where a thread that has called [wait] stands: at the top of the
    [while True] loop with the lock held, blocked in [self._cond.wait], or
    back in its caller with the value returned. *)
Inductive position : Type :=
| AtLoop
| InCondWait
| Returned (result : bool).

(** The frame of a call [wait(state, timeout)]: the arguments, the local
    [end], and where the thread stands.  Time is a clock reading in whole
    ticks. *)
Record frame : Type := mkFrame {
  state : Z;
  timeout : option Z;
  end_ : Z;
  at_ : position
}.

Definition move (w : frame) (p : position) : frame :=
  {| state := state w; timeout := timeout w; end_ := end_ w; at_ := p |}.

(** Entering [wait]: [end = time.time() + (timeout or 0)]. *)
Definition wait_enter (now : Z) (state_ : Z) (timeout_ : option Z) : frame :=
  {| state := state_; timeout := timeout_;
     end_ := now + match timeout_ with Some t => t | None => 0 end;
     at_ := AtLoop |}.

(** One pass of the [while True] loop of [wait] by thread [tid], from the
    top of the loop until it returns or blocks in [self._cond.wait], which
    releases the lock. *)
Definition wait_pass (tid : nat) (now : Z) (self : State) (w : frame)
    : State * frame :=
  if state w <=? _state self then (self, move w (Returned true))
  else
    match timeout w with
    | None =>
        ({| _state := _state self; _cond := tid :: _cond self |}, move w InCondWait)
    | Some _ =>
        if end_ w <? now then (self, move w (Returned false))
        else
          ({| _state := _state self; _cond := tid :: _cond self |},
           move w InCondWait)
    end.

(** Whether [self._cond.wait] of thread [tid] can return at time [now]: the
    thread has been notified, or the time it was given to wait, which ends
    at [end], has run out. *)
Definition cond_wait_over (tid : nat) (now : Z) (self : State) (w : frame) : bool :=
  negb (bool_decide (tid ∈ _cond self))
  || match timeout w with
     | Some _ => end_ w <=? now
     | None => false
     end.

(** The threads sharing one [State] object, and the clock. *)
Record system : Type := mkSystem {
  shared : State;
  clock : Z;
  waits : gmap nat frame
}.

Definition start (initial_state now : Z) : system :=
  {| shared := __init__ initial_state; clock := now; waits := ∅ |}.

(** What can happen next: some thread calls [transit]; thread [tid] calls
    [wait]; a thread at the top of the loop makes a pass; a thread blocked
    in [self._cond.wait] comes back from it; time passes. *)
Inductive action : Type :=
| CallTransit (new_state : Z)
| CallWait (tid : nat) (state_ : Z) (timeout_ : option Z)
| Pass (tid : nat)
| Wake (tid : nat)
| Tick (dt : Z).

Definition step (s : system) (a : action) : system :=
  match a with
  | CallTransit new_state =>
      {| shared := snd (transit (shared s) new_state); clock := clock s;
         waits := waits s |}
  | CallWait tid state_ timeout_ =>
      match waits s !! tid with
      | Some _ => s
      | None =>
          {| shared := shared s; clock := clock s;
             waits := <[tid := wait_enter (clock s) state_ timeout_]> (waits s) |}
      end
  | Pass tid =>
      match waits s !! tid with
      | Some w =>
          match at_ w with
          | AtLoop =>
              let '(self, w') := wait_pass tid (clock s) (shared s) w in
              {| shared := self; clock := clock s; waits := <[tid := w']> (waits s) |}
          | _ => s
          end
      | None => s
      end
  | Wake tid =>
      match waits s !! tid with
      | Some w =>
          match at_ w with
          | InCondWait =>
              if cond_wait_over tid (clock s) (shared s) w then
                {| shared := {| _state := _state (shared s);
                                _cond := filter (λ t, t ≠ tid) (_cond (shared s)) |};
                   clock := clock s;
                   waits := <[tid := move w AtLoop]> (waits s) |}
              else s
          | _ => s
          end
      | None => s
      end
  | Tick dt =>
      {| shared := shared s; clock := clock s + Z.max dt 0; waits := waits s |}
  end.

Definition run (s : system) (actions : list action) : system :=
  fold_left step actions s.


End State.

(** ** A client and the pseudo server on one link

    The network between an [Rbcp] client and an [RbcpServer] when nothing
    else uses it and no datagram is lost: a datagram sent by the client is
    handled by the datagram loop of the server at once, and the reply waits
    for the client. *)

Module Loopback.
Import Py.

Record link : Type := mkLink {
  server : RbcpServer.RbcpServer;
  serving : bool;
  replies : list (list Z)
}.

(** The client's [sendto]: the whole datagram is accepted; the server, while
    its thread runs, takes it with [recvfrom(4096)] and handles it.  An
    exception that leaves the datagram loop ends the thread. *)
Definition sendto (l : link) (datagram : list Z) : link * Z :=
  if serving l then
    match RbcpServer.on_datagram (server l) (slice None (Some 4096) datagram) with
    | (_, Ok (reply, server')) =>
        ({| server := server'; serving := true;
            replies := replies l ++ match reply with
                                    | Some reply_datagram => [reply_datagram]
                                    | None => []
                                    end |},
         len datagram)
    | (_, Raise _) =>
        ({| server := server l; serving := false; replies := replies l |},
         len datagram)
    end
  else (l, len datagram).

(** The client's [select] and [recvfrom]: the oldest reply, if one waits. *)
Definition recvfrom (l : link) : link * option (list Z) :=
  match replies l with
  | [] => (l, None)
  | reply :: replies' =>
      ({| server := server l; serving := serving l; replies := replies' |},
       Some reply)
  end.

Definition sock : Rbcp.socket link :=
  {| Rbcp.sendto := sendto; Rbcp.recvfrom := recvfrom |}.

End Loopback.

(** * Properties *)

(** ** Sequence operations *)

Section PySequences.
Import Py.

Lemma len_nonneg {A : Type} (l : list A) : 0 <= len l.
Proof. unfold len. lia. Qed.

Lemma len_app {A : Type} (l1 l2 : list A) : len (l1 ++ l2) = len l1 + len l2.
Proof. unfold len. rewrite length_app. lia. Qed.

Lemma slice_prefix {A : Type} (l : list A) (k : Z) :
  0 <= k <= len l -> slice None (Some k) l = take (Z.to_nat k) l.
Proof.
  intros Hk. unfold slice, clamp.
  destruct (k <? 0) eqn:E; [lia|].
  rewrite Z.min_l by lia. rewrite Z.sub_0_r. reflexivity.
Qed.

Lemma slice_suffix {A : Type} (l : list A) (k : Z) :
  0 <= k <= len l -> slice (Some k) None l = drop (Z.to_nat k) l.
Proof.
  intros Hk. unfold slice, clamp.
  destruct (k <? 0) eqn:E; [lia|].
  rewrite Z.min_l by lia.
  apply take_ge. rewrite length_drop. unfold len in *. lia.
Qed.

Lemma slice_range {A : Type} (l : list A) (a b : Z) :
  0 <= a -> a <= b -> b <= len l ->
  slice (Some a) (Some b) l = take (Z.to_nat (b - a)) (drop (Z.to_nat a) l).
Proof.
  intros Ha Hab Hb. unfold slice, clamp.
  destruct (a <? 0) eqn:Ea; [lia|]. destruct (b <? 0) eqn:Eb; [lia|].
  rewrite !Z.min_l by lia. reflexivity.
Qed.

Lemma slice_drop_tail {A : Type} (l : list A) (rest : Z) :
  0 < rest <= len l ->
  slice (Some 0) (Some (- rest)) l = take (Z.to_nat (len l - rest)) l.
Proof.
  intros Hr. unfold slice, clamp. simpl.
  destruct (- rest <? 0) eqn:E; [|lia].
  rewrite Z.min_l by apply len_nonneg. rewrite Z.max_l by lia.
  rewrite Z.sub_0_r. f_equal. f_equal. lia.
Qed.

Lemma slice_keep_tail {A : Type} (l : list A) (rest : Z) :
  0 < rest <= len l ->
  slice (Some (- rest)) None l = drop (Z.to_nat (len l - rest)) l.
Proof.
  intros Hr. unfold slice, clamp.
  destruct (- rest <? 0) eqn:E; [|lia].
  rewrite Z.max_l by lia. replace (- rest + len l) with (len l - rest) by lia.
  apply take_ge. rewrite length_drop. unfold len in *. lia.
Qed.

Lemma getitem_lookup (l : list Z) (i : nat) (x : Z) :
  l !! i = Some x -> getitem l (Z.of_nat i) = Ok x.
Proof.
  intros Hx. unfold getitem.
  pose proof (lookup_lt_Some _ _ _ Hx) as Hlt.
  destruct (Z.ltb_spec (Z.of_nat i) 0) as [E|E]; [lia|].
  destruct (Z.ltb_spec (Z.of_nat i) 0) as [E1|E1]; [lia|].
  destruct (Z.leb_spec (len l) (Z.of_nat i)) as [E2|E2]; [unfold len in *; lia|].
  simpl. rewrite Nat2Z.id. f_equal.
  apply nth_lookup_Some with (d := 0) in Hx. exact Hx.
Qed.

Lemma land_byte (x : Z) : is_byte (Z.land x 0xff) = true.
Proof.
  assert (0 <= Z.land x 0xff <= 255) as H.
  { replace (Z.land x 0xff) with (x mod 256)
      by (symmetry; apply (Z.land_ones x 8); lia).
    pose proof (Z.mod_pos_bound x 256 ltac:(lia)). lia. }
  unfold is_byte. apply andb_true_iff. split; apply Z.leb_le; lia.
Qed.

Lemma startswith_app (sub l : list Z) :
  startswith sub l = true <-> exists post, l = sub ++ post.
Proof.
  revert l. induction sub as [|x sub IH]; intros l; simpl.
  - split; [intros _; exists l; reflexivity | reflexivity].
  - destruct l as [|y l].
    + split; [discriminate | intros [post H]; discriminate].
    + rewrite andb_true_iff, Z.eqb_eq, IH. split.
      * intros [-> [post ->]]. exists post. reflexivity.
      * intros [post H]. injection H as -> ->. split; [reflexivity | eauto].
Qed.

(** [find] returns the lowest position of an occurrence, and [-1] exactly
    when there is none. *)
Lemma find_from_spec (sub l : list Z) (i : Z) :
  (find_from sub l i = -1 /\ forall pre post, l <> pre ++ sub ++ post)
  \/ (exists pre post, l = pre ++ sub ++ post
        /\ find_from sub l i = i + len pre
        /\ forall pre' post', l = pre' ++ sub ++ post' ->
             (length pre <= length pre')%nat).
Proof.
  revert i. induction l as [|y l IH]; intros i; simpl.
  - destruct (startswith sub []) eqn:E.
    + right. apply startswith_app in E as [post E]. exists [], post.
      split; [exact E|]. split; [unfold len; simpl; lia|]. intros; simpl; lia.
    + left. split; [reflexivity|]. intros pre post H.
      destruct pre; simpl in H; [|discriminate].
      rewrite <- not_true_iff_false in E. apply E. apply startswith_app. eauto.
  - destruct (startswith sub (y :: l)) eqn:E.
    + right. apply startswith_app in E as [post E]. exists [], post.
      split; [exact E|]. split; [unfold len; simpl; lia|]. intros; simpl; lia.
    + rewrite <- not_true_iff_false in E.
      destruct (IH (i + 1)) as [[Hf Hno] | (pre & post & Hl & Hf & Hmin)].
      * left. split; [exact Hf|]. intros pre post H. destruct pre as [|p pre].
        -- apply E. apply startswith_app. exists post. exact H.
        -- simpl in H. injection H as _ H. exact (Hno _ _ H).
      * right. exists (y :: pre), post. split; [simpl; congruence|].
        split; [rewrite Hf; unfold len; simpl; lia|].
        intros pre' post' H. destruct pre' as [|p pre'].
        -- exfalso. apply E. apply startswith_app. exists post'. exact H.
        -- simpl in H. injection H as _ H. specialize (Hmin _ _ H). simpl. lia.
Qed.

End PySequences.

(** ** The client side codec (sitcpy/rbcp.py) *)

Section RbcpCodec.
Import Py Rbcp.

Lemma low_bit_land (command : Z) :
  (Z.land command 0x1 =? 1) = Z.testbit command 0.
Proof.
  change 0x1 with (Z.ones 1). rewrite Z.land_ones by lia.
  change (2 ^ 1) with 2. rewrite <- Z.bit0_mod.
  destruct (Z.testbit command 0); reflexivity.
Qed.

Lemma header_bytes_ok (command_type packet_id n a : Z) :
  is_byte command_type = true -> is_byte packet_id = true -> is_byte n = true ->
  exists header,
    struct_pack_8B
      [HEADER_VERTYPE; command_type; packet_id; n;
       Z.land (Z.shiftr (Z.land a 0xff000000) 24) 0xff;
       Z.land (Z.shiftr (Z.land a 0x00ff0000) 16) 0xff;
       Z.land (Z.shiftr (Z.land a 0x0000ff00) 8) 0xff;
       Z.land (Z.shiftr (Z.land a 0x000000ff) 0) 0xff] = Ok header
    /\ length header = 8%nat.
Proof.
  intros Hc Hp Hn. unfold struct_pack_8B. cbn [forallb].
  rewrite Hc, Hp, Hn, !land_byte. simpl.
  eexists. split; reflexivity.
Qed.

(** C2 (as the code has it): [_make_header] accepts exactly the integer
    pairs with 0 <= address <= 0xFFFFFFFF, 0 <= length <= 255 and
    address + length <= 0xFFFFFFFF, for which it returns eight bytes, and
    raises [ValueError] on every other pair (the packet id being a byte). *)
Theorem make_header_accepts_below_address_limit
    (read_write : Z) (register_address length_ : value) (packet_id : Z) :
  0 <= packet_id <= 255 ->
  ((exists a n, register_address = VInt a /\ length_ = VInt n
                /\ 0 <= a <= 0xffffffff /\ 0 <= n <= 255 /\ a + n <= 0xffffffff) ->
   exists header,
     _make_header read_write register_address length_ packet_id = Ok header
     /\ length header = 8%nat)
  /\ (~ (exists a n, register_address = VInt a /\ length_ = VInt n
                /\ 0 <= a <= 0xffffffff /\ 0 <= n <= 255 /\ a + n <= 0xffffffff) ->
      exists m,
        _make_header read_write register_address length_ packet_id
        = Raise (ValueError m)).
Proof.
  intros Hid. split.
  - intros (a & n & -> & -> & Ha & Hn & Han). unfold _make_header. simpl.
    destruct (Z.ltb_spec a 0); [lia|].
    destruct (Z.ltb_spec 0xffffffff a); [lia|].
    destruct (Z.ltb_spec n 0); [lia|].
    destruct (Z.ltb_spec 255 n); [lia|].
    destruct (Z.ltb_spec 0xffffffff (a + n)); [lia|]. simpl.
    apply header_bytes_ok.
    + destruct (read_write =? HEADER_READ); reflexivity.
    + unfold is_byte. apply andb_true_iff. split; apply Z.leb_le; lia.
    + unfold is_byte. apply andb_true_iff. split; apply Z.leb_le; lia.
  - intros Hbad. unfold _make_header.
    destruct register_address as [a| | |]; simpl; eauto.
    destruct length_ as [n| | |]; simpl; eauto.
    destruct (Z.ltb_spec a 0); simpl; eauto.
    destruct (Z.ltb_spec 0xffffffff a); simpl; eauto.
    destruct (Z.ltb_spec n 0); simpl; eauto.
    destruct (Z.ltb_spec 255 n); simpl; eauto.
    destruct (Z.ltb_spec 0xffffffff (a + n)); simpl; eauto.
    exfalso. apply Hbad. exists a, n. repeat split; lia.
Qed.

Lemma make_header_accepts_below_address_limit_witness :
  exists header,
    _make_header HEADER_READ (VInt 0xffffff00) (VInt 255) 7 = Ok header
    /\ length header = 8%nat.
Proof.
  apply (make_header_accepts_below_address_limit
           HEADER_READ (VInt 0xffffff00) (VInt 255) 7); [lia|].
  exists 0xffffff00, 255. repeat split; lia.
Defined.

(** C2 as stated fails: the pair (0xFFFFFFFF, 1) has address + length equal
    to 2^32 and meets every condition of the claim, and is rejected. *)
Lemma make_header_rejects_sum_2_32 :
  ~ (forall a n packet_id,
       0 <= a <= 0xffffffff -> 0 <= n <= 255 -> a + n <= 2 ^ 32 ->
       0 <= packet_id <= 255 ->
       exists header, _make_header HEADER_READ (VInt a) (VInt n) packet_id = Ok header).
Proof.
  intros H.
  destruct (H 0xffffffff 1 0) as [header Hh]; [lia | lia | lia | lia |].
  vm_compute in Hh. discriminate.
Qed.

(** C3 (as the code has it): a packet shorter than eight bytes or with a
    version byte other than 0xFF is a protocol error; otherwise a command
    byte with its low bit set is a bus error, whatever the id byte is;
    only when that bit is clear is a differing id a protocol error. *)
Theorem check_packet_bus_error_before_id (packet : list Z) (wait_id : Z) :
  (len packet < 8 ->
   _check_packet packet wait_id
   = Raise (RbcpError (HeaderTooShort (len packet) 8)))
  /\ (forall version command id_,
        8 <= len packet ->
        packet !! 0%nat = Some version ->
        packet !! 1%nat = Some command ->
        packet !! 2%nat = Some id_ ->
        _check_packet packet wait_id
        = if decide (version <> 0xff) then Raise (RbcpError HeaderVersionMismatch)
          else if Z.testbit command 0 then Raise RbcpBusError
          else if decide (id_ <> wait_id) then Raise (RbcpError PacketIdMismatch)
          else Ok tt).
Proof.
  split.
  - intros Hlen. unfold _check_packet, HEADER_SIZE.
    destruct (Z.ltb_spec (len packet) 8); [reflexivity | lia].
  - intros version command id_ Hlen H0 H1 H2. unfold _check_packet, HEADER_SIZE.
    destruct (Z.ltb_spec (len packet) 8); [lia|].
    pose proof (getitem_lookup packet 0 version H0) as G0.
    pose proof (getitem_lookup packet 1 command H1) as G1.
    pose proof (getitem_lookup packet 2 id_ H2) as G2.
    change (Z.of_nat 0) with 0 in G0. change (Z.of_nat 1) with 1 in G1.
    change (Z.of_nat 2) with 2 in G2.
    rewrite G0. cbn [mbind result_bind bind_flip bind].
    unfold HEADER_VERTYPE.
    destruct (Z.eqb_spec version 0xff) as [->|Hv]; simpl.
    + destruct (decide (255 <> 255)) as [Hne|_]; [by destruct Hne|].
      rewrite G1. cbn [mbind result_bind bind_flip bind].
      rewrite low_bit_land. change (Z.testbit command 0) with (Z.odd command).
      destruct (Z.odd command); [reflexivity|].
      rewrite G2. cbn [mbind result_bind bind_flip bind].
      destruct (Z.eqb_spec id_ wait_id) as [->|Hi]; simpl.
      * destruct (decide (wait_id <> wait_id)) as [Hne|_];
          [by destruct Hne | reflexivity].
      * destruct (decide (id_ <> wait_id)) as [_|Heq];
          [reflexivity | by destruct Heq].
    + destruct (decide (version <> 255)) as [_|Heq];
        [reflexivity | by destruct Heq].
Qed.

Lemma check_packet_bus_error_before_id_witness :
  _check_packet [0xff; 0xc9; 1; 0; 0; 0; 0; 0] 0 = Raise RbcpBusError.
Proof.
  exact (proj2 (check_packet_bus_error_before_id [0xff; 0xc9; 1; 0; 0; 0; 0; 0] 0)
           0xff 0xc9 1 ltac:(unfold len; simpl; lia) eq_refl eq_refl eq_refl).
Defined.

(** C3 as stated fails: a reply of eight bytes with version 0xFF, command
    0xC9 and id 1, checked against the expected id 0, raises the bus
    error, not the protocol error. *)
Lemma check_packet_id_mismatch_hidden_by_bus_error :
  ~ (forall packet wait_id id_,
       8 <= len packet -> packet !! 0%nat = Some 0xff ->
       packet !! 2%nat = Some id_ -> id_ <> wait_id ->
       exists m, _check_packet packet wait_id = Raise (RbcpError m)).
Proof.
  intros H.
  destruct (H [0xff; 0xc9; 1; 0; 0; 0; 0; 0] 0 1) as [m Hm];
    [unfold len; simpl; lia | reflexivity | reflexivity | lia |].
  vm_compute in Hm. discriminate.
Qed.

End RbcpCodec.

(** ** The DAQ receive loop (sitcpy/daq_client.py) *)

Section DaqAlignment.
Import Py DaqClient.

Variable data_unit : Z.
Hypothesis data_unit_pos : 1 <= data_unit.

Local Abbreviation aligned := (DaqClient.aligned data_unit).

Lemma aligned_app (c1 c2 : list handler_call) :
  aligned c1 -> aligned c2 -> aligned (c1 ++ c2).
Proof.
  intros H1 H2 b Hb. apply in_app_or in Hb as [Hb|Hb]; [apply H1 | apply H2]; exact Hb.
Qed.

Lemma delivered_app (c1 c2 : list handler_call) :
  delivered (c1 ++ c2) = delivered c1 ++ delivered c2.
Proof.
  induction c1 as [|[b|] c1 IH]; simpl; [reflexivity | | exact IH].
  rewrite IH, app_assoc. reflexivity.
Qed.

Lemma on_readable_step (st : loop_state) (received : list Z) :
  exists calls st',
    on_readable data_unit st received = Ok (calls, st')
    /\ aligned calls
    /\ len (byte_array st') < data_unit
    /\ delivered calls ++ byte_array st' = byte_array st ++ received.
Proof.
  unfold on_readable.
  set (buf := byte_array st ++ received).
  destruct (Z.leb_spec data_unit (len buf)) as [Hle|Hlt].
  - unfold mod_. destruct (Z.eqb_spec data_unit 0) as [E|_]; [lia|].
    cbn [mbind result_bind bind_flip bind].
    pose proof (Z.mod_pos_bound (len buf) data_unit ltac:(lia)) as Hrest.
    destruct (Z.eqb_spec (len buf mod data_unit) 0) as [E0|E0].
    + eexists _, _. split; [reflexivity|]. simpl. split; [|split].
      * intros b [Hb|[]]. injection Hb as <-. split; [lia | exact E0].
      * unfold len. simpl. lia.
      * rewrite !app_nil_r. reflexivity.
    + eexists _, _. split; [reflexivity|]. simpl.
      rewrite slice_drop_tail, slice_keep_tail by lia.
      set (k := Z.to_nat (len buf - len buf mod data_unit)).
      assert (Z.of_nat k = len buf - len buf mod data_unit) as Hk
        by (unfold k; lia).
      assert (len (take k buf) = Z.of_nat k) as Htake.
      { unfold len. rewrite length_take. unfold len in *. lia. }
      split; [|split].
      * intros b [Hb|[]]. injection Hb as <-. rewrite Htake, Hk. split; [lia|].
        rewrite Zminus_mod, Z.mod_mod, Z.sub_diag by lia. apply Z.mod_0_l. lia.
      * unfold len. rewrite length_drop. unfold len in *. lia.
      * rewrite app_nil_r. apply take_drop.
  - eexists _, _. split; [reflexivity|]. simpl. split; [|split].
    + intros b [].
    + exact Hlt.
    + reflexivity.
Qed.

Lemma tick_calls (st : loop_state) :
  aligned (fst (tick st)) /\ delivered (fst (tick st)) = []
  /\ byte_array (snd (tick st)) = byte_array st.
Proof.
  unfold tick. destruct ((running st + 1) mod 2 =? 0); simpl.
  - split; [|split; reflexivity]. intros b [Hb|[]]. discriminate.
  - split; [|split; reflexivity]. intros b [].
Qed.

Lemma iteration_step (st : loop_state) (ev : select_result) :
  len (byte_array st) < data_unit ->
  exists calls st',
    iteration data_unit st ev = Ok (calls, st')
    /\ aligned calls
    /\ len (byte_array st') < data_unit
    /\ delivered calls ++ byte_array st'
       = byte_array st ++ received_bytes [ev].
Proof.
  intros Hst. unfold iteration.
  assert (exists calls st1,
            match ev with
            | Readable received => on_readable data_unit st received
            | NotReadable => Ok ([], st)
            end = Ok (calls, st1)
            /\ aligned calls /\ len (byte_array st1) < data_unit
            /\ delivered calls ++ byte_array st1
               = byte_array st ++ received_bytes [ev])
    as (calls & st1 & -> & Hal & Hlen & Hbytes).
  { destruct ev as [received|]; simpl.
    - destruct (on_readable_step st received) as (c & s1 & Hr & Ha & Hl & Hb).
      exists c, s1. rewrite app_nil_r. auto.
    - eexists _, _. split; [reflexivity|]. split; [intros b []|].
      split; [exact Hst|]. simpl. symmetry. apply app_nil_r. }
  cbn [mbind result_bind bind_flip bind].
  destruct (tick_calls st1) as (Hal' & Hdel & Hba).
  destruct (tick st1) as [calls' st2]. simpl in *.
  eexists _, _. split; [reflexivity|]. split; [|split].
  - apply aligned_app; assumption.
  - rewrite Hba. exact Hlen.
  - rewrite delivered_app, Hdel, app_nil_r, Hba. exact Hbytes.
Qed.

Lemma run_loop_steps (evs : list select_result) (st : loop_state) :
  len (byte_array st) < data_unit ->
  exists calls st',
    run_loop data_unit st evs = Ok (calls, st')
    /\ aligned calls
    /\ len (byte_array st') < data_unit
    /\ delivered calls ++ byte_array st'
       = byte_array st ++ received_bytes evs.
Proof.
  revert st. induction evs as [|ev evs IH]; intros st Hst; simpl.
  - eexists _, _. split; [reflexivity|]. split; [intros b []|].
    split; [exact Hst|]. simpl. rewrite app_nil_r. reflexivity.
  - destruct (iteration_step st ev Hst) as (c1 & st1 & -> & Hal1 & Hlen1 & Hb1).
    cbn [mbind result_bind bind_flip bind].
    destruct (IH st1 Hlen1) as (c2 & st2 & -> & Hal2 & Hlen2 & Hb2).
    cbn [mbind result_bind bind_flip bind].
    eexists _, _. split; [reflexivity|]. split; [|split].
    + apply aligned_app; assumption.
    + exact Hlen2.
    + rewrite delivered_app, <- app_assoc, Hb2, app_assoc, Hb1.
      destruct ev; simpl; rewrite ?app_nil_r, <- ?app_assoc; reflexivity.
Qed.

End DaqAlignment.

(** C1: with a data unit d >= 1, the receive loop runs without raising on
    every sequence of receives; each buffer handed to [on_daq_data] has a
    length that is positive and a multiple of d; the bytes left over are
    fewer than d, are kept in [byte_array], and go in front of the bytes of
    the next receive, so that the bytes handed over followed by the bytes
    kept are exactly the bytes received. *)
Theorem daq_record_alignment (data_unit : Z) (evs : list DaqClient.select_result) :
  1 <= data_unit ->
  exists calls st,
    DaqClient.run_loop data_unit DaqClient.loop_start evs = Py.Ok (calls, st)
    /\ (forall byte_data, In (DaqClient.on_daq_data byte_data) calls ->
          0 < Py.len byte_data /\ Py.len byte_data mod data_unit = 0)
    /\ Py.len (DaqClient.byte_array st) < data_unit
    /\ DaqClient.delivered calls ++ DaqClient.byte_array st
       = DaqClient.received_bytes evs
    /\ (forall st0 received,
          Py.len (DaqClient.byte_array st0) < data_unit ->
          exists calls' st',
            DaqClient.on_readable data_unit st0 received = Py.Ok (calls', st')
            /\ DaqClient.delivered calls' ++ DaqClient.byte_array st'
               = DaqClient.byte_array st0 ++ received
            /\ Py.len (DaqClient.byte_array st') < data_unit).
Proof.
  intros Hd.
  destruct (run_loop_steps data_unit Hd evs DaqClient.loop_start)
    as (calls & st & Hrun & Hal & Hlen & Hbytes).
  { unfold Py.len. simpl. lia. }
  exists calls, st. split; [exact Hrun|]. split; [exact Hal|].
  split; [exact Hlen|]. split; [exact Hbytes|].
  intros st0 received _.
  destruct (on_readable_step data_unit Hd st0 received)
    as (calls' & st' & Hr & _ & Hlen' & Hb').
  exists calls', st'. auto.
Qed.

Lemma daq_record_alignment_witness :
  exists calls st,
    DaqClient.run_loop 8 DaqClient.loop_start
      [DaqClient.Readable [1; 2; 3; 4; 5; 6; 7; 8; 9; 10; 11];
       DaqClient.NotReadable;
       DaqClient.Readable [12; 13; 14; 15; 16; 17]] = Py.Ok (calls, st)
    /\ (forall byte_data, In (DaqClient.on_daq_data byte_data) calls ->
          0 < Py.len byte_data /\ Py.len byte_data mod 8 = 0)
    /\ Py.len (DaqClient.byte_array st) < 8
    /\ DaqClient.delivered calls ++ DaqClient.byte_array st
       = DaqClient.received_bytes
           [DaqClient.Readable [1; 2; 3; 4; 5; 6; 7; 8; 9; 10; 11];
            DaqClient.NotReadable;
            DaqClient.Readable [12; 13; 14; 15; 16; 17]]
    /\ (forall st0 received,
          Py.len (DaqClient.byte_array st0) < 8 ->
          exists calls' st',
            DaqClient.on_readable 8 st0 received = Py.Ok (calls', st')
            /\ DaqClient.delivered calls' ++ DaqClient.byte_array st'
               = DaqClient.byte_array st0 ++ received
            /\ Py.len (DaqClient.byte_array st') < 8).
Proof.
  apply (daq_record_alignment 8). lia.
Defined.

(** ** Line framing of a text session (sitcpy/cui.py) *)

Section LineFraming.
Import Py Cui.

Lemma first_occurrence_byte (x : Z) (l pre post : list Z) :
  l = pre ++ [x] ++ post ->
  (forall pre' post', l = pre' ++ [x] ++ post' -> (length pre <= length pre')%nat) ->
  ~ In x pre.
Proof.
  intros Hl Hmin Hin. apply in_split in Hin as (p1 & p2 & ->).
  specialize (Hmin p1 (p2 ++ [x] ++ post)).
  rewrite length_app in Hmin. simpl in Hmin.
  assert (length p1 + S (length p2) <= length p1)%nat; [|lia].
  apply Hmin. rewrite Hl, <- app_assoc. reflexivity.
Qed.

Lemma no_occurrence_byte (x : Z) (l : list Z) :
  (forall pre post, l <> pre ++ [x] ++ post) -> ~ In x l.
Proof.
  intros Hno Hin. apply in_split in Hin as (p1 & p2 & ->).
  exact (Hno p1 p2 eq_refl).
Qed.

Lemma cut_after_terminator (pre terminator post : list Z) :
  let pos := 0 + len pre + len terminator in
  (0 <=? pos) = true
  /\ slice None (Some pos) (pre ++ terminator ++ post) = pre ++ terminator
  /\ slice (Some pos) None (pre ++ terminator ++ post) = post.
Proof.
  intros pos.
  assert (pos = len (pre ++ terminator)) as Hpos
    by (unfold pos; rewrite len_app; lia).
  assert (0 <= pos <= len (pre ++ terminator ++ post)) as Hrange.
  { rewrite Hpos, app_assoc, (len_app (pre ++ terminator) post).
    pose proof (len_nonneg (pre ++ terminator)). pose proof (len_nonneg post). lia. }
  split; [apply Z.leb_le; lia|].
  rewrite slice_prefix, slice_suffix by exact Hrange.
  rewrite Hpos. unfold len. rewrite Nat2Z.id, app_assoc.
  split; [apply take_app_length | apply drop_app_length].
Qed.

(** The three searches of [find_delimiter_position], in the order the loop
    makes them. *)
Lemma find_delimiter_position_cases (self : TextHandler) (buf : list Z) :
  (exists terminator pre post,
      buf = pre ++ terminator ++ post
      /\ ((terminator = [CR; LF]
           /\ forall pre' post', buf = pre' ++ [CR; LF] ++ post' ->
                (length pre <= length pre')%nat)
          \/ (terminator = [LF]
              /\ (forall pre' post', buf <> pre' ++ [CR; LF] ++ post')
              /\ ~ In LF pre)
          \/ (terminator = [CR] /\ ~ In LF buf /\ ~ In CR pre))
      /\ find_delimiter_position self buf
         = (0 + len pre + len terminator, {| _linesep := terminator |}))
  \/ (~ In CR buf /\ ~ In LF buf /\ find_delimiter_position self buf = (-1, self)).
Proof.
  unfold find_delimiter_position. cbn [find_delimiter_loop]. unfold find.
  destruct (find_from_spec [CR; LF] buf 0)
    as [[Hf Hno] | (pre & post & Hl & Hf & Hmin)].
  - rewrite Hf. cbn [Z.leb Z.compare].
    destruct (find_from_spec [LF] buf 0)
      as [[Hf1 Hno1] | (pre & post & Hl & Hf1 & Hmin)].
    + rewrite Hf1. cbn [Z.leb Z.compare].
      destruct (find_from_spec [CR] buf 0)
        as [[Hf2 Hno2] | (pre & post & Hl & Hf2 & Hmin)].
      * rewrite Hf2. cbn [Z.leb Z.compare]. right.
        split; [exact (no_occurrence_byte CR buf Hno2)|].
        split; [exact (no_occurrence_byte LF buf Hno1) | reflexivity].
      * left. exists [CR], pre, post. split; [exact Hl|].
        split.
        -- right. right. split; [reflexivity|].
           split; [exact (no_occurrence_byte LF buf Hno1)|].
           exact (first_occurrence_byte CR buf pre post Hl Hmin).
        -- rewrite Hf2. pose proof (len_nonneg pre).
           destruct (Z.leb_spec 0 (0 + len pre)); [reflexivity | lia].
    + left. exists [LF], pre, post. split; [exact Hl|]. split.
      * right. left. split; [reflexivity|]. split; [exact Hno|].
        exact (first_occurrence_byte LF buf pre post Hl Hmin).
      * rewrite Hf1. pose proof (len_nonneg pre).
        destruct (Z.leb_spec 0 (0 + len pre)); [reflexivity | lia].
  - left. exists [CR; LF], pre, post. split; [exact Hl|]. split.
    + left. split; [reflexivity | exact Hmin].
    + rewrite Hf. pose proof (len_nonneg pre).
      destruct (Z.leb_spec 0 (0 + len pre)); [reflexivity | lia].
Qed.

(** C4 (as the code has it): the buffer (residual bytes followed by the
    bytes received) is cut just after the first CR LF when it holds one,
    otherwise just after the first LF, otherwise just after the first CR;
    the message handed to [on_data] is the part before the cut and ends with
    that terminator; the detected terminator becomes the line separator;
    when the session goes on, the bytes after the cut are the residual.
    Without any CR or LF nothing is handed over and the whole buffer is
    kept. *)
Theorem text_session_cuts_after_terminator
    (on_data : list Z -> bool) (self : SessionThread) (chunk : list Z) :
  chunk <> [] ->
  let buf := _rest_byte_data self ++ chunk in
  let res := on_recv on_data self chunk in
  (exists terminator pre post,
      buf = pre ++ terminator ++ post
      /\ ((terminator = [CR; LF]
           /\ forall pre' post', buf = pre' ++ [CR; LF] ++ post' ->
                (length pre <= length pre')%nat)
          \/ (terminator = [LF]
              /\ (forall pre' post', buf <> pre' ++ [CR; LF] ++ post')
              /\ ~ In LF pre)
          \/ (terminator = [CR] /\ ~ In LF buf /\ ~ In CR pre))
      /\ message res = Some (pre ++ terminator)
      /\ continue res = on_data (pre ++ terminator)
      /\ _linesep (_data_handler (session res)) = terminator
      /\ (continue res = true -> _rest_byte_data (session res) = post))
  \/ (~ In CR buf /\ ~ In LF buf /\ message res = None /\ continue res = true
      /\ _rest_byte_data (session res) = buf).
Proof.
  intros Hchunk buf res. subst res. unfold on_recv.
  destruct chunk as [|c chunk]; [congruence|].
  assert (match _rest_byte_data self with
          | [] => c :: chunk
          | _ :: _ => _rest_byte_data self ++ c :: chunk
          end = buf) as ->.
  { subst buf. destruct (_rest_byte_data self); reflexivity. }
  destruct (find_delimiter_position_cases (_data_handler self) buf)
    as [(terminator & pre & post & Hbuf & Hcase & ->) | (Hcr & Hlf & ->)].
  - left. exists terminator, pre, post.
    destruct (cut_after_terminator pre terminator post) as (Hpos & Hmsg & Hrest).
    cbv zeta in Hpos, Hmsg, Hrest. rewrite Hpos.
    clearbody buf. subst buf. rewrite Hmsg, Hrest.
    split; [reflexivity|]. split; [exact Hcase|].
    destruct (on_data (pre ++ terminator)); simpl; auto.
    repeat split; discriminate.
  - right. simpl. auto.
Qed.

Lemma text_session_cuts_after_terminator_witness :
  message (on_recv (fun _ => true)
             {| _data_handler := TextHandler__init__; _rest_byte_data := [97; 13] |}
             [98; 13; 10; 99])
  = Some [97; 13; 98; 13; 10].
Proof.
  destruct (text_session_cuts_after_terminator (fun _ => true)
              {| _data_handler := TextHandler__init__; _rest_byte_data := [97; 13] |}
              [98; 13; 10; 99] ltac:(discriminate)) as [H|H].
  - reflexivity.
  - exfalso. destruct H as (Hcr & _). apply Hcr. simpl. auto.
Defined.

(** C4 as stated fails on b"a\rb\r\nc": the message handed to [on_data] is
    b"a\rb\r\n", cut after the CR LF and including it, not b"a", and the
    residual is b"c". *)
Lemma text_session_skips_lone_cr :
  ~ (forall on_data self chunk pre post,
       chunk <> [] ->
       _rest_byte_data self ++ chunk = pre ++ [CR] ++ post ->
       ~ In CR pre -> ~ In LF pre ->
       message (on_recv on_data self chunk) = Some pre).
Proof.
  intros H.
  specialize (H (fun _ => true)
                {| _data_handler := TextHandler__init__; _rest_byte_data := [] |}
                [97; 13; 98; 13; 10; 99] [97] [98; 13; 10; 99]).
  vm_compute in H.
  assert (Some [97; 13; 98; 13; 10] = Some [97]) as Habs; [|discriminate].
  apply H; [discriminate | reflexivity | |]; intros [E|[]]; discriminate.
Qed.

End LineFraming.


(** ** Virtual registers (sitcpy/rbcp_server.py) *)

Section VirtualRegisters.
Import Py RbcpServer.

(** C7 fails on the code: [write_bytes] indexes the written data with
    [write_address - self._start_address] where the byte written at
    [write_address] is [data_bytes[write_address - address]].  On a register
    of 4 bytes at 0x10 with a write callback at 0x12, writing [1; 2; 3] at
    0x11 (which stores 2 at 0x12) calls the callback with the value 3, and
    writing [0xAA; 0xBB] at 0x12 raises IndexError and stores nothing. *)
Theorem write_callback_gets_wrong_byte :
  let self :=
    register_write_callback
      {| _memory := [0; 0; 0; 0]; _memory_type := Bytearray;
         _memory_size := 4; _start_address := 0x10;
         _read_callbacks := ∅; _write_callbacks := ∅ |}
      0x12 (Callable 1) in
  (exists self',
      write_bytes self 0x11 [1; 2; 3] = ([WriteCall (Callable 1) 0x12 3], Ok self')
      /\ _memory self' = [0; 1; 2; 3]
      /\ byte_at self' 0x12 = 2)
  /\ write_bytes self 0x12 [0xAA; 0xBB] = ([], Raise IndexError).
Proof.
  split; [eexists; split; [vm_compute; reflexivity | split; reflexivity]|].
  vm_compute. reflexivity.
Qed.

End VirtualRegisters.

(** ** The data generator (sitcpy/rbcp_server.py) *)

Section DataGeneratorRecords.
Import Py RbcpServer.

Lemma setitem_in_range (data : list Z) (i x : Z) :
  0 <= i < len data ->
  setitem data i x = Ok (<[Z.to_nat i := x]> data).
Proof.
  intros Hi. unfold setitem.
  destruct (Z.ltb_spec i 0); [lia|]. destruct (Z.ltb_spec i 0); [lia|].
  destruct (Z.leb_spec (len data) i); [lia|]. reflexivity.
Qed.

Lemma nth_insert_other (data : list Z) (i j : nat) (x : Z) :
  i <> j -> nth j (<[i := x]> data) 0 = nth j data 0.
Proof.
  intros Hne. rewrite !nth_lookup, list_lookup_insert_ne by exact Hne. reflexivity.
Qed.

Lemma store_count_bytes_below (count_bytes data : list Z) (index : Z) :
  0 <= index -> index + len count_bytes <= len data ->
  exists data',
    store_count_bytes data index count_bytes = Ok data'
    /\ length data' = length data
    /\ forall j, (Z.to_nat (index + len count_bytes) <= j)%nat ->
                 nth j data' 0 = nth j data 0.
Proof.
  revert data index. induction count_bytes as [|b count_bytes IH]; intros data index Hi Hfit.
  - exists data. auto.
  - cbn [store_count_bytes]. unfold len in Hfit. simpl length in Hfit.
    rewrite setitem_in_range by (unfold len; lia).
    cbn [mbind result_bind bind_flip bind].
    destruct (IH (<[Z.to_nat index := b]> data) (index + 1)) as (data' & -> & Hlen & Hrest);
      [lia | unfold len; rewrite length_insert; lia |].
    exists data'. split; [reflexivity|]. rewrite Hlen, length_insert.
    split; [reflexivity|]. intros j Hj.
    unfold len in Hj, Hrest. simpl length in Hj.
    rewrite Hrest by lia.
    apply nth_insert_other. lia.
Qed.

Lemma create_data_loop_below (iterations : nat) (count : Z) (data : list Z)
    (data_unit : Z) :
  0 <= count <= 0xfffffffe -> 0 <= data_unit ->
  8 * (data_unit + Z.of_nat iterations) <= len data ->
  exists data' count',
    create_data_loop 8 count data data_unit iterations = Ok (data', count')
    /\ length data' = length data
    /\ forall j, (Z.to_nat (8 * (data_unit + Z.of_nat iterations)) <= j)%nat ->
                 nth j data' 0 = nth j data 0.
Proof.
  revert count data data_unit.
  induction iterations as [|iterations IH]; intros count data data_unit Hc Hu Hfit.
  - exists data, count. auto.
  - cbn [create_data_loop]. unfold struct_pack_BE_L.
    destruct (Z.leb_spec 0 count); [|lia].
    destruct (Z.leb_spec count 0xffffffff); [|lia].
    cbn [andb mbind result_bind bind_flip bind].
    rewrite setitem_in_range by lia. cbn [mbind result_bind bind_flip bind].
    set (data1 := <[Z.to_nat (8 * data_unit) := 0xa5]> data).
    assert (length data1 = length data) as Hlen1 by apply length_insert.
    destruct (store_count_bytes_below
                [Z.land (Z.shiftr count 24) 0xff; Z.land (Z.shiftr count 16) 0xff;
                 Z.land (Z.shiftr count 8) 0xff; Z.land count 0xff]
                data1 (8 * data_unit + 4))
      as (data2 & -> & Hlen2 & Hrest2);
      [lia | unfold len in *; simpl length; lia |].
    cbn [mbind result_bind bind_flip bind].
    destruct (IH (if count + 1 =? 0xffffffff then 0 else count + 1) data2 (data_unit + 1))
      as (data' & count' & -> & Hlen' & Hrest');
      [destruct (Z.eqb_spec (count + 1) 0xffffffff); lia | lia
       | unfold len in *; lia |].
    exists data', count'. split; [reflexivity|].
    split; [lia|]. intros j Hj.
    rewrite Hrest' by lia. rewrite Hrest2 by (unfold len; simpl length; lia).
    apply nth_insert_other. lia.
Qed.

(** The last data-unit of every record of the default generator is left
    as [bytearray] made it: for every count of data-units n >= 1 the record
    has 8 n bytes and its last eight are zero. *)
Lemma create_data_last_unit_zero (self : DataGenerator) (data_unit_count : Z) :
  _data_unit self = 8 -> 0 <= _count self <= 0xfffffffe -> 1 <= data_unit_count ->
  exists data self',
    create_data self data_unit_count = Ok (data, self')
    /\ len data = 8 * data_unit_count
    /\ drop (Z.to_nat (8 * (data_unit_count - 1))) data = repeat 0 8.
Proof.
  intros Hunit Hcount Hn. unfold create_data, bytearray. rewrite Hunit.
  destruct (Z.ltb_spec (8 * data_unit_count) 0); [lia|].
  cbn [mbind result_bind bind_flip bind].
  set (zeros := repeat 0 (Z.to_nat (8 * data_unit_count))).
  assert (length zeros = Z.to_nat (8 * data_unit_count)) as Hz
    by apply repeat_length.
  destruct (create_data_loop_below (Z.to_nat (data_unit_count - 1 - 0))
              (_count self) zeros 0)
    as (data & count & -> & Hlen & Hrest);
    [lia | lia | unfold len; lia |].
  cbn [mbind result_bind bind_flip bind]. eexists _, _. split; [reflexivity|].
  split; [unfold len; lia|].
  apply (nth_ext _ _ 0 0).
  - rewrite length_drop, repeat_length. lia.
  - intros i Hi. rewrite length_drop in Hi. rewrite nth_skipn.
    rewrite Hrest by lia. unfold zeros. rewrite !nth_repeat. reflexivity.
Qed.


(** C8 fails on the code: the loop of [create_data] runs over
    [range(0, data_unit_count - 1)], one data-unit short.  [create_data(1)]
    returns eight zero bytes and leaves the counter alone; [create_data(3)]
    fills two data-units and leaves the third one zero. *)
Theorem create_data_skips_last_unit :
  create_data DataGenerator__init__ 1
  = Ok ([0; 0; 0; 0; 0; 0; 0; 0], DataGenerator__init__)
  /\ create_data DataGenerator__init__ 3
     = Ok ([0xa5; 0; 0; 0; 0; 0; 0; 0;
            0xa5; 0; 0; 0; 0; 0; 0; 1;
            0; 0; 0; 0; 0; 0; 0; 0],
           {| _data_unit := 8; _count := 2; _data_unit_count := 2 |}).
Proof. split; vm_compute; reflexivity. Qed.

End DataGeneratorRecords.

(** ** The register bank (sitcpy/rbcp_server.py) *)

Section RegisterBank.
Import Py RbcpServer.

Lemma check_address_range_iff (self : VirtualRegister) (address length_ : Z) :
  check_address_range self address length_ = true
  <-> _start_address self <= address
      /\ address + length_ <= _start_address self + _memory_size self.
Proof.
  unfold check_address_range.
  destruct (Z.leb_spec (_start_address self) address);
    destruct (Z.leb_spec (address + length_) (_start_address self + _memory_size self));
    split; intros; try discriminate; try reflexivity; lia.
Qed.

Lemma holds_check (self : VirtualRegister) (address : Z) :
  holds self address <-> check_address_range self address 1 = true.
Proof. rewrite check_address_range_iff. unfold holds. lia. Qed.

Lemma eff_bind_ret_l {A B : Type} (a : A) (k : A -> Eff B) :
  (mret a ≫= k) = k a.
Proof.
  unfold mret, mbind, Eff_ret, Eff_bind, eff_ret, eff_bind.
  destruct (k a) as [t res]. reflexivity.
Qed.

Lemma eff_bind_pure {A B : Type} (a : A) (k : A -> Eff B) :
  (([], Ok a) : Eff A) ≫= k = k a.
Proof. apply (eff_bind_ret_l a k). Qed.

Lemma write_callbacks_loop_empty (self : VirtualRegister) (data : list Z)
    (address : Z) (count : nat) :
  _write_callbacks self = ∅ ->
  write_callbacks_loop self data address count = ([], Ok tt).
Proof.
  intros Hcb. revert address. induction count as [|count IH]; intros address.
  - reflexivity.
  - simpl. rewrite Hcb, lookup_empty, eff_bind_ret_l. apply IH.
Qed.

Lemma nth_splice (mem data : list Z) (o i : nat) :
  (o + length data <= length mem)%nat ->
  nth i (take o mem ++ data ++ drop (o + length data) mem) 0
  = if decide (o <= i < o + length data)%nat then nth (i - o) data 0
    else nth i mem 0.
Proof.
  intros Hfit.
  assert (length (take o mem) = o) as Hto by (rewrite length_take; lia).
  destruct (decide (o <= i < o + length data)%nat) as [Hin|Hout].
  - rewrite app_nth2 by lia. rewrite Hto. rewrite app_nth1 by lia. reflexivity.
  - destruct (Nat.lt_ge_cases i o) as [Hlt|Hge].
    + rewrite app_nth1 by lia. rewrite nth_firstn.
      destruct (Nat.ltb_spec i o); [reflexivity | lia].
    + rewrite app_nth2 by lia. rewrite Hto. rewrite app_nth2 by lia.
      rewrite nth_skipn. f_equal. lia.
Qed.

Lemma length_splice (mem data : list Z) (o : nat) :
  (o + length data <= length mem)%nat ->
  length (take o mem ++ data ++ drop (o + length data) mem) = length mem.
Proof.
  intros Hfit. rewrite !length_app, length_take, length_drop. lia.
Qed.

Lemma slice_assign_in_range (mem data : list Z) (off : Z) :
  0 <= off -> off + len data <= len mem ->
  slice_assign off (off + len data) data mem
  = take (Z.to_nat off) mem ++ data ++ drop (Z.to_nat off + length data) mem.
Proof.
  intros Hoff Hfit. unfold slice_assign, clamp.
  pose proof (len_nonneg data) as Hd.
  destruct (Z.ltb_spec off 0); [lia|].
  destruct (Z.ltb_spec (off + len data) 0); [lia|].
  rewrite !Z.min_l by lia. rewrite Z.max_r by lia.
  do 3 f_equal. unfold len. lia.
Qed.

Lemma write_bytes_plain (self : VirtualRegister) (address : Z) (data : list Z) :
  _write_callbacks self = ∅ -> _memory_type self = Bytearray ->
  check_address_range self address (len data) = true ->
  write_bytes self address data
  = ([], Ok {| _memory := slice_assign (address - _start_address self)
                            (address - _start_address self + len data)
                            data (_memory self);
               _memory_type := Bytearray;
               _memory_size := _memory_size self;
               _start_address := _start_address self;
               _read_callbacks := _read_callbacks self;
               _write_callbacks := _write_callbacks self |}).
Proof.
  intros Hcb Htype Hrange. unfold write_bytes. rewrite Hrange, Htype.
  rewrite write_callbacks_loop_empty by exact Hcb.
  rewrite eff_bind_pure. reflexivity.
Qed.

(** A write that returns was made on a [bytearray]; on a [bytes] object the
    assignment raises [TypeError] after the callbacks have run. *)
Lemma write_bytes_returned (self self' : VirtualRegister) (address : Z)
    (data : list Z) (t : list event) :
  write_bytes self address data = (t, Ok self') ->
  _memory_type self = Bytearray
  /\ check_address_range self address (len data) = true
  /\ write_callbacks_loop self data address (Z.to_nat (len data)) = (t, Ok tt)
  /\ self' = {| _memory := slice_assign (address - _start_address self)
                             (address - _start_address self + len data)
                             data (_memory self);
                _memory_type := Bytearray;
                _memory_size := _memory_size self;
                _start_address := _start_address self;
                _read_callbacks := _read_callbacks self;
                _write_callbacks := _write_callbacks self |}.
Proof.
  unfold write_bytes.
  destruct (check_address_range self address (len data)); [|discriminate].
  destruct (write_callbacks_loop self data address (Z.to_nat (len data)))
    as [t0 [[]|e]]; unfold mbind, mret, Eff_bind, Eff_ret, eff_bind, eff_ret, eff_raise;
    [|discriminate].
  destruct (_memory_type self); [discriminate|].
  intros [= <- <-]. rewrite app_nil_r. auto.
Qed.

(** The registers the program builds are consistent, and stay so when
    written. *)
Lemma init_consistent (memory_size start_address : Z) (self : VirtualRegister) :
  __init__ memory_size start_address = Ok self -> consistent self.
Proof.
  unfold __init__, bytearray.
  destruct (Z.ltb_spec memory_size 0); [discriminate|].
  cbn [mbind result_bind bind_flip bind]. intros [= <-].
  unfold consistent, len. simpl. rewrite repeat_length. lia.
Qed.

Lemma create_consistent (start_address : Z) (initial_type : bytes_like)
    (initial_data : list Z) (self : VirtualRegister) :
  create start_address initial_type initial_data = Ok self -> consistent self.
Proof.
  unfold create. destruct (__init__ _ _) as [virtual_register|e]; [|discriminate].
  cbn [mbind result_bind bind_flip bind]. intros [= <-]. reflexivity.
Qed.

Lemma write_bytes_consistent (self self' : VirtualRegister) (address : Z)
    (data : list Z) (t : list event) :
  consistent self -> write_bytes self address data = (t, Ok self') ->
  consistent self'.
Proof.
  intros Hc Hwrite.
  destruct (write_bytes_returned self self' address data t Hwrite)
    as (_ & Hrange & _ & ->).
  apply check_address_range_iff in Hrange as [Hlo Hhi].
  unfold consistent in *. cbn [_memory _memory_size].
  rewrite slice_assign_in_range by lia.
  unfold len. rewrite length_splice; [exact Hc|].
  unfold len in *. lia.
Qed.

Lemma touching_union (s1 n1 s2 n2 a : Z) :
  0 <= n1 -> 0 <= n2 ->
  (s1 + n1 = s2 \/ s2 + n2 = s1
   \/ (s1 <= s2 /\ s2 < s1 + n1) \/ (s2 < s1 /\ s1 < s2 + n2)) ->
  (Z.min s1 s2 <= a < Z.max (s1 + n1) (s2 + n2)
   <-> (s1 <= a < s1 + n1) \/ (s2 <= a < s2 + n2)).
Proof. lia. Qed.

Lemma touching_cases (self register : VirtualRegister) :
  _is_neighbor self register || _is_intersect self register = true ->
  _start_address self + _memory_size self = _start_address register
  \/ _start_address register + _memory_size register = _start_address self
  \/ (_start_address self <= _start_address register
      /\ _start_address register < _start_address self + _memory_size self)
  \/ (_start_address register < _start_address self
      /\ _start_address self < _start_address register + _memory_size register).
Proof.
  unfold _is_neighbor, _is_intersect, get_register_info.
  destruct (Z.eqb_spec (_start_address self + _memory_size self)
              (_start_address register)); [auto|].
  destruct (Z.eqb_spec (_start_address register + _memory_size register)
              (_start_address self)); [auto|].
  destruct (Z.leb_spec (_start_address self) (_start_address register)).
  - destruct (Z.ltb_spec (_start_address register)
                (_start_address self + _memory_size self)); [auto | discriminate].
  - destruct (Z.ltb_spec (_start_address self)
                (_start_address register + _memory_size register));
      [auto | discriminate].
Qed.

(** What [merge] leaves in [self] when the two registers touch: the range
    is the union of the two ranges, the bytes of [register] are taken where
    it holds the address and the bytes of [self] elsewhere, the callbacks of
    [self] stay, and no callback is called. *)
Lemma merge_touching (self register : VirtualRegister) :
  consistent self -> consistent register ->
  _is_neighbor self register || _is_intersect self register = true ->
  exists self',
    merge self register = ([], Ok (true, self'))
    /\ consistent self'
    /\ _start_address self' = Z.min (_start_address self) (_start_address register)
    /\ _start_address self' + _memory_size self'
       = Z.max (_start_address self + _memory_size self)
               (_start_address register + _memory_size register)
    /\ _read_callbacks self' = _read_callbacks self
    /\ _write_callbacks self' = _write_callbacks self
    /\ (forall a, holds self' a <-> holds self a \/ holds register a)
    /\ (forall a, holds register a -> byte_at self' a = byte_at register a)
    /\ (forall a, holds self a -> ~ holds register a ->
                  byte_at self' a = byte_at self a).
Proof.
  intros Hc1 Hc2 Htouch.
  pose proof (touching_cases self register Htouch) as Hcases.
  unfold merge, get_register_info. rewrite Htouch.
  unfold consistent in Hc1, Hc2.
  pose proof (len_nonneg (_memory self)) as Hn1.
  pose proof (len_nonneg (_memory register)) as Hn2.
  set (s1 := _start_address self) in *. set (s2 := _start_address register) in *.
  set (start := Z.min s1 s2).
  set (size := Z.max (s1 + _memory_size self) (s2 + _memory_size register) - start).
  assert (0 <= size) as Hsize by (unfold size, start; lia).
  unfold __init__, bytearray, lift.
  destruct (Z.ltb_spec size 0) as [Hneg|_]; [lia|].
  cbn [mbind result_bind bind_flip bind]. rewrite eff_bind_pure.
  set (zeros := repeat 0 (Z.to_nat size)).
  assert (len zeros = size) as Hzeros
    by (unfold len, zeros; rewrite repeat_length; lia).
  rewrite write_bytes_plain;
    cbn [_write_callbacks _start_address _memory_size _memory _memory_type];
    [|reflexivity|reflexivity
     |apply check_address_range_iff; cbn; unfold size, start; lia].
  rewrite eff_bind_pure.
  rewrite write_bytes_plain;
    cbn [_write_callbacks _start_address _memory_size _memory _memory_type];
    [|reflexivity|reflexivity
     |apply check_address_range_iff; cbn; unfold size, start, get_memory; lia].
  rewrite eff_bind_pure. unfold get_memory. cbn [_memory].
  rewrite (slice_assign_in_range zeros) by (unfold start; lia).
  set (o1 := Z.to_nat (s1 - start)).
  set (mem1 := take o1 zeros ++ _memory self ++ drop (o1 + length (_memory self)) zeros).
  assert (o1 + length (_memory self) <= length zeros)%nat as Hfit1.
  { unfold o1. unfold len in *. unfold size, start in *. lia. }
  assert (length mem1 = length zeros) as Hlen1
    by (apply length_splice; exact Hfit1).
  rewrite (slice_assign_in_range mem1)
    by (unfold len in *; rewrite ?Hlen1; unfold size, start in *; lia).
  set (o2 := Z.to_nat (s2 - start)).
  set (mem2 := take o2 mem1 ++ _memory register
                 ++ drop (o2 + length (_memory register)) mem1).
  assert (o2 + length (_memory register) <= length mem1)%nat as Hfit2.
  { rewrite Hlen1. unfold o2. unfold len in *. unfold size, start in *. lia. }
  assert (length mem2 = length zeros) as Hlen2
    by (unfold mem2; rewrite length_splice by exact Hfit2; exact Hlen1).
  assert (len mem2 = size) as Hsize2 by (unfold len in *; lia).
  eexists. split; [reflexivity|].
  unfold consistent, holds, byte_at.
  cbn [_memory _memory_size _start_address _read_callbacks _write_callbacks].
  fold s1 s2. rewrite Hsize2.
  split; [reflexivity|]. split; [reflexivity|].
  split; [unfold size; lia|]. split; [reflexivity|]. split; [reflexivity|].
  assert (forall a, start <= a < start + size
                    <-> (s1 <= a < s1 + _memory_size self)
                        \/ (s2 <= a < s2 + _memory_size register)) as Hunion.
  { intros a. unfold size, start.
    rewrite <- (touching_union s1 (_memory_size self) s2 (_memory_size register) a)
      by lia. lia. }
  split; [exact Hunion|].
  split.
  - intros a Ha. unfold mem2. rewrite nth_splice by exact Hfit2.
    destruct (decide (o2 <= Z.to_nat (a - start) < o2 + length (_memory register))%nat)
      as [_|Hout].
    + f_equal. unfold o2, start. lia.
    + exfalso. apply Hout. unfold o2, start. unfold len in *. lia.
  - intros a Ha Hna. unfold mem2. rewrite nth_splice by exact Hfit2.
    destruct (decide (o2 <= Z.to_nat (a - start) < o2 + length (_memory register))%nat)
      as [Hin|_].
    + exfalso. apply Hna. unfold o2, start in Hin. unfold len in *. lia.
    + unfold mem1. rewrite nth_splice by exact Hfit1.
      destruct (decide (o1 <= Z.to_nat (a - start) < o1 + length (_memory self))%nat)
        as [_|Hout].
      * f_equal. unfold o1, start. lia.
      * exfalso. apply Hout. unfold o1, start. unfold len in *. lia.
Qed.

Lemma merge_apart (self register : VirtualRegister) :
  _is_neighbor self register || _is_intersect self register = false ->
  merge self register = ([], Ok (false, self)).
Proof. intros Hapart. unfold merge, get_register_info. rewrite Hapart. reflexivity. Qed.

(** One sweep of the inner loop: either [register1] touches no later
    register and nothing changes, or the first later register it touches is
    absorbed and removed. *)
Lemma merge_inner_cases (register1 : VirtualRegister) (later : list VirtualRegister) :
  consistent register1 -> Forall consistent later ->
  merge_inner register1 later = ([], Ok None)
  \/ exists register1' register2 before after,
       later = before ++ register2 :: after
       /\ merge_inner register1 later
          = ([], Ok (Some (register1', before ++ after)))
       /\ merge register1 register2 = ([], Ok (true, register1'))
       /\ _is_neighbor register1 register2 || _is_intersect register1 register2 = true.
Proof.
  intros Hc1 Hlater. induction Hlater as [|register2 later Hc2 Hlater IH].
  - left. reflexivity.
  - cbn [merge_inner].
    destruct (_is_neighbor register1 register2 || _is_intersect register1 register2)
      eqn:Htouch.
    + destruct (merge_touching register1 register2 Hc1 Hc2 Htouch)
        as (register1' & Hmerge & _).
      right. exists register1', register2, [], later.
      rewrite Hmerge, eff_bind_pure. auto.
    + rewrite (merge_apart _ _ Htouch), eff_bind_pure.
      destruct IH as [Hnone | (register1' & r2 & before & after & -> & Hsome & Hm & Ht)].
      * left. rewrite Hnone, eff_bind_pure. reflexivity.
      * right. exists register1', r2, (register2 :: before), after.
        rewrite Hsome, eff_bind_pure. auto.
Qed.

Lemma merge_inner_keeps (register1 register1' register2 : VirtualRegister)
    (before after : list VirtualRegister) :
  consistent register1 -> Forall consistent (before ++ register2 :: after) ->
  merge register1 register2 = ([], Ok (true, register1')) ->
  _is_neighbor register1 register2 || _is_intersect register1 register2 = true ->
  sweep_keeps (register1 :: before ++ register2 :: after)
              (register1' :: before ++ after).
Proof.
  intros Hc1 Hlater Hmerge Htouch.
  apply Forall_app in Hlater as [Hbefore Hafter].
  apply Forall_cons in Hafter as [Hc2 Hafter].
  destruct (merge_touching register1 register2 Hc1 Hc2 Htouch)
    as (r & Hr & Hcr & _ & _ & Hrcb & Hwcb & Hholds & Hsecond & Hfirst).
  rewrite Hr in Hmerge. injection Hmerge as <-.
  split; [|split; [|split; [|split]]].
  - apply Forall_cons. split; [exact Hcr|]. apply Forall_app. auto.
  - simpl. rewrite !length_app. simpl. lia.
  - intros a (x & Hx & Hxa). simpl in Hx. rewrite in_app_iff in Hx. simpl in Hx.
    destruct Hx as [<- | [Hx | [<- | Hx]]].
    + exists r. split; [left; reflexivity | apply Hholds; auto].
    + exists x. split; [right; apply in_app_iff; auto | exact Hxa].
    + exists r. split; [left; reflexivity | apply Hholds; auto].
    + exists x. split; [right; apply in_app_iff; auto | exact Hxa].
  - intros V a HV x Hx Hxa. simpl in Hx. rewrite in_app_iff in Hx.
    destruct Hx as [<- | Hx].
    + apply Hholds in Hxa as Hsplit.
      destruct (decide (holds register2 a)) as [H2|H2].
      * rewrite (Hsecond a H2). apply HV; [|exact H2].
        right. apply in_app_iff. right. left. reflexivity.
      * destruct Hsplit as [H1|H2']; [|contradiction].
        rewrite (Hfirst a H1 H2). apply HV; [left; reflexivity | exact H1].
    + apply HV; [|exact Hxa]. right. apply in_app_iff.
      destruct Hx as [Hx|Hx]; [left | right; right]; exact Hx.
  - rewrite !fmap_cons, !fmap_app, fmap_cons.
    replace (callbacks r) with (callbacks register1)
      by (unfold callbacks; rewrite Hrcb, Hwcb; reflexivity).
    apply sublist_skip. apply sublist_app; [reflexivity|].
    apply sublist_cons. reflexivity.
Qed.

Lemma sweep_keeps_cons (register1 : VirtualRegister)
    (later later' : list VirtualRegister) :
  consistent register1 -> sweep_keeps later later' ->
  sweep_keeps (register1 :: later) (register1 :: later').
Proof.
  intros Hc1 (Hc & Hlen & Hheld & Hstores & Hsub).
  split; [|split; [|split; [|split]]].
  - apply Forall_cons. auto.
  - simpl. lia.
  - intros a (x & [Hx|Hx] & Hxa).
    + exists x. split; [left; exact Hx | exact Hxa].
    + destruct (Hheld a) as (y & Hy & Hya); [exists x; auto|].
      exists y. split; [right; exact Hy | exact Hya].
  - intros V a HV x [<-|Hx] Hxa.
    + apply HV; [left; reflexivity | exact Hxa].
    + apply (Hstores V a); [|exact Hx|exact Hxa].
      intros y Hy Hya. apply HV; [right; exact Hy | exact Hya].
  - rewrite !fmap_cons. apply sublist_skip. exact Hsub.
Qed.

(** One sweep of the outer loop. *)
Lemma merge_outer_cases (registers : list VirtualRegister) :
  Forall consistent registers ->
  merge_outer registers = ([], Ok None)
  \/ exists registers',
       merge_outer registers = ([], Ok (Some registers'))
       /\ sweep_keeps registers registers'.
Proof.
  intros Hregs. induction Hregs as [|register1 later Hc1 Hlater IH].
  - left. reflexivity.
  - cbn [merge_outer].
    destruct (merge_inner_cases register1 later Hc1 Hlater)
      as [Hnone | (register1' & register2 & before & after & -> & Hsome & Hm & Ht)].
    + rewrite Hnone, eff_bind_pure.
      destruct IH as [Hnone' | (later' & Hsome' & Hkeeps)].
      * left. rewrite Hnone', eff_bind_pure. reflexivity.
      * right. exists (register1 :: later').
        rewrite Hsome', eff_bind_pure. split; [reflexivity|].
        apply sweep_keeps_cons; assumption.
    + right. exists (register1' :: before ++ after).
      rewrite Hsome, eff_bind_pure. split; [reflexivity|].
      apply merge_inner_keeps; assumption.
Qed.

Lemma merge_registers_rec_settled (depth : nat) (registers : list VirtualRegister) :
  settled registers -> merge_registers_rec depth registers = ([], Ok registers).
Proof.
  intros [Hshort|Hnone]; destruct depth; cbn [merge_registers_rec].
  1,2: destruct (Z.leb_spec (len registers) 1); [reflexivity | lia].
  1,2: destruct (len registers <=? 1); [reflexivity|];
       rewrite Hnone, eff_bind_pure; reflexivity.
Qed.


(** With any recursion depth: the call returns the settled bank, or the
    bank needs more nested calls than the depth allows and the call raises
    [RecursionError]. *)
Lemma merge_registers_rec_cases (depth : nat) (registers : list VirtualRegister) :
  Forall consistent registers ->
  (exists merged,
      merge_registers_rec depth registers = ([], Ok merged)
      /\ settled merged
      /\ Forall consistent merged
      /\ (forall a, held registers a -> held merged a)
      /\ (forall V a, stores_only V registers a -> stores_only V merged a)
      /\ sublist (callbacks <$> merged) (callbacks <$> registers))
  \/ (merge_registers_rec depth registers = ([], Raise RecursionError)
      /\ (S depth < length registers)%nat).
Proof.
  revert registers. induction depth as [|depth IH]; intros registers Hc.
  all: destruct (Z.leb_spec (len registers) 1) as [Hshort|Hlong];
    [left; exists registers;
     rewrite merge_registers_rec_settled by (left; exact Hshort);
     repeat split; auto; left; exact Hshort|].
  all: destruct (merge_outer_cases registers Hc)
    as [Hnone | (registers' & Hsome & Hc' & Hlen' & Hheld & Hstores & Hsub)];
    [left; exists registers;
     rewrite merge_registers_rec_settled by (right; exact Hnone);
     repeat split; auto; right; exact Hnone|].
  all: cbn [merge_registers_rec];
    destruct (Z.leb_spec (len registers) 1); [lia|];
    rewrite Hsome, eff_bind_pure.
  - right. split; [reflexivity|]. unfold len in Hlong. lia.
  - destruct (IH registers' Hc')
      as [(merged & Hrec & Hset & Hcm & Hheld' & Hstores' & Hsub') | [Hrec Hdeep]].
    + left. exists merged. rewrite Hrec. repeat split; auto.
      etransitivity; eassumption.
    + right. rewrite Hrec. split; [reflexivity | lia].
Qed.



Lemma slice_one (mem : list Z) (o : Z) :
  0 <= o ->
  slice (Some o) (Some (o + 1)) mem
  = if o <? len mem then [nth (Z.to_nat o) mem 0] else [].
Proof.
  intros Ho. destruct (Z.ltb_spec o (len mem)) as [Hlt|Hge].
  - rewrite slice_range by lia. replace (o + 1 - o) with 1 by lia.
    destruct (lookup_lt_is_Some_2 mem (Z.to_nat o)) as [x Hx];
      [unfold len in Hlt; lia|].
    rewrite (drop_S _ _ _ Hx). rewrite (nth_lookup_Some _ _ 0 _ Hx). reflexivity.
  - unfold slice, clamp.
    destruct (Z.ltb_spec o 0); [lia|]. destruct (Z.ltb_spec (o + 1) 0); [lia|].
    rewrite !Z.min_r by lia. rewrite Z.sub_diag. reflexivity.
Qed.

Lemma read_callbacks_loop_calls (self : VirtualRegister) (address : Z) (count : nat) :
  exists t,
    read_callbacks_loop self address count = (t, Ok tt)
    /\ forall cb a, In (ReadCall cb a) t -> _read_callbacks self !! a = Some cb.
Proof.
  revert address. induction count as [|count IH]; intros address.
  - exists []. split; [reflexivity | intros cb a []].
  - cbn [read_callbacks_loop].
    destruct (IH (address + 1)) as (t & Ht & Hcalls).
    destruct (_read_callbacks self !! address) as [cb0|] eqn:Hcb.
    + exists (ReadCall cb0 address :: t). split.
      * unfold call_read, mbind, Eff_bind, eff_bind. rewrite Ht. reflexivity.
      * intros cb a [Hev|Hin]; [injection Hev as <- <-; exact Hcb | eauto].
    + exists t. rewrite eff_bind_ret_l. auto.
Qed.

Lemma write_callbacks_loop_calls (self : VirtualRegister) (data : list Z)
    (address : Z) (count : nat) :
  forall cb a v,
    In (WriteCall cb a v) (fst (write_callbacks_loop self data address count)) ->
    _write_callbacks self !! a = Some cb.
Proof.
  revert address. induction count as [|count IH]; intros address cb a v.
  - intros [].
  - cbn [write_callbacks_loop].
    destruct (_write_callbacks self !! address) as [cb0|] eqn:Hcb.
    + unfold lift, call_write, mbind, Eff_bind, eff_bind.
      destruct (getitem data (address - _start_address self)) as [value|e].
      * specialize (IH (address + 1) cb a v).
        destruct (write_callbacks_loop self data (address + 1) count) as [t res].
        simpl in *. intros [Hev|Hin]; [injection Hev as <- <- <-; exact Hcb | auto].
      * intros [].
    + rewrite eff_bind_ret_l. apply IH.
Qed.

Lemma read_bytes_calls (self : VirtualRegister) (address byte_length : Z) :
  forall cb a, In (ReadCall cb a) (fst (read_bytes self address byte_length)) ->
               _read_callbacks self !! a = Some cb.
Proof.
  unfold read_bytes. destruct (check_address_range self address byte_length).
  - destruct (read_callbacks_loop_calls self address (Z.to_nat byte_length))
      as (t & -> & Hcalls).
    unfold mbind, mret, Eff_bind, Eff_ret, eff_bind, eff_ret. simpl.
    intros cb a Hin. rewrite app_nil_r in Hin. eauto.
  - intros cb a [].
Qed.

Lemma write_bytes_calls (self : VirtualRegister) (address : Z) (data : list Z) :
  forall cb a v, In (WriteCall cb a v) (fst (write_bytes self address data)) ->
                 _write_callbacks self !! a = Some cb.
Proof.
  unfold write_bytes. destruct (check_address_range self address (len data)).
  - pose proof (write_callbacks_loop_calls self data address (Z.to_nat (len data)))
      as Hcalls.
    destruct (write_callbacks_loop self data address (Z.to_nat (len data)))
      as [t [[]|e]]; destruct (_memory_type self);
      unfold mbind, mret, Eff_bind, Eff_ret, eff_bind, eff_ret, eff_raise;
      simpl in *; intros cb a v Hin; rewrite ?app_nil_r in Hin; eauto.
  - intros cb a v [].
Qed.

Lemma read_bytes_one (self : VirtualRegister) (address : Z) :
  holds self address ->
  snd (read_bytes self address 1)
  = Ok (if address - _start_address self <? len (_memory self)
        then [byte_at self address] else []).
Proof.
  intros Hholds. unfold read_bytes.
  rewrite (proj1 (holds_check self address) Hholds).
  destruct (read_callbacks_loop_calls self address (Z.to_nat 1)) as (t & -> & _).
  unfold mbind, mret, Eff_bind, Eff_ret, eff_bind, eff_ret. simpl.
  rewrite slice_one by (unfold holds in Hholds; lia). reflexivity.
Qed.

Lemma read_bytes_misses (self : VirtualRegister) (address : Z) :
  ~ holds self address ->
  read_bytes self address 1
  = ([], Raise (VirtualRegisterOutOfRange (ReadBytesError address 1))).
Proof.
  intros Hmiss. unfold read_bytes.
  destruct (check_address_range self address 1) eqn:E; [|reflexivity].
  exfalso. apply Hmiss. apply holds_check. exact E.
Qed.

Lemma read_byte_cons (register : VirtualRegister) (registers : list VirtualRegister)
    (address : Z) :
  read_byte (register :: registers) address
  = if decide (holds register address) then
      if address - _start_address register <? len (_memory register)
      then Some (byte_at register address) else None
    else read_byte registers address.
Proof.
  unfold read_byte. cbn [read_registers].
  destruct (decide (holds register address)) as [Hh|Hm].
  - pose proof (read_bytes_one register address Hh) as Hone.
    destruct (read_bytes register address 1) as [t res]. simpl in Hone. subst res.
    unfold try_out_of_range. simpl.
    destruct (address - _start_address register <? len (_memory register));
      reflexivity.
  - rewrite (read_bytes_misses register address Hm). unfold try_out_of_range.
    destruct (read_registers registers address 1) as [t res]. reflexivity.
Qed.

Lemma read_byte_source (registers : list VirtualRegister) (address v : Z) :
  read_byte registers address = Some v ->
  exists register, In register registers /\ holds register address
                   /\ byte_at register address = v.
Proof.
  induction registers as [|register registers IH].
  - discriminate.
  - rewrite read_byte_cons. destruct (decide (holds register address)) as [Hh|Hm].
    + destruct (address - _start_address register <? len (_memory register));
        [|discriminate].
      intros [= <-]. exists register. split; [left; reflexivity | auto].
    + intros Hv. destruct (IH Hv) as (x & Hx & Hxa & Hxv).
      exists x. split; [right; exact Hx | auto].
Qed.

Lemma read_byte_found (registers : list VirtualRegister) (address : Z) :
  Forall consistent registers -> held registers address ->
  exists register, In register registers /\ holds register address
                   /\ read_byte registers address = Some (byte_at register address).
Proof.
  intros Hc. induction Hc as [|register registers Hc1 Hc IH].
  - intros (x & [] & _).
  - intros (x & Hx & Hxa). rewrite read_byte_cons.
    destruct (decide (holds register address)) as [Hh|Hm].
    + exists register. split; [left; reflexivity|]. split; [exact Hh|].
      unfold holds, consistent in *.
      destruct (Z.ltb_spec (address - _start_address register) (len (_memory register)));
        [reflexivity | lia].
    + destruct Hx as [<-|Hx]; [contradiction|].
      destruct IH as (y & Hy & Hya & Hread); [exists x; auto|].
      exists y. split; [right; exact Hy | auto].
Qed.





(** The recursion of [merge_registers] at its limit: three registers in a
    row need two nested calls.  With none allowed the method raises
    [RecursionError] after its first merge and leaves two registers; with
    one allowed it raises after the second merge and leaves the single
    register; with two it returns the single register. *)
Example merge_registers_at_recursion_limit :
  let registers :=
    [ {| _memory := [1]; _memory_type := Bytearray; _memory_size := 1;
         _start_address := 0;
         _read_callbacks := ∅; _write_callbacks := ∅ |};
      {| _memory := [2]; _memory_type := Bytearray; _memory_size := 1;
         _start_address := 1;
         _read_callbacks := ∅; _write_callbacks := ∅ |};
      {| _memory := [3]; _memory_type := Bytearray; _memory_size := 1;
         _start_address := 2;
         _read_callbacks := ∅; _write_callbacks := ∅ |} ] in
  merge_registers 0 registers = ([], Raise RecursionError)
  /\ merge_registers_bank 0 registers
     = [ {| _memory := [1; 2]; _memory_type := Bytearray;
            _memory_size := 2; _start_address := 0;
            _read_callbacks := ∅; _write_callbacks := ∅ |};
         {| _memory := [3]; _memory_type := Bytearray; _memory_size := 1;
            _start_address := 2;
            _read_callbacks := ∅; _write_callbacks := ∅ |} ]
  /\ merge_registers 1 registers = ([], Raise RecursionError)
  /\ merge_registers_bank 1 registers
     = [ {| _memory := [1; 2; 3]; _memory_type := Bytearray;
            _memory_size := 3; _start_address := 0;
            _read_callbacks := ∅; _write_callbacks := ∅ |} ]
  /\ merge_registers 2 registers
     = ([], Ok [ {| _memory := [1; 2; 3]; _memory_type := Bytearray;
                    _memory_size := 3; _start_address := 0;
                    _read_callbacks := ∅; _write_callbacks := ∅ |} ]).
Proof. repeat split; vm_compute; reflexivity. Qed.

Lemma write_bytes_without_callbacks (self : VirtualRegister) (address : Z)
    (data : list Z) :
  _write_callbacks self = ∅ ->
  (exists e, write_bytes self address data = ([], Raise e))
  \/ (exists self', write_bytes self address data = ([], Ok self')
                    /\ _write_callbacks self' = ∅).
Proof.
  intros Hempty. unfold write_bytes.
  destruct (check_address_range self address (len data)).
  - rewrite write_callbacks_loop_empty by exact Hempty.
    rewrite eff_bind_pure. destruct (_memory_type self).
    + left. eexists. reflexivity.
    + right. eexists. split; [reflexivity | exact Hempty].
  - left. eexists. reflexivity.
Qed.

(** C10: when [merge] absorbs a register it calls no callback, and [self]
    keeps its own read and write callback maps; every callback that a later
    [read_bytes] or [write_bytes] on [self] calls for an address is the one
    [self] had registered there before the merge, so a callback of the
    absorbed register is never called on its account.  A sweep of
    [merge_registers] that merges two registers leaves a list one register
    shorter, whose callback maps are those of the registers that stay. *)
Theorem merge_discards_absorbed_callbacks
    (self register self' : VirtualRegister) (t : list event) :
  merge self register = (t, Ok (true, self')) ->
  t = []
  /\ _read_callbacks self' = _read_callbacks self
  /\ _write_callbacks self' = _write_callbacks self
  /\ (forall address byte_length cb a,
        In (ReadCall cb a) (fst (read_bytes self' address byte_length)) ->
        _read_callbacks self !! a = Some cb)
  /\ (forall address data cb a v,
        In (WriteCall cb a v) (fst (write_bytes self' address data)) ->
        _write_callbacks self !! a = Some cb)
  /\ (forall registers registers',
        Forall consistent registers ->
        snd (merge_outer registers) = Ok (Some registers') ->
        length registers = S (length registers')
        /\ sublist (callbacks <$> registers') (callbacks <$> registers)).
Proof.
  intros Hmerge.
  assert (t = [] /\ _read_callbacks self' = _read_callbacks self
          /\ _write_callbacks self' = _write_callbacks self) as (Ht & Hr & Hw).
  { revert Hmerge. unfold merge, get_register_info.
    destruct (_is_neighbor self register || _is_intersect self register);
      [|intros [= _ Hfalse]; discriminate].
    unfold __init__, lift.
    destruct (bytearray _) as [memory|e];
      cbn [mbind result_bind bind_flip bind]; [|intros [= _ Hbad]; discriminate].
    rewrite eff_bind_pure.
    match goal with |- context [write_bytes ?m (_start_address self) ?d] =>
      destruct (write_bytes_without_callbacks m (_start_address self) d eq_refl)
        as [[e ->] | (merged1 & -> & Hempty1)]
    end; [intros [= _ Hbad]; discriminate|].
    rewrite eff_bind_pure.
    destruct (write_bytes_without_callbacks merged1 (_start_address register)
                (get_memory register) Hempty1)
      as [[e ->] | (merged2 & -> & _)]; [intros [= _ Hbad]; discriminate|].
    rewrite eff_bind_pure. intros [= <- <-]. auto. }
  subst t. split; [reflexivity|]. split; [exact Hr|]. split; [exact Hw|].
  split; [|split].
  - intros address n cb a Hin. rewrite <- Hr. exact (read_bytes_calls _ _ _ _ _ Hin).
  - intros address data cb a v Hin. rewrite <- Hw.
    exact (write_bytes_calls _ _ _ _ _ _ Hin).
  - intros registers registers' Hc Houter.
    destruct (merge_outer_cases registers Hc)
      as [Hnone | (registers'' & Hsome & _ & Hlen & _ & _ & Hsub)];
      [rewrite Hnone in Houter; discriminate|].
    rewrite Hsome in Houter. injection Houter as <-. auto.
Qed.

Lemma merge_discards_absorbed_callbacks_witness :
  let self :=
    {| _memory := [1; 1]; _memory_type := Bytearray;
       _memory_size := 2; _start_address := 0;
       _read_callbacks := {[ 0 := Callable 1 ]};
       _write_callbacks := {[ 1 := Callable 2 ]} |} in
  let register :=
    {| _memory := [2; 2]; _memory_type := Bytearray;
       _memory_size := 2; _start_address := 2;
       _read_callbacks := {[ 2 := Callable 3 ]};
       _write_callbacks := {[ 3 := Callable 4 ]} |} in
  let self' :=
    {| _memory := [1; 1; 2; 2]; _memory_type := Bytearray;
       _memory_size := 4; _start_address := 0;
       _read_callbacks := {[ 0 := Callable 1 ]};
       _write_callbacks := {[ 1 := Callable 2 ]} |} in
  fst (read_bytes self' 0 4) = [ReadCall (Callable 1) 0]
  /\ forall cb a, In (ReadCall cb a) (fst (read_bytes self' 0 4)) ->
                  _read_callbacks self !! a = Some cb.
Proof.
  intros self register self'. split; [vm_compute; reflexivity|].
  destruct (merge_discards_absorbed_callbacks self register self' []
              ltac:(vm_compute; reflexivity)) as (_ & _ & _ & Hread & _).
  exact (Hread 0 4).
Defined.

End RegisterBank.

(** ** The datagram loop of the RBCP server (sitcpy/rbcp_server.py) *)

Section ServerReplies.
Import Py RbcpServer.

Lemma byte_high_bits (b n : Z) : 0 <= b <= 255 -> 8 <= n -> Z.testbit b n = false.
Proof.
  intros Hb Hn. destruct (Z.eq_dec b 0) as [->|Hnz]; [apply Z.testbit_0_l|].
  apply Z.bits_above_log2; [lia|].
  assert (Z.log2 b < 8); [|lia]. apply Z.log2_lt_pow2; lia.
Qed.

Lemma address_bytes_roundtrip (a3 a2 a1 a0 : Z) :
  0 <= a3 <= 255 -> 0 <= a2 <= 255 -> 0 <= a1 <= 255 -> 0 <= a0 <= 255 ->
  let address :=
    Z.lor (Z.shiftl a3 24) (Z.lor (Z.shiftl a2 16) (Z.lor (Z.shiftl a1 8) a0)) in
  Z.land (Z.shiftr (Z.land address 0xff000000) 24) 0xff = a3
  /\ Z.land (Z.shiftr (Z.land address 0x00ff0000) 16) 0xff = a2
  /\ Z.land (Z.shiftr (Z.land address 0x0000ff00) 8) 0xff = a1
  /\ Z.land (Z.shiftr (Z.land address 0x000000ff) 0) 0xff = a0.
Proof.
  intros H3 H2 H1 H0 address. subst address.
  repeat split; apply Z.bits_inj'; intros n Hn;
    (destruct (Z.lt_ge_cases n 8) as [Hlt|Hge];
     [ assert (n = 0 \/ n = 1 \/ n = 2 \/ n = 3 \/ n = 4 \/ n = 5 \/ n = 6 \/ n = 7)
         as Hcases by lia;
       repeat first [ rewrite Z.land_spec | rewrite Z.shiftr_spec by lia
                    | rewrite Z.lor_spec | rewrite Z.shiftl_spec by lia ];
       destruct Hcases as [->|[->|[->|[->|[->|[->|[->| ->]]]]]]]; cbn -[Z.testbit];
       rewrite ?(byte_high_bits a3), ?(byte_high_bits a2), ?(byte_high_bits a1),
         ?(byte_high_bits a0), ?Z.testbit_neg_r by lia;
       cbn; rewrite ?orb_false_r, ?andb_true_r; reflexivity
     | rewrite Z.land_spec, (byte_high_bits 0xff n) by lia;
       rewrite andb_false_r; symmetry; apply byte_high_bits; lia ]).
Qed.

Lemma read_registers_outcome (registers : list VirtualRegister) (address length_ : Z) :
  (exists data, snd (read_registers registers address length_) = Ok data)
  \/ (exists m, snd (read_registers registers address length_)
                = Raise (VirtualRegisterOutOfRange m)).
Proof.
  induction registers as [|register registers IH]; cbn [read_registers].
  - right. eexists. reflexivity.
  - unfold read_bytes. destruct (check_address_range register address length_).
    + destruct (read_callbacks_loop_calls register address (Z.to_nat length_))
        as (t & -> & _).
      left. eexists. reflexivity.
    + unfold eff_raise, try_out_of_range.
      destruct (read_registers registers address length_) as [t res]. exact IH.
Qed.

Lemma write_callbacks_loop_outcome (self : VirtualRegister) (data : list Z)
    (address : Z) (count : nat) :
  snd (write_callbacks_loop self data address count) = Ok tt
  \/ snd (write_callbacks_loop self data address count) = Raise IndexError.
Proof.
  revert address. induction count as [|count IH]; intros address.
  - left. reflexivity.
  - cbn [write_callbacks_loop]. specialize (IH (address + 1)).
    destruct (_write_callbacks self !! address) as [cb|].
    + unfold lift, call_write, mbind, Eff_bind, eff_bind, getitem.
      destruct (_ || _); [right; reflexivity|].
      destruct (write_callbacks_loop self data (address + 1) count) as [t res].
      exact IH.
    + rewrite eff_bind_ret_l. exact IH.
Qed.

Lemma write_registers_outcome (registers : list VirtualRegister) (address : Z)
    (data : list Z) :
  (exists written, snd (write_registers registers address data) = Ok written)
  \/ (exists m, snd (write_registers registers address data)
                = Raise (VirtualRegisterOutOfRange m))
  \/ snd (write_registers registers address data) = Raise IndexError
  \/ snd (write_registers registers address data) = Raise TypeError.
Proof.
  induction registers as [|register registers IH]; cbn [write_registers].
  - right. left. eexists. reflexivity.
  - unfold write_bytes, read_bytes.
    cbn [_start_address _memory_size _memory _read_callbacks _write_callbacks].
    destruct (check_address_range register address (len data)) eqn:Hrange.
    + destruct (write_callbacks_loop_outcome register data address (Z.to_nat (len data)))
        as [Hok|Hbad];
        destruct (write_callbacks_loop register data address (Z.to_nat (len data)))
          as [t res]; simpl in Hok || simpl in Hbad; subst res.
      * destruct (_memory_type register); [right; right; right; reflexivity|].
        unfold mbind, mret, Eff_bind, Eff_ret, eff_bind, eff_ret.
        replace (check_address_range _ address (len data)) with true
          by (symmetry; exact Hrange).
        match goal with |- context [read_callbacks_loop ?s ?a ?n] =>
          destruct (read_callbacks_loop_calls s a n) as (t' & -> & _)
        end.
        left. eexists. reflexivity.
      * right. right. left. reflexivity.
    + unfold eff_raise, try_out_of_range, mbind, mret, Eff_bind, Eff_ret, eff_bind, eff_ret.
      destruct (write_registers registers address data) as [t [[d regs]|e]];
        simpl in IH |- *.
      * left. eexists. reflexivity.
      * exact IH.
Qed.

Lemma server_header (rw : read_write) (command_type packet_id length_ a3 a2 a1 a0 : Z) :
  command_type = match rw with
                 | r => 0xc8 | w => 0x88 | re => 0xc9 | we => 0x89 | other => 0
                 end ->
  0 <= packet_id <= 255 -> 0 <= length_ <= 255 ->
  0 <= a3 <= 255 -> 0 <= a2 <= 255 -> 0 <= a1 <= 255 -> 0 <= a0 <= 255 ->
  _make_header rw packet_id
    (Z.lor (Z.shiftl a3 24) (Z.lor (Z.shiftl a2 16) (Z.lor (Z.shiftl a1 8) a0)))
    length_
  = Ok [0xff; command_type; packet_id; length_; a3; a2; a1; a0].
Proof.
  intros -> Hid Hlen H3 H2 H1 H0. unfold _make_header.
  destruct (address_bytes_roundtrip a3 a2 a1 a0 H3 H2 H1 H0) as (-> & -> & -> & ->).
  unfold struct_pack_8B.
  assert (forall b, 0 <= b <= 255 -> is_byte b = true) as Hbyte.
  { intros b Hb. unfold is_byte. apply andb_true_iff. split; apply Z.leb_le; lia. }
  cbn [forallb]. rewrite !Hbyte by (destruct rw; lia). reflexivity.
Qed.

Lemma request_fields (command id_ length_ a3 a2 a1 a0 : Z) (payload : list Z) :
  let rbcp_msg := 0xff :: command :: id_ :: length_ :: a3 :: a2 :: a1 :: a0 :: payload in
  (len rbcp_msg <? 8) = false
  /\ getitem rbcp_msg 0 = Ok 0xff
  /\ getitem rbcp_msg 1 = Ok command
  /\ getitem rbcp_msg 2 = Ok id_
  /\ getitem rbcp_msg 3 = Ok length_
  /\ slice (Some 4) (Some 8) rbcp_msg = [a3; a2; a1; a0]
  /\ slice (Some 8) None rbcp_msg = payload.
Proof.
  intros rbcp_msg.
  assert (len rbcp_msg = 8 + len payload) as Hlen
    by (unfold len, rbcp_msg; simpl length; lia).
  pose proof (len_nonneg payload) as Hp.
  split; [destruct (Z.ltb_spec (len rbcp_msg) 8); [lia | reflexivity]|].
  split; [exact (getitem_lookup rbcp_msg 0 _ eq_refl)|].
  split; [exact (getitem_lookup rbcp_msg 1 _ eq_refl)|].
  split; [exact (getitem_lookup rbcp_msg 2 _ eq_refl)|].
  split; [exact (getitem_lookup rbcp_msg 3 _ eq_refl)|].
  split.
  - rewrite slice_range by lia. reflexivity.
  - rewrite slice_suffix by lia. reflexivity.
Qed.

Lemma server_header_overflow (rw : read_write) (packet_id length_ a3 a2 a1 a0 : Z) :
  0 <= packet_id <= 255 -> 255 < length_ ->
  _make_header rw packet_id
    (Z.lor (Z.shiftl a3 24) (Z.lor (Z.shiftl a2 16) (Z.lor (Z.shiftl a1 8) a0)))
    length_
  = Raise StructError.
Proof.
  intros Hid Hlen. unfold _make_header, struct_pack_8B.
  assert (is_byte packet_id = true) as Hbyte
    by (unfold is_byte; apply andb_true_iff; split; apply Z.leb_le; lia).
  assert (is_byte length_ = false) as Hover
    by (unfold is_byte; apply andb_false_iff; right; apply Z.leb_gt; lia).
  cbn [forallb]. rewrite Hbyte, Hover. destruct rw; reflexivity.
Qed.

Lemma server_eta (self : RbcpServer) :
  {| _registers := _registers self;
     _error_short_message := _error_short_message self |} = self.
Proof. destruct self. reflexivity. Qed.

(** What the loop does with a read request, by the outcome of
    [read_registers]: the bus-error header packs the number of payload
    bytes, which [struct.pack] refuses above 255. *)
Lemma on_datagram_read (self : RbcpServer) (id_ length_ a3 a2 a1 a0 : Z)
    (payload : list Z) :
  0 <= id_ <= 255 -> 0 <= length_ <= 255 ->
  0 <= a3 <= 255 -> 0 <= a2 <= 255 -> 0 <= a1 <= 255 -> 0 <= a0 <= 255 ->
  let address :=
    Z.lor (Z.shiftl a3 24) (Z.lor (Z.shiftl a2 16) (Z.lor (Z.shiftl a1 8) a0)) in
  snd (on_datagram self
         (0xff :: 0xc0 :: id_ :: length_ :: a3 :: a2 :: a1 :: a0 :: payload))
  = match snd (read_registers (_registers self) address length_) with
    | Ok data =>
        Ok (Some ([0xff; 0xc8; id_; length_; a3; a2; a1; a0] ++ data), self)
    | Raise (VirtualRegisterOutOfRange _) =>
        if len payload <=? 255 then
          Ok (Some ([0xff; 0xc9; id_; len payload; a3; a2; a1; a0] ++ payload), self)
        else Raise StructError
    | Raise e => Raise e
    end.
Proof.
  intros Hid Hlen H3 H2 H1 H0 address.
  destruct (request_fields 0xc0 id_ length_ a3 a2 a1 a0 payload)
    as (Hshort & G0 & G1 & G2 & G3 & Haddr & Hdata).
  cbv zeta in Hshort, G0, G1, G2, G3, Haddr, Hdata.
  pose proof (len_nonneg payload) as Hp.
  unfold on_datagram. rewrite Hshort, G0, G1, G2, G3, Haddr, Hdata.
  unfold lift. rewrite !eff_bind_pure.
  cbn [negb Z.eqb Pos.eqb andb struct_unpack_BE_I].
  rewrite !eff_bind_pure. fold address.
  unfold address.
  rewrite (server_header r 0xc8 id_ length_ a3 a2 a1 a0) by (auto; lia).
  destruct (Z.leb_spec (len payload) 255) as [Hpay|Hpay];
    [rewrite (server_header re 0xc9 id_ (len payload) a3 a2 a1 a0) by (auto; lia)
    |rewrite (server_header_overflow re id_ (len payload) a3 a2 a1 a0) by (auto; lia)].
  all: fold address;
    destruct (read_registers_outcome (_registers self) address length_)
      as [[data Hread] | [m Hread]];
    destruct (read_registers (_registers self) address length_) as [t res];
    simpl in Hread; subst res;
    unfold try_out_of_range, mbind, mret, Eff_bind, Eff_ret, eff_bind, eff_ret;
    reflexivity.
Qed.

(** What the loop does with a write request, by the outcome of
    [write_registers]. *)
Lemma on_datagram_write (self : RbcpServer) (id_ length_ a3 a2 a1 a0 : Z)
    (payload : list Z) :
  0 <= id_ <= 255 -> 0 <= length_ <= 255 ->
  0 <= a3 <= 255 -> 0 <= a2 <= 255 -> 0 <= a1 <= 255 -> 0 <= a0 <= 255 ->
  let address :=
    Z.lor (Z.shiftl a3 24) (Z.lor (Z.shiftl a2 16) (Z.lor (Z.shiftl a1 8) a0)) in
  snd (on_datagram self
         (0xff :: 0x80 :: id_ :: length_ :: a3 :: a2 :: a1 :: a0 :: payload))
  = match snd (write_registers (_registers self) address
                 (slice (Some 0) (Some length_) payload)) with
    | Ok (_, registers') =>
        Ok (Some ([0xff; 0x88; id_; length_; a3; a2; a1; a0] ++ payload),
            {| _registers := registers';
               _error_short_message := _error_short_message self |})
    | Raise (VirtualRegisterOutOfRange _) =>
        if len payload <=? 255 then
          Ok (Some ([0xff; 0x89; id_; len payload; a3; a2; a1; a0] ++ payload), self)
        else Raise StructError
    | Raise e => Raise e
    end.
Proof.
  intros Hid Hlen H3 H2 H1 H0 address.
  destruct (request_fields 0x80 id_ length_ a3 a2 a1 a0 payload)
    as (Hshort & G0 & G1 & G2 & G3 & Haddr & Hdata).
  cbv zeta in Hshort, G0, G1, G2, G3, Haddr, Hdata.
  pose proof (len_nonneg payload) as Hp.
  unfold on_datagram. rewrite Hshort, G0, G1, G2, G3, Haddr, Hdata.
  unfold lift. rewrite !eff_bind_pure.
  cbn [negb Z.eqb Pos.eqb andb struct_unpack_BE_I].
  rewrite !eff_bind_pure. fold address.
  unfold address.
  rewrite (server_header w 0x88 id_ length_ a3 a2 a1 a0) by (auto; lia).
  destruct (Z.leb_spec (len payload) 255) as [Hpay|Hpay];
    [rewrite (server_header we 0x89 id_ (len payload) a3 a2 a1 a0) by (auto; lia)
    |rewrite (server_header_overflow we id_ (len payload) a3 a2 a1 a0) by (auto; lia)].
  all: fold address;
    destruct (write_registers_outcome (_registers self) address
                (slice (Some 0) (Some length_) payload))
      as [[written Hwrite] | [[m Hwrite] | [Hwrite | Hwrite]]];
    destruct (write_registers (_registers self) address
                (slice (Some 0) (Some length_) payload)) as [t res];
    simpl in Hwrite; subst res;
    unfold try_out_of_range, mbind, mret, Eff_bind, Eff_ret, eff_bind, eff_ret;
    simpl; try (destruct written as [read_data registers']);
    rewrite ?server_eta; reflexivity.
Qed.

(** C6 (as the code has it): a well-formed request is answered with one
    reply, or the loop raises.  A reply repeats the id and the four address
    bytes of the request.  When the register access succeeds the command is
    0xC8 or 0x88 and the length byte is that of the request, whatever the
    payload; when it raises OutOfRange the command is 0xC9 or 0x89, the
    length byte is the number of payload bytes of the request, which is then
    at most 255, and the payload of the reply is that payload.  The loop
    raises, and sends nothing, when the access raises OutOfRange with more
    than 255 payload bytes ([struct.pack] refuses the length), and when a
    write raises [IndexError] in a write callback or [TypeError] on a
    register whose memory is a [bytes] object. *)
Theorem reply_echoes_id_and_address
    (self : RbcpServer) (command id_ length_ a3 a2 a1 a0 : Z) (payload : list Z) :
  command = 0xc0 \/ command = 0x80 ->
  0 <= id_ <= 255 -> 0 <= length_ <= 255 ->
  0 <= a3 <= 255 -> 0 <= a2 <= 255 -> 0 <= a1 <= 255 -> 0 <= a0 <= 255 ->
  let rbcp_msg := 0xff :: command :: id_ :: length_ :: a3 :: a2 :: a1 :: a0 :: payload in
  let address :=
    Z.lor (Z.shiftl a3 24) (Z.lor (Z.shiftl a2 16) (Z.lor (Z.shiftl a1 8) a0)) in
  let read := snd (read_registers (_registers self) address length_) in
  let write :=
    snd (write_registers (_registers self) address
           (slice (Some 0) (Some length_) payload)) in
  match snd (on_datagram self rbcp_msg) with
  | Ok (Some reply, _) =>
      exists reply_command reply_length reply_payload,
        reply = 0xff :: reply_command :: id_ :: reply_length
                  :: a3 :: a2 :: a1 :: a0 :: reply_payload
        /\ ((command = 0xc0 /\ reply_command = 0xc8 /\ reply_length = length_
             /\ read = Ok reply_payload)
            \/ (command = 0x80 /\ reply_command = 0x88 /\ reply_length = length_
                /\ reply_payload = payload /\ is_ok write = true)
            \/ (command = 0xc0 /\ reply_command = 0xc9
                /\ reply_length = len payload /\ len payload <= 255
                /\ reply_payload = payload
                /\ exists m, read = Raise (VirtualRegisterOutOfRange m))
            \/ (command = 0x80 /\ reply_command = 0x89
                /\ reply_length = len payload /\ len payload <= 255
                /\ reply_payload = payload
                /\ exists m, write = Raise (VirtualRegisterOutOfRange m)))
  | Ok (None, _) => False
  | Raise e =>
      (e = StructError /\ 255 < len payload
       /\ exists m, (command = 0xc0 /\ read = Raise (VirtualRegisterOutOfRange m))
                    \/ (command = 0x80
                        /\ write = Raise (VirtualRegisterOutOfRange m)))
      \/ (command = 0x80 /\ (e = IndexError \/ e = TypeError) /\ write = Raise e)
  end.
Proof.
  intros Hcmd Hid Hlen H3 H2 H1 H0 rbcp_msg address read write.
  subst rbcp_msg read write. destruct Hcmd as [-> | ->].
  - (* read *)
    rewrite (on_datagram_read self id_ length_ a3 a2 a1 a0 payload) by assumption.
    fold address.
    destruct (read_registers_outcome (_registers self) address length_)
      as [[data Hread] | [m Hread]]; rewrite Hread.
    + eexists _, _, _. split; [reflexivity|]. left. auto.
    + destruct (Z.leb_spec (len payload) 255) as [Hpay|Hpay].
      * eexists _, _, _. split; [reflexivity|]. right. right. left.
        repeat split; eauto.
      * left. split; [reflexivity|]. split; [exact Hpay|]. exists m. left. auto.
  - (* write *)
    rewrite (on_datagram_write self id_ length_ a3 a2 a1 a0 payload) by assumption.
    fold address.
    destruct (write_registers_outcome (_registers self) address
                (slice (Some 0) (Some length_) payload))
      as [[[read_data registers'] Hwrite] | [[m Hwrite] | [Hwrite | Hwrite]]];
      rewrite Hwrite.
    + eexists _, _, _. split; [reflexivity|]. right. left. auto.
    + destruct (Z.leb_spec (len payload) 255) as [Hpay|Hpay].
      * eexists _, _, _. split; [reflexivity|]. right. right. right.
        repeat split; eauto.
      * left. split; [reflexivity|]. split; [exact Hpay|]. exists m. right. auto.
    + right. auto.
    + right. auto.
Qed.

Lemma reply_echoes_id_and_address_witness :
  match snd (on_datagram
               {| _registers :=
                    [ {| _memory := [1; 2; 3; 4]; _memory_type := Bytearray;
                         _memory_size := 4; _start_address := 0;
                         _read_callbacks := ∅; _write_callbacks := ∅ |} ];
                  _error_short_message := 0 |}
               [0xff; 0xc0; 5; 4; 0; 0; 0; 0xfe]) with
  | Ok (Some reply, _) => reply !! 2%nat = Some 5 /\ drop 4 reply = [0; 0; 0; 0xfe]
  | _ => False
  end.
Proof.
  pose proof (reply_echoes_id_and_address
                {| _registers :=
                     [ {| _memory := [1; 2; 3; 4]; _memory_type := Bytearray;
                          _memory_size := 4; _start_address := 0;
                          _read_callbacks := ∅; _write_callbacks := ∅ |} ];
                   _error_short_message := 0 |}
                0xc0 5 4 0 0 0 0xfe []
                ltac:(left; reflexivity) ltac:(lia) ltac:(lia) ltac:(lia)
                ltac:(lia) ltac:(lia) ltac:(lia)) as H.
  cbv zeta in H.
  destruct (snd (on_datagram _ _)) as [[[reply|] self']|e].
  - destruct H as (reply_command & reply_length & reply_payload & -> & H).
    split; [reflexivity|]. simpl.
    destruct H as [(_ & _ & _ & Hr) | [(Hc & _)
                   | [(_ & _ & _ & _ & -> & _) | (Hc & _)]]];
      first [discriminate | reflexivity].
  - exact H.
  - destruct H as [(_ & Hlong & _) | (Hc & _)];
      [unfold len in Hlong; simpl in Hlong; lia | discriminate].
Defined.

(** C6 as stated fails: a server with only the reserved region answers the
    read request of 4 bytes at 0xFE with the bus-error reply whose length
    byte is 0, the number of payload bytes of the request, not 4. *)
Lemma bus_error_reply_length_not_echoed :
  let request := [0xff; 0xc0; 5; 4; 0; 0; 0; 0xfe] in
  let reply := [0xff; 0xc9; 5; 0; 0; 0; 0; 0xfe] in
  (self ← RbcpServer__init__;
   answer ← snd (on_datagram self request);
   Ok (fst answer)) = Ok (Some reply)
  /\ reply !! 3%nat <> request !! 3%nat.
Proof. split; [vm_compute; reflexivity | discriminate]. Qed.

End ServerReplies.

(** ** The forward-only state (sitcpy/__init__.py) *)

Section ForwardOnlyState.
Import State.















(** A thread waits for RUNNING without a timeout while another goes through
    STARTING and RUNNING; a second thread polls for STOPPED with a timeout
    of 5 ticks and gives up after it. *)
Example wait_until_running :
  let s :=
    run (start THREAD_NOT_STARTED 100)
      [CallWait 1 THREAD_RUNNING None; Pass 1;
       CallTransit THREAD_STARTING; Wake 1; Pass 1;
       CallWait 2 THREAD_STOPPED (Some 5); Pass 2;
       CallTransit THREAD_RUNNING; CallTransit THREAD_STARTING;
       Wake 1; Pass 1; Wake 2; Pass 2; Tick 6; Wake 2; Pass 2] in
  _state (shared s) = THREAD_RUNNING
  /\ at_ <$> waits s !! 1%nat = Some (Returned true)
  /\ at_ <$> waits s !! 2%nat = Some (Returned false).
Proof. vm_compute. auto. Qed.

End ForwardOnlyState.

(** * Further properties of the code *)

(** ** Reading and writing one register *)

Section RegisterAccess.
Import Py RbcpServer.

Lemma read_callbacks_loop_trace (self : VirtualRegister) (count : nat) (address : Z) :
  read_callbacks_loop self address count
  = (omap (λ a, (λ cb, ReadCall cb a) <$> _read_callbacks self !! a)
       (seqZ address (Z.of_nat count)),
     Ok tt).
Proof.
  revert address. induction count as [|count IH]; intros address.
  - reflexivity.
  - cbn [read_callbacks_loop].
    rewrite seqZ_cons by lia.
    replace (Z.pred (Z.of_nat (S count))) with (Z.of_nat count) by lia.
    unfold Z.succ. rewrite IH. cbn [omap list_omap].
    destruct (_read_callbacks self !! address) as [cb|];
      cbn [fmap option_fmap option_map]; reflexivity.
Qed.

Lemma read_bytes_trace (self : VirtualRegister) (address byte_length : Z) :
  (check_address_range self address byte_length = true ->
   fst (read_bytes self address byte_length)
   = omap (λ a, (λ cb, ReadCall cb a) <$> _read_callbacks self !! a)
       (seqZ address byte_length)
   /\ exists data,
        snd (read_bytes self address byte_length) = Ok data
        /\ (consistent self -> 0 <= byte_length -> len data = byte_length))
  /\ (check_address_range self address byte_length = false ->
      read_bytes self address byte_length
      = ([], Raise (VirtualRegisterOutOfRange
                      (ReadBytesError address byte_length)))).
Proof.
  unfold read_bytes. split; intros Hrange; rewrite Hrange; [|reflexivity].
  rewrite read_callbacks_loop_trace.
  unfold mbind, mret, Eff_bind, Eff_ret, eff_bind, eff_ret. cbn [fst snd].
  rewrite app_nil_r. split.
  - destruct (Z.le_gt_cases 0 byte_length).
    + rewrite Z2Nat.id by lia. reflexivity.
    + replace (Z.to_nat byte_length) with 0%nat by lia.
      rewrite (seqZ_nil address byte_length) by lia. reflexivity.
  - eexists. split; [reflexivity|]. intros Hc Hn.
    apply check_address_range_iff in Hrange as [Hlo Hhi].
    unfold consistent in Hc.
    rewrite slice_range by lia.
    unfold len. rewrite length_take, length_drop. unfold len in *. lia.
Qed.

(** X1: a read inside the register calls the read callback of every address
    of the range that has one, once each and in ascending address order,
    and no other; it returns [byte_length] bytes when the register is
    consistent.  A read that does not fit raises
    [VirtualRegisterOutOfRange] before any callback is called. *)
Theorem read_bytes_calls_in_order (self : VirtualRegister) (address byte_length : Z) :
  (check_address_range self address byte_length = true ->
   fst (read_bytes self address byte_length)
   = omap (λ a, (λ cb, ReadCall cb a) <$> _read_callbacks self !! a)
       (seqZ address byte_length)
   /\ exists data,
        snd (read_bytes self address byte_length) = Ok data
        /\ (consistent self -> 0 <= byte_length -> len data = byte_length))
  /\ (check_address_range self address byte_length = false ->
      read_bytes self address byte_length
      = ([], Raise (VirtualRegisterOutOfRange
                      (ReadBytesError address byte_length)))).
Proof. exact (read_bytes_trace self address byte_length). Qed.

Lemma read_bytes_calls_in_order_witness :
  fst (read_bytes
         {| _memory := [7; 8; 9; 10]; _memory_type := Bytearray;
            _memory_size := 4; _start_address := 0x20;
            _read_callbacks := {[ 0x22 := Callable 2; 0x21 := Callable 1;
                                  0x23 := Callable 3 ]};
            _write_callbacks := ∅ |} 0x20 3)
  = [ReadCall (Callable 1) 0x21; ReadCall (Callable 2) 0x22].
Proof.
  match goal with |- fst (read_bytes ?r _ _) = _ =>
    destruct (proj1 (read_bytes_calls_in_order r 0x20 3) eq_refl) as [Hcalls _]
  end.
  rewrite Hcalls. vm_compute. reflexivity.
Defined.

Lemma slice_of_splice (mem data : list Z) (o : Z) :
  0 <= o -> o + len data <= len mem ->
  slice (Some o) (Some (o + len data))
    (take (Z.to_nat o) mem ++ data ++ drop (Z.to_nat o + length data) mem)
  = data.
Proof.
  intros Ho Hfit. pose proof (len_nonneg data) as Hd.
  assert (length (take (Z.to_nat o) mem) = Z.to_nat o) as Hto
    by (rewrite length_take; unfold len in *; lia).
  rewrite slice_range;
    [|lia|lia|unfold len; rewrite length_splice; unfold len in *; lia].
  replace (o + len data - o) with (len data) by lia.
  rewrite <- Hto at 1. rewrite drop_app_length.
  unfold len. rewrite Nat2Z.id. apply take_app_length.
Qed.

Lemma write_bytes_read_back (self self' : VirtualRegister) (address : Z)
    (data : list Z) (t : list event) :
  consistent self ->
  write_bytes self address data = (t, Ok self') ->
  snd (read_bytes self' address (len data)) = Ok data
  /\ consistent self'
  /\ _start_address self' = _start_address self
  /\ _memory_size self' = _memory_size self
  /\ callbacks self' = callbacks self
  /\ (forall a, holds self a -> ~ (address <= a < address + len data) ->
                byte_at self' a = byte_at self a).
Proof.
  intros Hc Hwrite.
  pose proof (write_bytes_consistent self self' address data t Hc Hwrite) as Hc'.
  destruct (write_bytes_returned self self' address data t Hwrite)
    as (_ & Hrange & _ & Hself').
  rewrite Hself' in Hc' |- *. clear Hself' Hwrite.
  pose proof Hrange as Hrange'.
  apply check_address_range_iff in Hrange' as [Hlo Hhi].
  unfold consistent in Hc. pose proof (len_nonneg data) as Hd.
  split; [|split; [exact Hc'|]].
  - unfold read_bytes. cbn [_start_address _memory_size _memory _read_callbacks].
    replace (check_address_range _ address (len data)) with true
      by (symmetry; exact Hrange).
    rewrite read_callbacks_loop_trace.
    unfold mbind, mret, Eff_bind, Eff_ret, eff_bind, eff_ret. cbn [snd].
    rewrite slice_assign_in_range by lia.
    rewrite slice_of_splice by lia. reflexivity.
  - repeat split. intros a Ha Hout. unfold byte_at, holds in *.
    cbn [_start_address _memory].
    rewrite slice_assign_in_range by lia.
    rewrite nth_splice by (unfold len in *; lia).
    destruct (decide (_ <= _ < _)%nat) as [Hin|_]; [|reflexivity].
    exfalso. apply Hout. unfold len in *. lia.
Qed.

(** X2: after a write that succeeds on a consistent register, reading the
    same range returns the bytes written; the register stays consistent,
    keeps its start, size and callbacks, and every byte outside the range
    written is unchanged. *)
Theorem write_then_read_bytes (self self' : VirtualRegister) (address : Z)
    (data : list Z) (t : list event) :
  consistent self ->
  write_bytes self address data = (t, Ok self') ->
  snd (read_bytes self' address (len data)) = Ok data
  /\ consistent self'
  /\ _start_address self' = _start_address self
  /\ _memory_size self' = _memory_size self
  /\ callbacks self' = callbacks self
  /\ (forall a, holds self a -> ~ (address <= a < address + len data) ->
                byte_at self' a = byte_at self a).
Proof. exact (write_bytes_read_back self self' address data t). Qed.

Lemma write_then_read_bytes_witness :
  snd (read_bytes
         {| _memory := [1; 0xAA; 0xBB; 4]; _memory_type := Bytearray;
            _memory_size := 4; _start_address := 0x10;
            _read_callbacks := ∅; _write_callbacks := ∅ |}
         0x11 (len [0xAA; 0xBB]))
  = Ok [0xAA; 0xBB].
Proof.
  exact (proj1 (write_then_read_bytes
                  {| _memory := [1; 2; 3; 4]; _memory_type := Bytearray;
                     _memory_size := 4;
                     _start_address := 0x10;
                     _read_callbacks := ∅; _write_callbacks := ∅ |}
                  _ 0x11 [0xAA; 0xBB] [] eq_refl eq_refl)).
Defined.

(** X3: registering a callback for an address outside the register changes
    nothing; for an address inside, the callback replaces the one
    registered there, the callbacks of the other addresses and the memory
    stay, and a one-byte read at the address calls exactly the new
    callback. *)
Theorem register_read_callback_inside_only (self : VirtualRegister) (address : Z)
    (read_callback : callable) :
  (~ holds self address ->
   register_read_callback self address read_callback = self)
  /\ (holds self address ->
      let self' := register_read_callback self address read_callback in
      _read_callbacks self' !! address = Some read_callback
      /\ (forall a, a <> address ->
            _read_callbacks self' !! a = _read_callbacks self !! a)
      /\ _write_callbacks self' = _write_callbacks self
      /\ _memory self' = _memory self
      /\ fst (read_bytes self' address 1) = [ReadCall read_callback address]).
Proof.
  unfold register_read_callback. split; intros Hh.
  - destruct (check_address_range self address 1) eqn:E; [|reflexivity].
    exfalso. apply Hh. apply holds_check. exact E.
  - apply holds_check in Hh as Hrange. rewrite Hrange. cbv zeta.
    cbn [_read_callbacks _write_callbacks _memory].
    split; [apply lookup_insert_eq|].
    split; [intros a Ha; apply lookup_insert_ne; congruence|].
    split; [reflexivity|]. split; [reflexivity|].
    unfold read_bytes. cbn [_start_address _memory_size _read_callbacks _memory].
    replace (check_address_range _ address 1) with true by (symmetry; exact Hrange).
    rewrite read_callbacks_loop_trace.
    unfold mbind, mret, Eff_bind, Eff_ret, eff_bind, eff_ret. cbn [fst].
    rewrite app_nil_r. unfold seqZ. simpl. rewrite lookup_insert_eq. reflexivity.
Qed.

Lemma register_read_callback_inside_only_witness :
  register_read_callback
    {| _memory := [1; 2]; _memory_type := Bytearray;
       _memory_size := 2; _start_address := 4;
       _read_callbacks := ∅; _write_callbacks := ∅ |} 6 (Callable 9)
  = {| _memory := [1; 2]; _memory_type := Bytearray;
       _memory_size := 2; _start_address := 4;
       _read_callbacks := ∅; _write_callbacks := ∅ |}.
Proof.
  apply (proj1 (register_read_callback_inside_only _ 6 (Callable 9))).
  unfold holds. simpl. lia.
Defined.

End RegisterAccess.

(** ** The register bank, continued *)

Section RegisterBankAccess.
Import Py RbcpServer.

Lemma write_bytes_misses (self : VirtualRegister) (address : Z) (data : list Z) :
  check_address_range self address (len data) = false ->
  write_bytes self address data
  = ([], Raise (VirtualRegisterOutOfRange (ReadBytesError address (len data)))).
Proof. intros Hmiss. unfold write_bytes. rewrite Hmiss. reflexivity. Qed.

(** A write whose range lies in a register backed by a [bytes] object, and
    in no register before it, raises: [IndexError] in a write callback, or
    [TypeError] at the assignment. *)
Lemma write_registers_on_bytes (before after : list VirtualRegister)
    (register : VirtualRegister) (address : Z) (data : list Z) :
  Forall (λ x, check_address_range x address (len data) = false) before ->
  check_address_range register address (len data) = true ->
  _memory_type register = Bytes ->
  snd (write_registers (before ++ register :: after) address data) = Raise IndexError
  \/ snd (write_registers (before ++ register :: after) address data)
     = Raise TypeError.
Proof.
  intros Hbefore Hrange Htype. induction Hbefore as [|x before Hx _ IH].
  - cbn [app write_registers]. unfold write_bytes. rewrite Hrange, Htype.
    destruct (write_callbacks_loop_outcome register data address
                (Z.to_nat (len data))) as [Hok|Hbad];
      destruct (write_callbacks_loop register data address (Z.to_nat (len data)))
        as [t res]; simpl in Hok || simpl in Hbad; subst res;
      [right | left]; reflexivity.
  - cbn [app write_registers]. rewrite (write_bytes_misses _ _ _ Hx).
    unfold try_out_of_range, mbind, mret, Eff_bind, Eff_ret, eff_bind, eff_ret.
    destruct (write_registers (before ++ register :: after) address data)
      as [t [[d regs]|e]]; simpl in IH |- *;
      [destruct IH; discriminate | exact IH].
Qed.

Lemma read_registers_first (before after : list VirtualRegister)
    (register : VirtualRegister) (address length_ : Z) :
  Forall (λ x, check_address_range x address length_ = false) before ->
  check_address_range register address length_ = true ->
  snd (read_registers (before ++ register :: after) address length_)
  = snd (read_bytes register address length_).
Proof.
  intros Hbefore Hrange. induction Hbefore as [|x before Hx Hbefore IH].
  - cbn [app read_registers].
    destruct (proj1 (read_bytes_trace register address length_) Hrange)
      as (_ & data & Hdata).
    destruct (read_bytes register address length_) as [t res].
    simpl in Hdata. destruct Hdata as [-> _]. reflexivity.
  - cbn [app read_registers].
    rewrite (proj2 (read_bytes_trace x address length_) Hx).
    unfold try_out_of_range.
    destruct (read_registers (before ++ register :: after) address length_)
      as [t res]. exact IH.
Qed.

Lemma write_registers_read_back (registers registers' : list VirtualRegister)
    (address : Z) (write_data read_data : list Z) (t : list event) :
  Forall consistent registers ->
  write_registers registers address write_data = (t, Ok (read_data, registers')) ->
  read_data = write_data
  /\ Forall consistent registers'
  /\ (exists before register register' after t',
        registers = before ++ register :: after
        /\ registers' = before ++ register' :: after
        /\ Forall (λ x, check_address_range x address (len write_data) = false)
             before
        /\ write_bytes register address write_data = (t', Ok register'))
  /\ snd (read_registers registers' address (len write_data)) = Ok write_data.
Proof.
  intros Hc. revert registers' t.
  induction Hc as [|register registers Hc1 Hc IH]; intros registers' t.
  - intros [=].
  - cbn [write_registers].
    destruct (check_address_range register address (len write_data)) eqn:Hrange.
    + destruct (write_bytes register address write_data) as [t1 [register1|e]] eqn:Hw.
      * destruct (write_bytes_read_back register register1 address write_data t1 Hc1 Hw)
          as (Hread & Hc1' & Hstart & Hsize & _ & _).
        cbv beta iota zeta delta
          [try_out_of_range mbind mret Eff_bind Eff_ret eff_bind eff_ret].
        destruct (read_bytes register1 address (len write_data)) as [t2 res] eqn:Hr.
        simpl in Hread. subst res. intros [= _ <- <-].
        split; [reflexivity|]. split; [apply Forall_cons; auto|].
        split.
        -- exists [], register, register1, registers, t1. auto.
        -- rewrite (read_registers_first [] registers register1);
             [rewrite Hr; reflexivity | constructor |].
           unfold check_address_range in *. rewrite Hstart, Hsize. exact Hrange.
      * unfold try_out_of_range, mbind, Eff_bind, eff_bind.
        destruct e; try discriminate.
        unfold write_bytes in Hw. rewrite Hrange in Hw.
        destruct (write_callbacks_loop_outcome register write_data address
                    (Z.to_nat (len write_data))) as [Hok|Hbad];
          destruct (write_callbacks_loop register write_data address
                      (Z.to_nat (len write_data))) as [t0 res];
          simpl in Hok || simpl in Hbad; subst res;
          destruct (_memory_type register);
          unfold mbind, mret, Eff_bind, Eff_ret, eff_bind, eff_ret, eff_raise in Hw;
          discriminate.
    + rewrite (write_bytes_misses _ _ _ Hrange).
      unfold try_out_of_range, mbind, mret, Eff_bind, Eff_ret, eff_bind, eff_ret.
      destruct (write_registers registers address write_data)
        as [t1 [[d regs1]|e]] eqn:Hrest; [|discriminate].
      simpl. intros [= _ <- <-].
      destruct (IH regs1 t1 eq_refl)
        as (Hd & Hc' & (before & x & x' & after & t' & -> & -> & Hbefore & Hw) & Hread).
      split; [exact Hd|]. split; [apply Forall_cons; auto|]. split.
      * exists (register :: before), x, x', after, t'. repeat split; auto.
      * cbn [read_registers].
        rewrite (proj2 (read_bytes_trace register address (len write_data))
                   Hrange).
        unfold try_out_of_range.
        destruct (read_registers (before ++ x' :: after) address (len write_data))
          as [t2 res]. exact Hread.
Qed.

(** X4: when [write_registers] succeeds on a bank of consistent registers, the
    data read back is the data written; exactly one register changes, the
    first one the range fits in, and it stays consistent; and a
    [read_registers] of the same range on the bank afterwards returns the
    data written. *)
Theorem write_registers_reads_back (registers registers' : list VirtualRegister)
    (address : Z) (write_data read_data : list Z) (t : list event) :
  Forall consistent registers ->
  write_registers registers address write_data = (t, Ok (read_data, registers')) ->
  read_data = write_data
  /\ Forall consistent registers'
  /\ (exists before register register' after t',
        registers = before ++ register :: after
        /\ registers' = before ++ register' :: after
        /\ Forall (λ x, check_address_range x address (len write_data) = false)
             before
        /\ write_bytes register address write_data = (t', Ok register'))
  /\ snd (read_registers registers' address (len write_data)) = Ok write_data.
Proof.
  exact (write_registers_read_back registers registers' address write_data read_data t).
Qed.

Lemma write_registers_reads_back_witness :
  snd (read_registers
         [ {| _memory := [0; 0]; _memory_type := Bytearray;
              _memory_size := 2; _start_address := 0;
              _read_callbacks := ∅; _write_callbacks := ∅ |};
           {| _memory := [0; 5; 6; 0]; _memory_type := Bytearray;
              _memory_size := 4; _start_address := 8;
              _read_callbacks := ∅; _write_callbacks := ∅ |} ]
         9 (len [5; 6]))
  = Ok [5; 6].
Proof.
  refine (proj2 (proj2 (proj2
            (write_registers_reads_back
               [ {| _memory := [0; 0]; _memory_type := Bytearray;
                    _memory_size := 2; _start_address := 0;
                    _read_callbacks := ∅; _write_callbacks := ∅ |};
                 {| _memory := [0; 0; 0; 0]; _memory_type := Bytearray;
                    _memory_size := 4; _start_address := 8;
                    _read_callbacks := ∅; _write_callbacks := ∅ |} ]
               _ 9 [5; 6] [5; 6] [] _ eq_refl)))).
  repeat constructor.
Defined.

End RegisterBankAccess.

(** ** What [merge_registers] leaves *)

Section MergedBank.
Import Py RbcpServer.

Lemma merge_inner_none (register1 : VirtualRegister) (later : list VirtualRegister) :
  consistent register1 -> Forall consistent later ->
  merge_inner register1 later = ([], Ok None) ->
  Forall (λ register2,
            _is_neighbor register1 register2 || _is_intersect register1 register2
            = false) later.
Proof.
  intros Hc1 Hlater. induction Hlater as [|register2 later Hc2 Hlater IH].
  - constructor.
  - cbn [merge_inner].
    destruct (_is_neighbor register1 register2 || _is_intersect register1 register2)
      eqn:Htouch.
    + destruct (merge_touching register1 register2 Hc1 Hc2 Htouch) as (r & -> & _).
      rewrite eff_bind_pure. discriminate.
    + rewrite (merge_apart _ _ Htouch), eff_bind_pure.
      destruct (merge_inner_cases register1 later Hc1 Hlater)
        as [Hnone | (r1' & r2 & before & after & _ & Hsome & _)].
      * intros _. constructor; [exact Htouch | exact (IH Hnone)].
      * rewrite Hsome, eff_bind_pure. discriminate.
Qed.

Lemma merge_outer_none (registers : list VirtualRegister) :
  Forall consistent registers ->
  merge_outer registers = ([], Ok None) ->
  forall i j register1 register2,
    (i < j)%nat -> registers !! i = Some register1 -> registers !! j = Some register2 ->
    _is_neighbor register1 register2 || _is_intersect register1 register2 = false.
Proof.
  intros Hc. induction Hc as [|register later Hc1 Hlater IH].
  - intros _ i j r1 r2 _ Hi. discriminate.
  - cbn [merge_outer].
    destruct (merge_inner_cases register later Hc1 Hlater)
      as [Hnone | (r1' & r2' & before & after & _ & Hsome & _)].
    + rewrite Hnone, eff_bind_pure.
      pose proof (merge_inner_none register later Hc1 Hlater Hnone) as Hfirst.
      destruct (merge_outer_cases later Hlater) as [Hnone' | (later' & Hsome' & _)].
      * intros _ i j r1 r2 Hij Hi Hj. destruct i as [|i].
        -- injection Hi as <-. destruct j as [|j]; [lia|]. simpl in Hj.
           rewrite Forall_lookup in Hfirst. exact (Hfirst j r2 Hj).
        -- destruct j as [|j]; [lia|]. simpl in Hi, Hj.
           exact (IH Hnone' i j r1 r2 ltac:(lia) Hi Hj).
      * rewrite Hsome', eff_bind_pure. discriminate.
    + rewrite Hsome, eff_bind_pure. discriminate.
Qed.

Lemma apart_disjoint (register1 register2 : VirtualRegister) (a : Z) :
  _is_neighbor register1 register2 || _is_intersect register1 register2 = false ->
  holds register1 a -> holds register2 a -> False.
Proof.
  intros Hapart H1 H2. apply orb_false_elim in Hapart as [_ Hint].
  unfold _is_intersect, get_register_info, holds in *.
  destruct (Z.leb_spec (_start_address register1) (_start_address register2)).
  - destruct (Z.ltb_spec (_start_address register2)
                (_start_address register1 + _memory_size register1));
      [discriminate | lia].
  - destruct (Z.ltb_spec (_start_address register1)
                (_start_address register2 + _memory_size register2));
      [discriminate | lia].
Qed.

(** X5: in the bank [merge_registers] returns, no two registers overlap or
    are byte-adjacent, so no address is held by two registers and no
    register shadows another. *)
Theorem merged_registers_apart (depth : nat)
    (registers merged : list VirtualRegister) :
  Forall consistent registers ->
  snd (merge_registers depth registers) = Ok merged ->
  forall i j register1 register2,
    (i < j)%nat -> merged !! i = Some register1 -> merged !! j = Some register2 ->
    _is_neighbor register1 register2 || _is_intersect register1 register2 = false
    /\ forall a, ~ (holds register1 a /\ holds register2 a).
Proof.
  intros Hc Hmerged. unfold merge_registers in Hmerged.
  destruct (merge_registers_rec_cases depth registers Hc)
    as [(out & Hrec & Hset & Hcm & _) | [Hrec _]];
    rewrite Hrec in Hmerged; [|discriminate].
  injection Hmerged as <-.
  intros i j r1 r2 Hij Hi Hj.
  assert (_is_neighbor r1 r2 || _is_intersect r1 r2 = false) as Hapart.
  { destruct Hset as [Hshort|Hnone].
    - apply lookup_lt_Some in Hj. unfold len in Hshort. lia.
    - exact (merge_outer_none out Hcm Hnone i j r1 r2 Hij Hi Hj). }
  split; [exact Hapart|]. intros a [H1 H2].
  exact (apart_disjoint r1 r2 a Hapart H1 H2).
Qed.

Lemma merged_registers_apart_witness :
  _is_neighbor
    {| _memory := [1; 2; 2]; _memory_type := Bytearray;
       _memory_size := 3; _start_address := 0;
       _read_callbacks := ∅; _write_callbacks := ∅ |}
    {| _memory := [3]; _memory_type := Bytearray;
       _memory_size := 1; _start_address := 10;
       _read_callbacks := ∅; _write_callbacks := ∅ |}
  || _is_intersect
       {| _memory := [1; 2; 2]; _memory_type := Bytearray;
          _memory_size := 3; _start_address := 0;
          _read_callbacks := ∅; _write_callbacks := ∅ |}
       {| _memory := [3]; _memory_type := Bytearray;
          _memory_size := 1; _start_address := 10;
          _read_callbacks := ∅; _write_callbacks := ∅ |}
  = false.
Proof.
  refine (proj1 (merged_registers_apart 2
                   [ {| _memory := [1; 1]; _memory_type := Bytearray;
                        _memory_size := 2; _start_address := 0;
                        _read_callbacks := ∅; _write_callbacks := ∅ |};
                     {| _memory := [3]; _memory_type := Bytearray;
                        _memory_size := 1; _start_address := 10;
                        _read_callbacks := ∅; _write_callbacks := ∅ |};
                     {| _memory := [2; 2]; _memory_type := Bytearray;
                        _memory_size := 2; _start_address := 1;
                        _read_callbacks := ∅; _write_callbacks := ∅ |} ]
                   _ _ eq_refl 0%nat 1%nat _ _ ltac:(lia) eq_refl eq_refl)).
  repeat constructor.
Defined.

Lemma merge_inner_held_back (register1 register1' register2 : VirtualRegister)
    (before after : list VirtualRegister) (a : Z) :
  consistent register1 -> Forall consistent (before ++ register2 :: after) ->
  merge register1 register2 = ([], Ok (true, register1')) ->
  _is_neighbor register1 register2 || _is_intersect register1 register2 = true ->
  held (register1' :: before ++ after) a ->
  held (register1 :: before ++ register2 :: after) a.
Proof.
  intros Hc1 Hlater Hmerge Htouch (x & Hx & Hxa).
  apply Forall_app in Hlater as [_ Hafter].
  apply Forall_cons in Hafter as [Hc2 _].
  destruct (merge_touching register1 register2 Hc1 Hc2 Htouch)
    as (r & Hr & _ & _ & _ & _ & _ & Hholds & _).
  rewrite Hr in Hmerge. injection Hmerge as <-.
  destruct Hx as [<-|Hx].
  - apply Hholds in Hxa as [H1|H2].
    + exists register1. split; [left; reflexivity | exact H1].
    + exists register2. split; [|exact H2].
      right. apply in_app_iff. right. left. reflexivity.
  - exists x. split; [|exact Hxa]. right. apply in_app_iff.
    apply in_app_iff in Hx as [Hx|Hx]; [left | right; right]; exact Hx.
Qed.

Lemma merge_outer_held_back (registers registers' : list VirtualRegister) (a : Z) :
  Forall consistent registers ->
  merge_outer registers = ([], Ok (Some registers')) ->
  held registers' a -> held registers a.
Proof.
  intros Hc. revert registers'.
  induction Hc as [|register later Hc1 Hlater IH]; intros registers'.
  - discriminate.
  - cbn [merge_outer].
    destruct (merge_inner_cases register later Hc1 Hlater)
      as [Hnone | (r1' & r2 & before & after & -> & Hsome & Hm & Ht)].
    + rewrite Hnone, eff_bind_pure.
      destruct (merge_outer_cases later Hlater) as [Hnone' | (later' & Hsome' & _)].
      * rewrite Hnone', eff_bind_pure. discriminate.
      * rewrite Hsome', eff_bind_pure. intros [= <-] (x & [<-|Hx] & Hxa).
        -- exists register. split; [left; reflexivity | exact Hxa].
        -- destruct (IH later' Hsome') as (y & Hy & Hya); [exists x; auto|].
           exists y. split; [right; exact Hy | exact Hya].
    + rewrite Hsome, eff_bind_pure. intros [= <-].
      apply merge_inner_held_back; assumption.
Qed.

Lemma merge_registers_rec_held_back (depth : nat) (registers merged : list VirtualRegister)
    (a : Z) :
  Forall consistent registers ->
  merge_registers_rec depth registers = ([], Ok merged) ->
  (length merged <= length registers)%nat
  /\ (held merged a -> held registers a).
Proof.
  revert registers. induction depth as [|depth IH]; intros registers Hc.
  all: destruct (Z.leb_spec (len registers) 1) as [Hshort|Hlong];
    [rewrite merge_registers_rec_settled by (left; exact Hshort);
     intros [= <-]; auto|].
  all: destruct (merge_outer_cases registers Hc)
    as [Hnone | (registers' & Hsome & Hc' & Hlen' & _)];
    [rewrite merge_registers_rec_settled by (right; exact Hnone);
     intros [= <-]; auto|].
  all: cbn [merge_registers_rec];
    destruct (Z.leb_spec (len registers) 1); [lia|];
    rewrite Hsome, eff_bind_pure.
  - discriminate.
  - intros Hrec. destruct (IH registers' Hc' Hrec) as [Hle Hback].
    split; [lia|]. intros Hheld.
    exact (merge_outer_held_back registers registers' a Hc Hsome (Hback Hheld)).
Qed.

(** X6: [merge_registers] never adds a register and neither adds nor drops an
    address: the merged bank holds exactly the addresses the input bank
    held, so a one-byte read is served after the merge exactly when it was
    served before. *)
Theorem merge_registers_keeps_addresses (depth : nat)
    (registers merged : list VirtualRegister) :
  Forall consistent registers ->
  snd (merge_registers depth registers) = Ok merged ->
  (length merged <= length registers)%nat
  /\ (forall a, held merged a <-> held registers a)
  /\ (forall a, is_Some (read_byte merged a) <-> is_Some (read_byte registers a)).
Proof.
  intros Hc Hmerged. unfold merge_registers in Hmerged.
  destruct (merge_registers_rec_cases depth registers Hc)
    as [(out & Hrec & _ & Hcm & Hheld & _) | [Hrec _]];
    rewrite Hrec in Hmerged; [|discriminate].
  injection Hmerged as <-.
  assert (forall a, held out a <-> held registers a) as Hsame.
  { intros a. split; [|apply Hheld].
    apply (merge_registers_rec_held_back depth registers out a Hc Hrec). }
  split; [|split; [exact Hsame|]].
  - apply (merge_registers_rec_held_back depth registers out 0 Hc Hrec).
  - assert (forall regs a, Forall consistent regs ->
              is_Some (read_byte regs a) <-> held regs a) as Hserved.
    { intros regs a Hregs. split.
      - intros [v Hv]. destruct (read_byte_source regs a v Hv) as (x & Hx & Hxa & _).
        exists x. auto.
      - intros Hh. destruct (read_byte_found regs a Hregs Hh) as (x & _ & _ & ->).
        eexists. reflexivity. }
    intros a. rewrite !Hserved by assumption. apply Hsame.
Qed.

Lemma merge_registers_keeps_addresses_witness :
  is_Some (read_byte
             [ {| _memory := [1; 2; 2]; _memory_type := Bytearray;
                  _memory_size := 3; _start_address := 0;
                  _read_callbacks := ∅; _write_callbacks := ∅ |} ] 2).
Proof.
  apply (proj2 (proj2 (merge_registers_keeps_addresses 1
                         [ {| _memory := [1; 1]; _memory_type := Bytearray;
                              _memory_size := 2; _start_address := 0;
                              _read_callbacks := ∅; _write_callbacks := ∅ |};
                           {| _memory := [2; 2]; _memory_type := Bytearray;
                              _memory_size := 2; _start_address := 1;
                              _read_callbacks := ∅; _write_callbacks := ∅ |} ]
                         _ ltac:(repeat constructor) eq_refl)) 2).
  eexists. reflexivity.
Defined.

(** X7: merging a register with one that starts where it ends joins their
    memories: [merge] returns true and leaves in [self] the start of
    [self] and the memory of [self] followed by the memory of the other
    register. *)
Theorem merge_adjacent_concatenates (self register : VirtualRegister) :
  consistent self -> consistent register ->
  _start_address register = _start_address self + _memory_size self ->
  exists self',
    merge self register = ([], Ok (true, self'))
    /\ _start_address self' = _start_address self
    /\ _memory self' = _memory self ++ _memory register
    /\ _memory_size self' = _memory_size self + _memory_size register
    /\ callbacks self' = callbacks self.
Proof.
  intros Hc1 Hc2 Hadj.
  assert (_is_neighbor self register || _is_intersect self register = true) as Htouch.
  { unfold _is_neighbor, get_register_info.
    destruct (Z.eqb_spec (_start_address self + _memory_size self)
                (_start_address register)); [reflexivity | lia]. }
  destruct (merge_touching self register Hc1 Hc2 Htouch)
    as (self' & Hm & Hc' & Hstart & Hend & Hrcb & Hwcb & _ & Hsecond & Hfirst).
  unfold consistent in *.
  pose proof (len_nonneg (_memory self)) as Hn1.
  pose proof (len_nonneg (_memory register)) as Hn2.
  assert (_start_address self' = _start_address self) as Hs by lia.
  assert (_memory_size self' = _memory_size self + _memory_size register) as Hsz by lia.
  exists self'. split; [exact Hm|]. split; [exact Hs|].
  split; [|split; [exact Hsz | unfold callbacks; rewrite Hrcb, Hwcb; reflexivity]].
  apply (nth_ext _ _ 0 0).
  - rewrite length_app. unfold len in *. lia.
  - intros i Hi.
    assert (nth i (_memory self') 0 = byte_at self' (_start_address self + Z.of_nat i))
      as -> by (unfold byte_at; rewrite Hs; f_equal; lia).
    destruct (Nat.lt_ge_cases i (length (_memory self))) as [Hlt|Hge].
    + rewrite Hfirst; [|unfold holds, len in *; lia|unfold holds, len in *; lia].
      rewrite app_nth1 by exact Hlt. unfold byte_at. f_equal. lia.
    + rewrite Hsecond by (unfold holds, len in *; lia).
      rewrite app_nth2 by exact Hge. unfold byte_at. f_equal. unfold len in *. lia.
Qed.

Lemma merge_adjacent_concatenates_witness :
  exists self',
    merge
      {| _memory := [1; 2]; _memory_type := Bytearray;
         _memory_size := 2; _start_address := 0x100;
         _read_callbacks := ∅; _write_callbacks := ∅ |}
      {| _memory := [3]; _memory_type := Bytearray;
         _memory_size := 1; _start_address := 0x102;
         _read_callbacks := ∅; _write_callbacks := ∅ |}
    = ([], Ok (true, self'))
    /\ _memory self' = [1; 2; 3].
Proof.
  destruct (merge_adjacent_concatenates
              {| _memory := [1; 2]; _memory_type := Bytearray;
                 _memory_size := 2; _start_address := 0x100;
                 _read_callbacks := ∅; _write_callbacks := ∅ |}
              {| _memory := [3]; _memory_type := Bytearray;
                 _memory_size := 1; _start_address := 0x102;
                 _read_callbacks := ∅; _write_callbacks := ∅ |}
              eq_refl eq_refl eq_refl) as (self' & Hm & _ & Hmem & _).
  exists self'. split; [exact Hm | exact Hmem].
Defined.

End MergedBank.

(** ** Requests of the client and their handling by the server *)

Section ClientRequests.
Import Py.

Lemma testbit_255 (n : Z) : 0 <= n -> Z.testbit 255 n = (n <? 8).
Proof. intros Hn. exact (Z.testbit_ones_nonneg 8 n ltac:(lia) Hn). Qed.

Lemma address_byte_bit (a k n : Z) :
  0 <= k ->
  Z.testbit (Z.land (Z.shiftr (Z.land a (Z.shiftl 255 k)) k) 255) (n - k)
  = (k <=? n) && (n <? k + 8) && Z.testbit a n.
Proof.
  intros Hk. destruct (Z.leb_spec k n) as [Hle|Hlt].
  - rewrite Z.land_spec, Z.shiftr_spec, Z.land_spec, Z.shiftl_spec by lia.
    replace (n - k + k) with n by lia.
    rewrite !testbit_255 by lia.
    destruct (Z.ltb_spec (n - k) 8); destruct (Z.ltb_spec n (k + 8)); try lia;
      destruct (Z.testbit a n); reflexivity.
  - rewrite Z.testbit_neg_r by lia. reflexivity.
Qed.

(** The four address bytes of a header put together again, as the server
    does with [struct.unpack], give the address. *)
Lemma address_bytes_recombine (a : Z) :
  0 <= a <= 0xffffffff ->
  struct_unpack_BE_I
    [Z.land (Z.shiftr (Z.land a 0xff000000) 24) 0xff;
     Z.land (Z.shiftr (Z.land a 0x00ff0000) 16) 0xff;
     Z.land (Z.shiftr (Z.land a 0x0000ff00) 8) 0xff;
     Z.land (Z.shiftr (Z.land a 0x000000ff) 0) 0xff] = Ok a.
Proof.
  intros Ha. cbn [struct_unpack_BE_I]. f_equal.
  change 0xff000000 with (Z.shiftl 255 24). change 0x00ff0000 with (Z.shiftl 255 16).
  change 0x0000ff00 with (Z.shiftl 255 8).
  change (Z.land a 255) with (Z.land a (Z.shiftl 255 0)).
  apply Z.bits_inj'. intros n Hn.
  rewrite !Z.lor_spec, !Z.shiftl_spec by lia.
  replace n with (n - 0) at 4 by lia.
  rewrite !address_byte_bit by lia.
  assert (32 <= n -> Z.testbit a n = false) as Hhigh.
  { intros Hn32. destruct (Z.eq_dec a 0) as [->|Hnz]; [apply Z.testbit_0_l|].
    apply Z.bits_above_log2; [lia|].
    assert (Z.log2 a < 32); [|lia]. apply Z.log2_lt_pow2; lia. }
  destruct (Z.leb_spec 24 n); destruct (Z.ltb_spec n (24 + 8));
    destruct (Z.leb_spec 16 n); destruct (Z.ltb_spec n (16 + 8));
    destruct (Z.leb_spec 8 n); destruct (Z.ltb_spec n (8 + 8));
    destruct (Z.leb_spec 0 n); destruct (Z.ltb_spec n (0 + 8)); try lia;
    cbn [andb orb]; rewrite ?orb_false_r; try reflexivity.
  rewrite Hhigh by lia. reflexivity.
Qed.

Lemma client_header (read_write a n packet_id : Z) :
  0 <= a <= 0xffffffff -> 0 <= n <= 255 -> a + n <= 0xffffffff ->
  0 <= packet_id <= 255 ->
  Rbcp._make_header read_write (VInt a) (VInt n) packet_id
  = Ok [0xff; if read_write =? Rbcp.HEADER_READ then 0xc0 else 0x80; packet_id; n;
        Z.land (Z.shiftr (Z.land a 0xff000000) 24) 0xff;
        Z.land (Z.shiftr (Z.land a 0x00ff0000) 16) 0xff;
        Z.land (Z.shiftr (Z.land a 0x0000ff00) 8) 0xff;
        Z.land (Z.shiftr (Z.land a 0x000000ff) 0) 0xff].
Proof.
  intros Ha Hn Han Hid. unfold Rbcp._make_header. simpl.
  destruct (Z.ltb_spec a 0); [lia|].
  destruct (Z.ltb_spec 0xffffffff a); [lia|].
  destruct (Z.ltb_spec n 0); [lia|].
  destruct (Z.ltb_spec 255 n); [lia|].
  destruct (Z.ltb_spec 0xffffffff (a + n)); [lia|]. simpl.
  unfold struct_pack_8B. cbn [forallb].
  assert (forall b, 0 <= b <= 255 -> is_byte b = true) as Hbyte.
  { intros b Hb. unfold is_byte. apply andb_true_iff. split; apply Z.leb_le; lia. }
  rewrite !land_byte, (Hbyte packet_id), (Hbyte n) by lia.
  destruct (read_write =? Rbcp.HEADER_READ); reflexivity.
Qed.

(** X8: the header the client builds carries the version 0xFF, the command
    0xC0 for a read and 0x80 otherwise, the packet id and the length, and
    the server's decoding of its last four bytes gives the address back. *)
Theorem client_header_decodes (read_write a n packet_id : Z) :
  0 <= a <= 0xffffffff -> 0 <= n <= 255 -> a + n <= 0xffffffff ->
  0 <= packet_id <= 255 ->
  exists header,
    Rbcp._make_header read_write (VInt a) (VInt n) packet_id = Ok header
    /\ getitem header 0 = Ok 0xff
    /\ getitem header 1 = Ok (if read_write =? Rbcp.HEADER_READ then 0xc0 else 0x80)
    /\ getitem header 2 = Ok packet_id
    /\ getitem header 3 = Ok n
    /\ struct_unpack_BE_I (slice (Some 4) (Some 8) header) = Ok a.
Proof.
  intros Ha Hn Han Hid. eexists. split; [apply client_header; assumption|].
  repeat (split; [reflexivity|]).
  exact (address_bytes_recombine a Ha).
Qed.

Lemma client_header_decodes_witness :
  exists header,
    Rbcp._make_header Rbcp.HEADER_WRITE (VInt 0x12345678) (VInt 4) 200 = Ok header
    /\ getitem header 0 = Ok 0xff
    /\ getitem header 1 = Ok 0x80
    /\ getitem header 2 = Ok 200
    /\ getitem header 3 = Ok 4
    /\ struct_unpack_BE_I (slice (Some 4) (Some 8) header) = Ok 0x12345678.
Proof.
  apply (client_header_decodes Rbcp.HEADER_WRITE 0x12345678 4 200); lia.
Defined.

End ClientRequests.

Section ServerHandling.
Import Py RbcpServer.

(** X9: a datagram shorter than eight bytes gets no reply and is counted in
    [_error_short_message]; a datagram whose first byte is not 0xFF, or
    whose command byte is neither 0xC0 nor 0x80, gets no reply and leaves
    the server as it is.  In all three cases no register is read or written
    and no callback is called. *)
Theorem on_datagram_drops_malformed (self : RbcpServer) (rbcp_msg : list Z) :
  (len rbcp_msg < 8 ->
   on_datagram self rbcp_msg
   = ([], Ok (None, {| _registers := _registers self;
                       _error_short_message := _error_short_message self + 1 |})))
  /\ (forall version, 8 <= len rbcp_msg ->
        rbcp_msg !! 0%nat = Some version -> version <> 0xff ->
        on_datagram self rbcp_msg = ([], Ok (None, self)))
  /\ (forall command, 8 <= len rbcp_msg ->
        rbcp_msg !! 0%nat = Some 0xff -> rbcp_msg !! 1%nat = Some command ->
        command <> 0xc0 -> command <> 0x80 ->
        on_datagram self rbcp_msg = ([], Ok (None, self))).
Proof.
  split; [|split].
  - intros Hshort. unfold on_datagram.
    destruct (Z.ltb_spec (len rbcp_msg) 8); [reflexivity | lia].
  - intros version Hlen H0 Hv. unfold on_datagram.
    destruct (Z.ltb_spec (len rbcp_msg) 8); [lia|].
    pose proof (getitem_lookup rbcp_msg 0 version H0) as G0.
    change (Z.of_nat 0) with 0 in G0. rewrite G0. unfold lift.
    rewrite eff_bind_pure.
    destruct (Z.eqb_spec version 0xff); [contradiction | reflexivity].
  - intros command Hlen H0 H1 Hr Hw. unfold on_datagram.
    destruct (Z.ltb_spec (len rbcp_msg) 8); [lia|].
    pose proof (getitem_lookup rbcp_msg 0 0xff H0) as G0.
    pose proof (getitem_lookup rbcp_msg 1 command H1) as G1.
    change (Z.of_nat 0) with 0 in G0. change (Z.of_nat 1) with 1 in G1.
    rewrite G0, G1. unfold lift. rewrite !eff_bind_pure.
    cbn [negb Z.eqb Pos.eqb]. rewrite ?eff_bind_pure.
    destruct (Z.eqb_spec command 0xc0); [contradiction|].
    destruct (Z.eqb_spec command 0x80); [contradiction|]. reflexivity.
Qed.

Lemma on_datagram_drops_malformed_witness :
  on_datagram {| _registers := []; _error_short_message := 3 |} [0xff; 0xc0; 1]
  = ([], Ok (None, {| _registers := []; _error_short_message := 4 |})).
Proof.
  apply (proj1 (on_datagram_drops_malformed
                  {| _registers := []; _error_short_message := 3 |} [0xff; 0xc0; 1])).
  unfold len. simpl. lia.
Defined.

Lemma read_registers_all_miss (registers : list VirtualRegister)
    (address length_ : Z) :
  Forall (λ x, check_address_range x address length_ = false) registers ->
  read_registers registers address length_
  = ([], Raise (VirtualRegisterOutOfRange NoMessage)).
Proof.
  induction 1 as [|register registers Hmiss _ IH]; [reflexivity|].
  cbn [read_registers].
  unfold read_bytes. rewrite Hmiss.
  cbv beta iota zeta delta [try_out_of_range eff_raise].
  rewrite IH. reflexivity.
Qed.

(** X10: a read request leaves the server as it is, and when the loop sends
    anything it sends one reply.  When a register of a consistent bank
    contains the range, the reply carries the command 0xC8, the fields of
    the request and as many bytes as its length byte says, whatever payload
    the request had.  When no register contains the range, the reply is the
    bus-error header 0xC9 with the number of payload bytes and the payload,
    if that number is at most 255; above it [struct.pack] raises and nothing
    is sent. *)
Theorem on_datagram_read_serves (self : RbcpServer) (id_ length_ a3 a2 a1 a0 : Z)
    (payload : list Z) :
  0 <= id_ <= 255 -> 0 <= length_ <= 255 ->
  0 <= a3 <= 255 -> 0 <= a2 <= 255 -> 0 <= a1 <= 255 -> 0 <= a0 <= 255 ->
  let rbcp_msg := 0xff :: 0xc0 :: id_ :: length_ :: a3 :: a2 :: a1 :: a0 :: payload in
  let address :=
    Z.lor (Z.shiftl a3 24) (Z.lor (Z.shiftl a2 16) (Z.lor (Z.shiftl a1 8) a0)) in
  (forall answer self',
      snd (on_datagram self rbcp_msg) = Ok (answer, self') ->
      self' = self /\ is_Some answer)
  /\ (forall register,
        Forall consistent (_registers self) ->
        In register (_registers self) ->
        check_address_range register address length_ = true ->
        exists data,
          snd (on_datagram self rbcp_msg)
          = Ok (Some ([0xff; 0xc8; id_; length_; a3; a2; a1; a0] ++ data), self)
          /\ len data = length_)
  /\ (Forall (λ x, check_address_range x address length_ = false)
        (_registers self) ->
      snd (on_datagram self rbcp_msg)
      = if len payload <=? 255 then
          Ok (Some ([0xff; 0xc9; id_; len payload; a3; a2; a1; a0] ++ payload),
              self)
        else Raise StructError).
Proof.
  intros Hid Hlen H3 H2 H1 H0 rbcp_msg address. subst rbcp_msg.
  rewrite (on_datagram_read self id_ length_ a3 a2 a1 a0 payload) by assumption.
  fold address. split; [|split].
  - intros answer self'.
    destruct (read_registers_outcome (_registers self) address length_)
      as [[data ->] | [m ->]].
    + intros [= <- <-]. split; [reflexivity | eexists; reflexivity].
    + destruct (len payload <=? 255); [|discriminate].
      intros [= <- <-]. split; [reflexivity | eexists; reflexivity].
  - intros register Hc Hin Hrange.
    assert (exists before x after,
              _registers self = before ++ x :: after
              /\ Forall (λ y, check_address_range y address length_ = false) before
              /\ check_address_range x address length_ = true)
      as (before & x & after & Heq & Hbefore & Hx).
    { clear Hc. induction (_registers self) as [|y regs IH]; [destruct Hin|].
      destruct (check_address_range y address length_) eqn:Hy.
      - exists [], y, regs. auto.
      - destruct Hin as [->|Hin]; [congruence|].
        destruct (IH Hin) as (before & x & after & -> & Hb & Hx).
        exists (y :: before), x, after. auto. }
    rewrite Heq in Hc |- *. rewrite (read_registers_first before after x) by assumption.
    apply Forall_app in Hc as [_ Hc]. apply Forall_cons in Hc as [Hcx _].
    destruct (proj1 (read_bytes_trace x address length_) Hx)
      as (_ & data & -> & Hdata).
    exists data. split; [reflexivity | apply Hdata; [exact Hcx | lia]].
  - intros Hmiss. rewrite (read_registers_all_miss _ _ _ Hmiss). reflexivity.
Qed.

Lemma on_datagram_read_serves_witness :
  exists data,
    snd (on_datagram
           {| _registers :=
                [ {| _memory := [1; 2; 3; 4]; _memory_type := Bytes;
                     _memory_size := 4; _start_address := 0;
                     _read_callbacks := ∅; _write_callbacks := ∅ |} ];
              _error_short_message := 0 |}
           (0xff :: 0xc0 :: 5 :: 2 :: 0 :: 0 :: 0 :: 1 :: repeat 0 300))
    = Ok (Some ([0xff; 0xc8; 5; 2; 0; 0; 0; 1] ++ data),
          {| _registers :=
               [ {| _memory := [1; 2; 3; 4]; _memory_type := Bytes;
                    _memory_size := 4; _start_address := 0;
                    _read_callbacks := ∅; _write_callbacks := ∅ |} ];
             _error_short_message := 0 |})
    /\ len data = 2.
Proof.
  refine (proj1 (proj2 (on_datagram_read_serves
                          {| _registers :=
                               [ {| _memory := [1; 2; 3; 4]; _memory_type := Bytes;
                                    _memory_size := 4; _start_address := 0;
                                    _read_callbacks := ∅; _write_callbacks := ∅ |} ];
                             _error_short_message := 0 |}
                          5 2 0 0 0 1 (repeat 0 300) _ _ _ _ _ _))
            _ _ (or_introl eq_refl) eq_refl); try lia.
  repeat constructor.
Defined.

End ServerHandling.

Section ClientExchange.
Import Py Rbcp.

Lemma client_header_rejects (read_write : Z) (register_address length_ : value)
    (packet_id : Z) :
  ~ (exists a n, register_address = VInt a /\ length_ = VInt n
                 /\ 0 <= a <= 0xffffffff /\ 0 <= n <= 255 /\ a + n <= 0xffffffff) ->
  exists m, _make_header read_write register_address length_ packet_id
            = Raise (ValueError m).
Proof.
  intros Hbad. unfold _make_header.
  destruct register_address as [a| | |]; simpl; eauto.
  destruct length_ as [n| | |]; simpl; eauto.
  destruct (Z.ltb_spec a 0); simpl; eauto.
  destruct (Z.ltb_spec 0xffffffff a); simpl; eauto.
  destruct (Z.ltb_spec n 0); simpl; eauto.
  destruct (Z.ltb_spec 255 n); simpl; eauto.
  destruct (Z.ltb_spec 0xffffffff (a + n)); simpl; eauto.
  exfalso. apply Hbad. exists a, n. repeat split; lia.
Qed.

(** X11: a request with arguments [_make_header] rejects fails with
    [ValueError] without using the socket and without using up a packet id:
    the client and the network are as before. *)
Theorem request_rejected_before_io {N : Type} (calls : nat) (sock : socket N)
    (self : Rbcp) (net : N) (register_address length_ : value) (packet_data : list Z) :
  (~ (exists a n, register_address = VInt a /\ length_ = VInt n
                  /\ 0 <= a <= 0xffffffff /\ 0 <= n <= 255 /\ a + n <= 0xffffffff) ->
   exists m, read calls sock self net register_address length_
             = (self, net, Failed (Raised (ValueError m))))
  /\ (~ (exists a, register_address = VInt a /\ 0 <= a <= 0xffffffff
                   /\ len packet_data <= 255 /\ a + len packet_data <= 0xffffffff) ->
      exists m, write calls sock self net register_address packet_data
                = (self, net, Failed (Raised (ValueError m)))).
Proof.
  split; intros Hbad.
  - destruct (client_header_rejects HEADER_READ register_address length_
                (_packet_id self) Hbad) as [m Hm].
    exists m. unfold read. rewrite Hm. reflexivity.
  - destruct (client_header_rejects HEADER_WRITE register_address
                (VInt (len packet_data)) (_packet_id self)) as [m Hm].
    { intros (a & n & -> & [= <-] & Ha & Hn & Han). apply Hbad. exists a. auto with zarith. }
    exists m. unfold write. rewrite Hm. reflexivity.
Qed.

Lemma request_rejected_before_io_witness :
  exists m, read 1 Loopback.sock {| _packet_id := 7 |}
              {| Loopback.server := {| RbcpServer._registers := [];
                                       RbcpServer._error_short_message := 0 |};
                 Loopback.serving := true; Loopback.replies := [] |}
              (VInt 0xffffff01) (VInt 255)
            = ({| _packet_id := 7 |},
               {| Loopback.server := {| RbcpServer._registers := [];
                                        RbcpServer._error_short_message := 0 |};
                  Loopback.serving := true; Loopback.replies := [] |},
               Failed (Raised (ValueError m))).
Proof.
  match goal with |- context [read _ _ ?c ?l _ _] =>
    apply (proj1 (request_rejected_before_io 1 Loopback.sock c l
                    (VInt 0xffffff01) (VInt 255) []))
  end.
  intros (a & n & [= <-] & [= <-] & _ & _ & H). lia.
Defined.

Lemma read_sends_header {N : Type} (calls : nat) (sock : socket N)
    (self : Rbcp) (net : N) (a n : Z) :
  0 <= a <= 0xffffffff -> 0 <= n <= 255 -> a + n <= 0xffffffff ->
  0 <= _packet_id self <= 255 ->
  let header :=
    [0xff; 0xc0; _packet_id self; n;
     Z.land (Z.shiftr (Z.land a 0xff000000) 24) 0xff;
     Z.land (Z.shiftr (Z.land a 0x00ff0000) 16) 0xff;
     Z.land (Z.shiftr (Z.land a 0x0000ff00) 8) 0xff;
     Z.land (Z.shiftr (Z.land a 0x000000ff) 0) 0xff] in
  read calls sock self net (VInt a) (VInt n)
  = ({| _packet_id := (_packet_id self + 1) mod 256 |},
     fst (_rbcp_send_recv calls sock net header (_packet_id self)),
     snd (_rbcp_send_recv calls sock net header (_packet_id self))).
Proof.
  intros Ha Hn Han Hid header. unfold read.
  rewrite (client_header HEADER_READ a n (_packet_id self)) by assumption.
  cbn [Z.eqb HEADER_READ]. rewrite app_nil_r. fold header.
  destruct (_rbcp_send_recv calls sock net header (_packet_id self)) as [net' res].
  cbn [fst snd]. do 3 f_equal.
  destruct (Z.eqb_spec (_packet_id self + 1) 256) as [E|E].
  - rewrite E. reflexivity.
  - rewrite Z.mod_small by lia. reflexivity.
Qed.

Lemma write_sends_header {N : Type} (calls : nat) (sock : socket N)
    (self : Rbcp) (net : N) (a : Z) (packet_data : list Z) :
  0 <= a <= 0xffffffff -> len packet_data <= 255 ->
  a + len packet_data <= 0xffffffff ->
  0 <= _packet_id self <= 255 ->
  let header :=
    [0xff; 0x80; _packet_id self; len packet_data;
     Z.land (Z.shiftr (Z.land a 0xff000000) 24) 0xff;
     Z.land (Z.shiftr (Z.land a 0x00ff0000) 16) 0xff;
     Z.land (Z.shiftr (Z.land a 0x0000ff00) 8) 0xff;
     Z.land (Z.shiftr (Z.land a 0x000000ff) 0) 0xff] in
  write calls sock self net (VInt a) packet_data
  = ({| _packet_id := (_packet_id self + 1) mod 256 |},
     fst (_rbcp_send_recv calls sock net (header ++ packet_data) (_packet_id self)),
     snd (_rbcp_send_recv calls sock net (header ++ packet_data) (_packet_id self))).
Proof.
  intros Ha Hn Han Hid header. unfold write.
  pose proof (len_nonneg packet_data) as Hlen.
  rewrite (client_header HEADER_WRITE a (len packet_data) (_packet_id self))
    by (try assumption; lia).
  change (HEADER_WRITE =? HEADER_READ) with false. cbv iota. fold header.
  destruct (_rbcp_send_recv calls sock net (header ++ packet_data) (_packet_id self))
    as [net' res].
  cbn [fst snd]. do 3 f_equal.
  destruct (Z.eqb_spec (_packet_id self + 1) 256) as [E|E].
  - rewrite E. reflexivity.
  - rewrite Z.mod_small by lia. reflexivity.
Qed.

(** X12: a request with valid arguments goes out with the current packet id
    in its header, followed for a write by the data, and waits for a reply
    with that id; the packet id of the client is then one more, 0 after 255,
    whatever the network does with the request. *)
Theorem request_uses_and_advances_packet_id {N : Type} (calls : nat) (sock : socket N)
    (self : Rbcp) (net : N) (a : Z) (packet_data : list Z) :
  0 <= a <= 0xffffffff -> len packet_data <= 255 ->
  a + len packet_data <= 0xffffffff ->
  0 <= _packet_id self <= 255 ->
  let header command :=
    [0xff; command; _packet_id self; len packet_data;
     Z.land (Z.shiftr (Z.land a 0xff000000) 24) 0xff;
     Z.land (Z.shiftr (Z.land a 0x00ff0000) 16) 0xff;
     Z.land (Z.shiftr (Z.land a 0x0000ff00) 8) 0xff;
     Z.land (Z.shiftr (Z.land a 0x000000ff) 0) 0xff] in
  let next := {| _packet_id := (_packet_id self + 1) mod 256 |} in
  read calls sock self net (VInt a) (VInt (len packet_data))
  = (next,
     fst (_rbcp_send_recv calls sock net (header 0xc0) (_packet_id self)),
     snd (_rbcp_send_recv calls sock net (header 0xc0) (_packet_id self)))
  /\ write calls sock self net (VInt a) packet_data
     = (next,
        fst (_rbcp_send_recv calls sock net (header 0x80 ++ packet_data)
               (_packet_id self)),
        snd (_rbcp_send_recv calls sock net (header 0x80 ++ packet_data)
               (_packet_id self))).
Proof.
  intros Ha Hn Han Hid header next.
  pose proof (len_nonneg packet_data) as Hlen. split.
  - apply read_sends_header; try assumption. lia.
  - apply write_sends_header; assumption.
Qed.

Lemma request_uses_and_advances_packet_id_witness :
  fst (fst (write 1 Loopback.sock {| _packet_id := 255 |}
              {| Loopback.server := {| RbcpServer._registers := [];
                                       RbcpServer._error_short_message := 0 |};
                 Loopback.serving := false; Loopback.replies := [] |}
              (VInt 16) [1; 2; 3]))
  = {| _packet_id := 0 |}.
Proof.
  match goal with |- context [write _ _ ?c ?l _ _] =>
    rewrite (proj2 (request_uses_and_advances_packet_id 1 Loopback.sock c l 16
                      [1; 2; 3] ltac:(lia) ltac:(unfold len; simpl; lia)
                      ltac:(unfold len; simpl; lia) ltac:(simpl; lia)))
  end.
  reflexivity.
Defined.

(** X13: when the socket takes the whole datagram and nothing is readable
    within the timeout, a valid read fails with [RbcpTimeout]; the packet
    id is used up all the same. *)
Theorem read_times_out {N : Type} (calls : nat) (sock : socket N)
    (self : Rbcp) (net net1 net2 : N) (a n res : Z) :
  0 <= a <= 0xffffffff -> 0 <= n <= 255 -> a + n <= 0xffffffff ->
  0 <= _packet_id self <= 255 ->
  let header :=
    [0xff; 0xc0; _packet_id self; n;
     Z.land (Z.shiftr (Z.land a 0xff000000) 24) 0xff;
     Z.land (Z.shiftr (Z.land a 0x00ff0000) 16) 0xff;
     Z.land (Z.shiftr (Z.land a 0x0000ff00) 8) 0xff;
     Z.land (Z.shiftr (Z.land a 0x000000ff) 0) 0xff] in
  sendto sock net header = (net1, res) ->
  8 <= res ->
  recvfrom sock net1 = (net2, None) ->
  read (S calls) sock self net (VInt a) (VInt n)
  = ({| _packet_id := (_packet_id self + 1) mod 256 |}, net2, Failed RbcpTimeout).
Proof.
  intros Ha Hn Han Hid header Hsend Hres Hrecv.
  rewrite read_sends_header by assumption.
  cbv zeta. fold header. unfold _rbcp_send_recv. cbn [send_loop].
  change (len header) with 8. cbn [Z.ltb Z.compare].
  rewrite slice_suffix by (unfold len; simpl; lia).
  change (drop (Z.to_nat 0) header) with header.
  rewrite Hsend.
  destruct (Z.ltb_spec res 0); [lia|].
  assert (forall k, send_loop k sock net1 header (0 + res) = (net1, Returned tt))
    as ->.
  { intros k. destruct k; cbn [send_loop]; change (len header) with 8;
      (destruct (Z.ltb_spec (0 + res) 8); [lia | reflexivity]). }
  unfold _recv_packet. rewrite Hrecv. reflexivity.
Qed.

Lemma read_times_out_witness :
  read 1 Loopback.sock {| _packet_id := 3 |}
    {| Loopback.server := {| RbcpServer._registers := [];
                             RbcpServer._error_short_message := 0 |};
       Loopback.serving := false; Loopback.replies := [] |}
    (VInt 0xffffff00) (VInt 1)
  = ({| _packet_id := (3 + 1) mod 256 |},
     {| Loopback.server := {| RbcpServer._registers := [];
                              RbcpServer._error_short_message := 0 |};
        Loopback.serving := false; Loopback.replies := [] |},
     Failed RbcpTimeout).
Proof.
  match goal with |- read _ _ ?c ?l _ _ = _ =>
    apply (read_times_out 0 Loopback.sock c l l l 0xffffff00 1 8)
  end; try lia; try reflexivity.
  simpl. lia.
Defined.

End ClientExchange.

(** ** A client and the server on one link *)

Section ClientAndServer.
Import Py Rbcp.

Lemma land_byte_range (x : Z) : 0 <= Z.land x 0xff <= 255.
Proof.
  pose proof (land_byte x) as H. unfold is_byte in H.
  apply andb_true_iff in H as [H1 H2]. apply Z.leb_le in H1, H2. lia.
Qed.

Lemma check_packet_reply (command id_ n a3 a2 a1 a0 : Z) (data : list Z) :
  _check_packet ([0xff; command; id_; n; a3; a2; a1; a0] ++ data) id_
  = if Z.land command 0x1 =? 1 then Raise RbcpBusError else Ok tt.
Proof.
  unfold _check_packet, HEADER_SIZE, HEADER_VERTYPE.
  pose proof (len_nonneg data) as Hd.
  assert (len ([0xff; command; id_; n; a3; a2; a1; a0] ++ data) = 8 + len data)
    as Hlen by (rewrite len_app; reflexivity).
  destruct (Z.ltb_spec (len ([0xff; command; id_; n; a3; a2; a1; a0] ++ data)) 8);
    [lia|].
  set (packet := [0xff; command; id_; n; a3; a2; a1; a0] ++ data).
  pose proof (getitem_lookup packet 0 0xff eq_refl) as G0.
  pose proof (getitem_lookup packet 1 command eq_refl) as G1.
  pose proof (getitem_lookup packet 2 id_ eq_refl) as G2.
  change (Z.of_nat 0) with 0 in G0. change (Z.of_nat 1) with 1 in G1.
  change (Z.of_nat 2) with 2 in G2.
  rewrite G0. cbn [mbind result_bind bind_flip bind Z.eqb Pos.eqb negb].
  rewrite G1. cbn [mbind result_bind bind_flip bind].
  destruct (Z.land command 1 =? 1); [reflexivity|].
  rewrite G2.
  cbn [mbind result_bind bind_flip bind]. rewrite Z.eqb_refl. reflexivity.
Qed.

Lemma slice_whole {A : Type} (l : list A) (k : Z) :
  len l <= k -> slice None (Some k) l = l.
Proof.
  intros Hk. pose proof (len_nonneg l) as Hl. unfold slice, clamp.
  destruct (Z.ltb_spec k 0); [lia|].
  rewrite Z.min_r by lia. rewrite Z.sub_0_r.
  change (drop (Z.to_nat 0) l) with l. apply take_ge. unfold len. lia.
Qed.

Lemma slice_all {A : Type} (l : list A) : slice (Some 0) (Some (len l)) l = l.
Proof.
  pose proof (len_nonneg l) as Hl. rewrite slice_range by lia.
  change (drop (Z.to_nat 0) l) with l. apply take_ge. unfold len. lia.
Qed.

(** One exchange over the link when the server answers. *)
Lemma loopback_exchange (calls : nat) (srv srv' : RbcpServer.RbcpServer)
    (rbcp_packet reply : list Z) (wait_id : Z) :
  0 < len rbcp_packet <= 4096 -> 0 < len reply <= 264 ->
  snd (RbcpServer.on_datagram srv rbcp_packet) = Ok (Some reply, srv') ->
  _rbcp_send_recv (S calls) Loopback.sock
    {| Loopback.server := srv; Loopback.serving := true; Loopback.replies := [] |}
    rbcp_packet wait_id
  = ({| Loopback.server := srv'; Loopback.serving := true; Loopback.replies := [] |},
     match _check_packet reply wait_id with
     | Ok _ => Returned (slice (Some HEADER_SIZE) None reply)
     | Raise e => Failed (Raised e)
     end).
Proof.
  intros Hpacket Hreply Hserved.
  unfold _rbcp_send_recv. cbn [send_loop].
  destruct (Z.ltb_spec 0 (len rbcp_packet)); [|lia].
  rewrite slice_suffix by lia. change (drop (Z.to_nat 0) rbcp_packet) with rbcp_packet.
  cbn [sendto Loopback.sock]. unfold Loopback.sendto.
  cbn [Loopback.serving Loopback.server Loopback.replies].
  rewrite slice_whole by lia.
  destruct (RbcpServer.on_datagram srv rbcp_packet) as [t res].
  simpl in Hserved. subst res.
  destruct (Z.ltb_spec (len rbcp_packet) 0); [lia|].
  assert (forall k net, send_loop k Loopback.sock net rbcp_packet (0 + len rbcp_packet)
                        = (net, Returned tt)) as ->.
  { intros k net. destruct k; cbn [send_loop];
      (destruct (Z.ltb_spec (0 + len rbcp_packet) (len rbcp_packet));
       [lia | reflexivity]). }
  unfold _recv_packet. cbn [recvfrom Loopback.sock]. unfold Loopback.recvfrom.
  cbn [Loopback.replies Loopback.server Loopback.serving app].
  change (HEADER_SIZE + 256) with 264. rewrite !(slice_whole reply 264) by lia.
  destruct reply as [|b reply]; [unfold len in Hreply; simpl in Hreply; lia|].
  destruct (_check_packet (b :: reply) wait_id); reflexivity.
Qed.

(** One exchange over the link when the datagram makes the loop of the
    server raise: the thread ends, no reply comes, the client times out. *)
Lemma loopback_exchange_raises (calls : nat) (srv : RbcpServer.RbcpServer)
    (rbcp_packet : list Z) (wait_id : Z) (e : exn) :
  0 < len rbcp_packet <= 4096 ->
  snd (RbcpServer.on_datagram srv rbcp_packet) = Raise e ->
  _rbcp_send_recv (S calls) Loopback.sock
    {| Loopback.server := srv; Loopback.serving := true; Loopback.replies := [] |}
    rbcp_packet wait_id
  = ({| Loopback.server := srv; Loopback.serving := false; Loopback.replies := [] |},
     Failed RbcpTimeout).
Proof.
  intros Hpacket Hraised.
  unfold _rbcp_send_recv. cbn [send_loop].
  destruct (Z.ltb_spec 0 (len rbcp_packet)); [|lia].
  rewrite slice_suffix by lia. change (drop (Z.to_nat 0) rbcp_packet) with rbcp_packet.
  cbn [sendto Loopback.sock]. unfold Loopback.sendto.
  cbn [Loopback.serving Loopback.server Loopback.replies].
  rewrite slice_whole by lia.
  destruct (RbcpServer.on_datagram srv rbcp_packet) as [t res].
  simpl in Hraised. subst res.
  destruct (Z.ltb_spec (len rbcp_packet) 0); [lia|].
  assert (forall k net, send_loop k Loopback.sock net rbcp_packet (0 + len rbcp_packet)
                        = (net, Returned tt)) as ->.
  { intros k net. destruct k; cbn [send_loop];
      (destruct (Z.ltb_spec (0 + len rbcp_packet) (len rbcp_packet));
       [lia | reflexivity]). }
  reflexivity.
Qed.

Lemma write_registers_plain (registers : list RbcpServer.VirtualRegister)
    (address : Z) (data : list Z) :
  Forall (λ x, RbcpServer._write_callbacks x = ∅
               /\ RbcpServer._memory_type x = Bytearray) registers ->
  Exists (λ x, RbcpServer.check_address_range x address (len data) = true)
    registers ->
  exists t read_data registers',
    RbcpServer.write_registers registers address data
    = (t, Ok (read_data, registers')).
Proof.
  intros Hplain Hfits.
  induction Hplain as [|register registers [Hempty Htype] Hplain IH].
  - inversion Hfits.
  - cbn [RbcpServer.write_registers].
    destruct (RbcpServer.check_address_range register address (len data)) eqn:Hrange.
    + rewrite (write_bytes_plain register address data Hempty Htype Hrange).
      rewrite eff_bind_pure.
      match goal with |- context [RbcpServer.read_bytes ?x address (len data)] =>
        destruct (proj1 (read_bytes_trace x address (len data)) Hrange)
          as (_ & read_data & Hread);
        destruct (RbcpServer.read_bytes x address (len data)) as [t res]
      end.
      simpl in Hread. destruct Hread as [-> _].
      eexists _, _, _. reflexivity.
    + rewrite (write_bytes_misses _ _ _ Hrange).
      apply Exists_cons in Hfits as [Hhead|Hfits]; [congruence|].
      destruct (IH Hfits) as (t & read_data & registers' & ->).
      eexists _, _, _. reflexivity.
Qed.

(** X14: a client and the server over a link that loses nothing.  When the
    registers are consistent, have no write callbacks and keep their memory
    in a [bytearray], a write of at most 255 bytes to a range some register
    contains returns the bytes written, and a read of the same range right
    after returns them too; both replies are consumed and the client has
    used two packet ids.  When the first register that contains the range
    keeps its memory in a [bytes] object, as one loaded from a binary file
    does, the write makes the loop of the server raise: the server stops
    answering, no reply comes, and the write fails with RbcpTimeout. *)
Theorem loopback_write_then_read (calls calls' : nat) (self : Rbcp)
    (srv : RbcpServer.RbcpServer) (a : Z) (data : list Z) :
  0 <= a -> len data <= 255 -> a + len data <= 0xffffffff ->
  0 <= _packet_id self <= 255 ->
  let link0 :=
    {| Loopback.server := srv; Loopback.serving := true; Loopback.replies := [] |} in
  let first := write (S calls) Loopback.sock self link0 (VInt a) data in
  let second :=
    read (S calls') Loopback.sock (fst (fst first)) (snd (fst first))
      (VInt a) (VInt (len data)) in
  (Forall RbcpServer.consistent (RbcpServer._registers srv) ->
   Forall (λ x, RbcpServer._write_callbacks x = ∅) (RbcpServer._registers srv) ->
   Forall (λ x, RbcpServer._memory_type x = Bytearray) (RbcpServer._registers srv) ->
   Exists (λ x, RbcpServer.check_address_range x a (len data) = true)
     (RbcpServer._registers srv) ->
   snd first = Returned data
   /\ snd second = Returned data
   /\ Loopback.serving (snd (fst second)) = true
   /\ Loopback.replies (snd (fst second)) = []
   /\ _packet_id (fst (fst second)) = (_packet_id self + 2) mod 256)
  /\ (forall before register after,
        RbcpServer._registers srv = before ++ register :: after ->
        Forall (λ x, RbcpServer.check_address_range x a (len data) = false) before ->
        RbcpServer.check_address_range register a (len data) = true ->
        RbcpServer._memory_type register = Bytes ->
        first
        = ({| _packet_id := (_packet_id self + 1) mod 256 |},
           {| Loopback.server := srv; Loopback.serving := false;
              Loopback.replies := [] |},
           Failed RbcpTimeout)).
Proof.
  intros Ha Hlen Hsum Hid link0 first second.
  pose proof (len_nonneg data) as Hd.
  set (b3 := Z.land (Z.shiftr (Z.land a 0xff000000) 24) 0xff).
  set (b2 := Z.land (Z.shiftr (Z.land a 0x00ff0000) 16) 0xff).
  set (b1 := Z.land (Z.shiftr (Z.land a 0x0000ff00) 8) 0xff).
  set (b0 := Z.land (Z.shiftr (Z.land a 0x000000ff) 0) 0xff).
  pose proof (land_byte_range (Z.shiftr (Z.land a 0xff000000) 24)) as H3.
  pose proof (land_byte_range (Z.shiftr (Z.land a 0x00ff0000) 16)) as H2.
  pose proof (land_byte_range (Z.shiftr (Z.land a 0x0000ff00) 8)) as H1.
  pose proof (land_byte_range (Z.shiftr (Z.land a 0x000000ff) 0)) as H0.
  fold b3 in H3. fold b2 in H2. fold b1 in H1. fold b0 in H0.
  assert (Z.lor (Z.shiftl b3 24) (Z.lor (Z.shiftl b2 16) (Z.lor (Z.shiftl b1 8) b0)) = a)
    as Haddr.
  { pose proof (address_bytes_recombine a ltac:(lia)) as Hr.
    cbn [struct_unpack_BE_I] in Hr. injection Hr as Hr. exact Hr. }
  pose proof (on_datagram_write srv (_packet_id self) (len data) b3 b2 b1 b0 data
                Hid ltac:(lia) H3 H2 H1 H0) as Hhandled.
  cbv zeta in Hhandled. rewrite Haddr, slice_all in Hhandled.
  split; [intros Hc Hplain Htype Hfits|].
  2: { intros before register after Hregs Hbefore Hrange Hbytes.
       assert (exists e, snd (RbcpServer.on_datagram srv
                                (0xff :: 0x80 :: _packet_id self :: len data
                                   :: b3 :: b2 :: b1 :: b0 :: data)) = Raise e)
         as [e Hraised].
       { rewrite Hhandled, Hregs.
         destruct (write_registers_on_bytes before after register a data
                     Hbefore Hrange Hbytes) as [-> | ->]; eexists; reflexivity. }
       subst first link0. rewrite write_sends_header by lia.
       cbv zeta. fold b3 b2 b1 b0. cbn [app].
       rewrite (loopback_exchange_raises calls srv _ (_packet_id self) e)
         by (exact Hraised || (unfold len in *; simpl length; lia)).
       reflexivity. }
  destruct (write_registers_plain (RbcpServer._registers srv) a data
              ltac:(apply Forall_and; split; assumption) Hfits)
    as (t & read_data & registers' & Hwrite).
  destruct (write_registers_read_back _ _ a data read_data t Hc Hwrite)
    as (_ & Hc' & _ & Hread).
  set (srv' := {| RbcpServer._registers := registers';
                  RbcpServer._error_short_message :=
                    RbcpServer._error_short_message srv |}).
  (* the write *)
  assert (first
          = ({| _packet_id := (_packet_id self + 1) mod 256 |},
             {| Loopback.server := srv'; Loopback.serving := true;
                Loopback.replies := [] |},
             Returned data)) as Hfirst.
  { subst first. unfold write.
    rewrite (client_header HEADER_WRITE a (len data) (_packet_id self)) by lia.
    change (HEADER_WRITE =? HEADER_READ) with false. cbv iota.
    fold b3 b2 b1 b0.
    pose proof Hhandled as Hserved.
    rewrite Hwrite in Hserved. cbn [snd] in Hserved. fold srv' in Hserved.
    cbn [app] in Hserved |- *.
    subst link0.
    pose proof (λ Hp Hr, loopback_exchange calls srv srv' _ _ (_packet_id self)
                           Hp Hr Hserved) as Hx.
    rewrite Hx by (unfold len in *; simpl length; lia). clear Hx.
    change (0xff :: 0x88 :: _packet_id self :: len data :: b3 :: b2 :: b1 :: b0 :: data)
      with ([0xff; 0x88; _packet_id self; len data; b3; b2; b1; b0] ++ data).
    rewrite check_packet_reply. cbn [Z.land Pos.land Z.eqb].
    rewrite slice_suffix by (unfold HEADER_SIZE, len in *; simpl length; lia).
    do 3 f_equal.
    destruct (Z.eqb_spec (_packet_id self + 1) 256) as [E|E];
      [rewrite E; reflexivity | rewrite Z.mod_small by lia; reflexivity]. }
  (* the read *)
  assert (second
          = ({| _packet_id := ((_packet_id self + 1) mod 256 + 1) mod 256 |},
             {| Loopback.server := srv'; Loopback.serving := true;
                Loopback.replies := [] |},
             Returned data)) as Hsecond.
  { subst second. rewrite Hfirst. cbn [fst snd].
    pose proof (Z.mod_pos_bound (_packet_id self + 1) 256 ltac:(lia)) as Hid1.
    rewrite read_sends_header by (cbn [_packet_id]; lia).
    cbv zeta. cbn [_packet_id]. fold b3 b2 b1 b0.
    set (id1 := (_packet_id self + 1) mod 256) in *.
    pose proof (on_datagram_read srv' id1 (len data) b3 b2 b1 b0 []
                  ltac:(lia) ltac:(lia) H3 H2 H1 H0) as Hserved.
    cbv zeta in Hserved. rewrite Haddr in Hserved.
    cbn [RbcpServer._registers srv'] in Hserved.
    rewrite Hread in Hserved.
    pose proof (λ Hp Hr, loopback_exchange calls' srv' srv' _ _ id1 Hp Hr Hserved)
      as Hx.
    rewrite Hx by (unfold len in *; rewrite ?length_app; simpl length; lia).
    clear Hx.
    rewrite check_packet_reply. cbn [Z.land Pos.land Z.eqb].
    rewrite slice_suffix
      by (unfold HEADER_SIZE, len in *; rewrite length_app; simpl length; lia).
    reflexivity. }
  rewrite Hfirst, Hsecond. cbn [fst snd Loopback.serving Loopback.replies _packet_id].
  repeat split; try reflexivity.
  rewrite Zplus_mod_idemp_l. f_equal. lia.
Qed.

Lemma loopback_write_then_read_witness :
  let link0 :=
    {| Loopback.server :=
         {| RbcpServer._registers :=
              [ {| RbcpServer._memory := [0; 0; 0; 0];
                   RbcpServer._memory_type := Bytearray;
                   RbcpServer._memory_size := 4;
                   RbcpServer._start_address := 0xffffff00;
                   RbcpServer._read_callbacks := ∅;
                   RbcpServer._write_callbacks := ∅ |} ];
            RbcpServer._error_short_message := 0 |};
       Loopback.serving := true; Loopback.replies := [] |} in
  let first :=
    write 1 Loopback.sock {| _packet_id := 255 |} link0 (VInt 0xffffff01) [7; 9] in
  let second :=
    read 1 Loopback.sock (fst (fst first)) (snd (fst first))
      (VInt 0xffffff01) (VInt (len [7; 9])) in
  snd first = Returned [7; 9]
  /\ snd second = Returned [7; 9]
  /\ Loopback.serving (snd (fst second)) = true
  /\ Loopback.replies (snd (fst second)) = []
  /\ _packet_id (fst (fst second)) = (255 + 2) mod 256.
Proof.
  refine (proj1 (loopback_write_then_read 0 0 {| _packet_id := 255 |}
                   {| RbcpServer._registers :=
                        [ {| RbcpServer._memory := [0; 0; 0; 0];
                             RbcpServer._memory_type := Bytearray;
                             RbcpServer._memory_size := 4;
                             RbcpServer._start_address := 0xffffff00;
                             RbcpServer._read_callbacks := ∅;
                             RbcpServer._write_callbacks := ∅ |} ];
                      RbcpServer._error_short_message := 0 |}
                   0xffffff01 [7; 9] _ _ _ _) _ _ _ _);
    try (unfold len; simpl; lia).
  - repeat constructor.
  - repeat constructor.
  - repeat constructor.
  - apply Exists_cons_hd. reflexivity.
Defined.

(** X15: when no register of the server contains the requested range, the
    client's read raises RbcpBusError; the server is unchanged, its reply is
    consumed and the packet id has advanced. *)
Theorem loopback_read_bus_error (calls : nat) (self : Rbcp)
    (srv : RbcpServer.RbcpServer) (a n : Z) :
  0 <= a -> 0 <= n <= 255 -> a + n <= 0xffffffff ->
  0 <= _packet_id self <= 255 ->
  Forall (λ x, RbcpServer.check_address_range x a n = false)
    (RbcpServer._registers srv) ->
  let link0 :=
    {| Loopback.server := srv; Loopback.serving := true; Loopback.replies := [] |} in
  read (S calls) Loopback.sock self link0 (VInt a) (VInt n)
  = ({| _packet_id := (_packet_id self + 1) mod 256 |}, link0,
     Failed (Raised RbcpBusError)).
Proof.
  intros Ha Hn Hsum Hid Hmiss link0.
  set (b3 := Z.land (Z.shiftr (Z.land a 0xff000000) 24) 0xff).
  set (b2 := Z.land (Z.shiftr (Z.land a 0x00ff0000) 16) 0xff).
  set (b1 := Z.land (Z.shiftr (Z.land a 0x0000ff00) 8) 0xff).
  set (b0 := Z.land (Z.shiftr (Z.land a 0x000000ff) 0) 0xff).
  pose proof (land_byte_range (Z.shiftr (Z.land a 0xff000000) 24)) as H3.
  pose proof (land_byte_range (Z.shiftr (Z.land a 0x00ff0000) 16)) as H2.
  pose proof (land_byte_range (Z.shiftr (Z.land a 0x0000ff00) 8)) as H1.
  pose proof (land_byte_range (Z.shiftr (Z.land a 0x000000ff) 0)) as H0.
  fold b3 in H3. fold b2 in H2. fold b1 in H1. fold b0 in H0.
  assert (Z.lor (Z.shiftl b3 24) (Z.lor (Z.shiftl b2 16) (Z.lor (Z.shiftl b1 8) b0)) = a)
    as Haddr.
  { pose proof (address_bytes_recombine a ltac:(lia)) as Hr.
    cbn [struct_unpack_BE_I] in Hr. injection Hr as Hr. exact Hr. }
  rewrite read_sends_header by lia.
  cbv zeta. fold b3 b2 b1 b0.
  pose proof (on_datagram_read srv (_packet_id self) n b3 b2 b1 b0 []
                Hid Hn H3 H2 H1 H0) as Hserved.
  cbv zeta in Hserved. rewrite Haddr in Hserved.
  rewrite (read_registers_all_miss _ _ _ Hmiss) in Hserved. cbn [snd] in Hserved.
  subst link0.
  pose proof (λ Hp Hr, loopback_exchange calls srv srv _ _ (_packet_id self)
                         Hp Hr Hserved) as Hx.
  rewrite Hx by (unfold len in *; rewrite ?length_app; simpl length; lia).
  clear Hx. rewrite check_packet_reply. reflexivity.
Qed.

Lemma loopback_read_bus_error_witness :
  read 1 Loopback.sock {| _packet_id := 9 |}
    {| Loopback.server :=
         {| RbcpServer._registers :=
              [ {| RbcpServer._memory := [0; 0; 0; 0]; RbcpServer._memory_type := Py.Bytearray;
                   RbcpServer._memory_size := 4;
                   RbcpServer._start_address := 16;
                   RbcpServer._read_callbacks := ∅;
                   RbcpServer._write_callbacks := ∅ |} ];
            RbcpServer._error_short_message := 0 |};
       Loopback.serving := true; Loopback.replies := [] |}
    (VInt 18) (VInt 3)
  = ({| _packet_id := (9 + 1) mod 256 |},
     {| Loopback.server :=
          {| RbcpServer._registers :=
               [ {| RbcpServer._memory := [0; 0; 0; 0]; RbcpServer._memory_type := Py.Bytearray;
                    RbcpServer._memory_size := 4;
                    RbcpServer._start_address := 16;
                    RbcpServer._read_callbacks := ∅;
                    RbcpServer._write_callbacks := ∅ |} ];
             RbcpServer._error_short_message := 0 |};
        Loopback.serving := true; Loopback.replies := [] |},
     Failed (Raised RbcpBusError)).
Proof.
  match goal with |- read _ _ ?c {| Loopback.server := ?srv |} _ _ = _ =>
    apply (loopback_read_bus_error 0 c srv 18 3)
  end; try (simpl; lia).
  repeat constructor.
Defined.

End ClientAndServer.

(** ** The records of the data generator *)

Section GeneratedRecords.
Import Py RbcpServer.

Lemma next_count_range (count : Z) :
  0 <= count < 0xffffffff -> 0 <= next_count count < 0xffffffff.
Proof.
  intros Hc. unfold next_count.
  destruct (Z.eqb_spec (count + 1) 0xffffffff); lia.
Qed.

Lemma next_count_mod (count : Z) :
  0 <= count < 0xffffffff -> next_count count = (count + 1) mod 0xffffffff.
Proof.
  intros Hc. unfold next_count.
  destruct (Z.eqb_spec (count + 1) 0xffffffff) as [E|E].
  - rewrite E. reflexivity.
  - rewrite Z.mod_small by lia. reflexivity.
Qed.

Lemma iter_next_count (units : nat) (count : Z) :
  0 <= count < 0xffffffff ->
  Nat.iter units next_count count = (count + Z.of_nat units) mod 0xffffffff.
Proof.
  intros Hc. induction units as [|units IH].
  - simpl. rewrite Z.add_0_r, Z.mod_small by lia. reflexivity.
  - rewrite Nat.iter_succ, IH, next_count_mod by (apply Z.mod_pos_bound; lia).
    rewrite Zplus_mod_idemp_l. f_equal. lia.
Qed.

Lemma iter_next_count_shift (units : nat) (count : Z) :
  Nat.iter units next_count (next_count count)
  = next_count (Nat.iter units next_count count).
Proof. rewrite <- Nat.iter_succ_r. apply Nat.iter_succ. Qed.

Lemma length_filled_units (count : Z) (units : nat) :
  length (filled_units count units) = (8 * units)%nat.
Proof.
  revert count. induction units as [|units IH]; intros count; [reflexivity|].
  cbn [filled_units]. rewrite length_app, IH. simpl length. lia.
Qed.

(** One pass of the loop of [create_data] on a data-unit that is still
    zero. *)
Lemma fill_unit (filled rest : list Z) (data_unit b0 b1 b2 b3 : Z) :
  len filled = 8 * data_unit ->
  (data ← setitem (filled ++ repeat 0 8 ++ rest) (8 * data_unit) 0xa5;
   store_count_bytes data (8 * data_unit + 4) [b0; b1; b2; b3])
  = Ok (filled ++ [0xa5; 0; 0; 0; b0; b1; b2; b3] ++ rest).
Proof.
  intros Hfilled. pose proof (len_nonneg filled) as Hf.
  pose proof (len_nonneg rest) as Hr.
  assert (forall tail, length tail = (8 + length rest)%nat ->
            len (filled ++ tail) = 8 * data_unit + 8 + len rest) as Hlen.
  { intros tail Htail. rewrite len_app, Hfilled. unfold len. rewrite Htail. lia. }
  assert (forall (k : nat) (index : Z), index = 8 * data_unit + Z.of_nat k ->
            Z.to_nat index = (length filled + k)%nat) as Hidx.
  { intros k index ->. unfold len in Hfilled. lia. }
  change (repeat 0 8 ++ rest) with (0 :: 0 :: 0 :: 0 :: 0 :: 0 :: 0 :: 0 :: rest).
  rewrite setitem_in_range by (rewrite Hlen by reflexivity; lia).
  cbn [mbind result_bind bind_flip bind store_count_bytes].
  rewrite (Hidx 0%nat (8 * data_unit)), insert_app_r by lia. simpl (<[_ := _]> _).
  rewrite setitem_in_range by (rewrite Hlen by reflexivity; lia).
  cbn [mbind result_bind bind_flip bind].
  rewrite (Hidx 4%nat (8 * data_unit + 4)), insert_app_r by lia.
  simpl (<[_ := _]> _).
  rewrite setitem_in_range by (rewrite Hlen by reflexivity; lia).
  cbn [mbind result_bind bind_flip bind].
  rewrite (Hidx 5%nat (8 * data_unit + 4 + 1)), insert_app_r by lia.
  simpl (<[_ := _]> _).
  rewrite setitem_in_range by (rewrite Hlen by reflexivity; lia).
  cbn [mbind result_bind bind_flip bind].
  rewrite (Hidx 6%nat (8 * data_unit + 4 + 1 + 1)), insert_app_r by lia.
  simpl (<[_ := _]> _).
  rewrite setitem_in_range by (rewrite Hlen by reflexivity; lia).
  cbn [mbind result_bind bind_flip bind].
  rewrite (Hidx 7%nat (8 * data_unit + 4 + 1 + 1 + 1)), insert_app_r by lia.
  simpl (<[_ := _]> _).
  reflexivity.
Qed.

Lemma create_data_loop_fills (iterations : nat) (count : Z) (filled rest : list Z)
    (data_unit : Z) :
  0 <= count < 0xffffffff -> len filled = 8 * data_unit ->
  create_data_loop 8 count (filled ++ repeat 0 (8 * iterations) ++ rest)
    data_unit iterations
  = Ok (filled ++ filled_units count iterations ++ rest,
        Nat.iter iterations next_count count).
Proof.
  revert count filled data_unit.
  induction iterations as [|iterations IH]; intros count filled data_unit Hc Hfilled.
  - reflexivity.
  - cbn [create_data_loop]. unfold struct_pack_BE_L.
    destruct (Z.leb_spec 0 count); [|lia].
    destruct (Z.leb_spec count 0xffffffff); [|lia].
    cbn [andb mbind result_bind bind_flip bind].
    replace (8 * S iterations)%nat with (8 + 8 * iterations)%nat by lia.
    rewrite repeat_app, <- app_assoc.
    pose proof (fill_unit filled (repeat 0 (8 * iterations) ++ rest) data_unit
                  (Z.land (Z.shiftr count 24) 0xff) (Z.land (Z.shiftr count 16) 0xff)
                  (Z.land (Z.shiftr count 8) 0xff) (Z.land count 0xff) Hfilled)
      as Hfill.
    destruct (setitem (filled ++ repeat 0 8 ++ repeat 0 (8 * iterations) ++ rest)
                (8 * data_unit) 0xa5) as [data1|e];
      cbn [mbind result_bind bind_flip bind] in Hfill |- *; [|discriminate].
    rewrite Hfill. cbn [mbind result_bind bind_flip bind].
    fold (next_count count). fold (filled_unit count).
    rewrite (app_assoc filled (filled_unit count)).
    rewrite IH.
    + rewrite <- app_assoc. cbn [filled_units].
      rewrite <- app_assoc, Nat.iter_succ_r. reflexivity.
    + apply next_count_range. exact Hc.
    + rewrite len_app, Hfilled. unfold len. simpl. lia.
Qed.

Lemma filled_units_unit (count : Z) (units : nat) (rest : list Z) (u : nat) :
  (u < units)%nat ->
  take 8 (drop (8 * u) (filled_units count units ++ rest))
  = filled_unit (Nat.iter u next_count count).
Proof.
  revert count u. induction units as [|units IH]; intros count u Hu; [lia|].
  cbn [filled_units]. destruct u as [|u].
  - reflexivity.
  - replace (8 * S u)%nat with (length (filled_unit count) + 8 * u)%nat
      by (simpl length; lia).
    rewrite <- app_assoc, drop_app_add'  by reflexivity.
    rewrite IH by lia. rewrite Nat.iter_succ_r. reflexivity.
Qed.

(** X16: the record [create_data(n)] returns, for a generator with data-units
    of 8 bytes whose counter is below 0xffffffff.  For n >= 1 it has n
    data-units: the first n - 1 carry the mark 0xA5, three zero bytes and the
    counter values c, c + 1, ... (modulo 0xffffffff) as four bytes, most
    significant first, and the last one is zero; the counter has advanced by
    n - 1 modulo 0xffffffff, so it stays below 0xffffffff.  For n = 0 the
    record is empty and the generator unchanged; a negative n raises
    ValueError. *)
Theorem create_data_records (self : DataGenerator) (n : Z) :
  _data_unit self = 8 -> 0 <= _count self < 0xffffffff ->
  (1 <= n ->
   exists data self',
     create_data self n = Ok (data, self')
     /\ data = filled_units (_count self) (Z.to_nat (n - 1)) ++ repeat 0 8
     /\ (forall u, 0 <= u < n - 1 ->
           slice (Some (8 * u)) (Some (8 * u + 8)) data
           = filled_unit ((_count self + u) mod 0xffffffff))
     /\ _count self' = (_count self + (n - 1)) mod 0xffffffff
     /\ 0 <= _count self' < 0xffffffff
     /\ _data_unit self' = 8
     /\ _data_unit_count self' = _data_unit_count self)
  /\ (n = 0 -> create_data self n = Ok ([], self))
  /\ (n < 0 -> create_data self n = Raise (ValueError NoMessage)).
Proof.
  intros Hunit Hc. split; [|split].
  - intros Hn. unfold create_data, bytearray. rewrite Hunit.
    destruct (Z.ltb_spec (8 * n) 0); [lia|].
    cbn [mbind result_bind bind_flip bind].
    replace (Z.to_nat (8 * n)) with (8 * Z.to_nat (n - 1 - 0) + 8)%nat by lia.
    rewrite repeat_app.
    pose proof (create_data_loop_fills (Z.to_nat (n - 1 - 0)) (_count self) []
                  (repeat 0 8) 0 Hc eq_refl) as Hloop.
    cbn [app] in Hloop. rewrite Hloop. cbn [mbind result_bind bind_flip bind].
    replace (n - 1 - 0) with (n - 1) by lia.
    eexists _, _. split; [reflexivity|]. split; [reflexivity|].
    cbn [_count _data_unit _data_unit_count].
    rewrite iter_next_count by exact Hc. rewrite Z2Nat.id by lia.
    split; [|split; [reflexivity|split; [|split; reflexivity]]].
    + intros u Hu.
      pose proof (length_filled_units (_count self) (Z.to_nat (n - 1))) as Hlen.
      rewrite slice_range
        by (rewrite ?len_app; unfold len; rewrite ?Hlen; simpl length; lia).
      replace (Z.to_nat (8 * u + 8 - 8 * u)) with 8%nat by lia.
      replace (Z.to_nat (8 * u)) with (8 * Z.to_nat u)%nat by lia.
      rewrite filled_units_unit by lia.
      rewrite iter_next_count by exact Hc. rewrite Z2Nat.id by lia. reflexivity.
    + apply Z.mod_pos_bound. lia.
  - intros ->. destruct self as [unit_ count_ units_].
    cbn [_data_unit] in Hunit. subst unit_. reflexivity.
  - intros Hn. unfold create_data, bytearray. rewrite Hunit.
    destruct (Z.ltb_spec (8 * n) 0); [reflexivity | lia].
Qed.

Lemma create_data_records_witness :
  exists data self',
    create_data {| _data_unit := 8; _count := 0xfffffffd; _data_unit_count := 2 |} 4
    = Ok (data, self')
    /\ data = filled_units 0xfffffffd (Z.to_nat (4 - 1)) ++ repeat 0 8
    /\ (forall u, 0 <= u < 4 - 1 ->
          slice (Some (8 * u)) (Some (8 * u + 8)) data
          = filled_unit ((0xfffffffd + u) mod 0xffffffff))
    /\ _count self' = (0xfffffffd + (4 - 1)) mod 0xffffffff
    /\ 0 <= _count self' < 0xffffffff
    /\ _data_unit self' = 8
    /\ _data_unit_count self' = 2.
Proof.
  refine (proj1 (create_data_records
                   {| _data_unit := 8; _count := 0xfffffffd; _data_unit_count := 2 |}
                   4 eq_refl _) _).
  - simpl. lia.
  - lia.
Defined.

End GeneratedRecords.

(** ** Accounting of the DAQ receive loop *)

Section DaqAccounting.
Import Py DaqClient.

Variable data_unit : Z.
Hypothesis data_unit_pos : 1 <= data_unit.

Lemma on_readable_counts (st : loop_state) (received : list Z) :
  exists calls st',
    on_readable data_unit st received = Ok (calls, st')
    /\ _data_bytes st' = _data_bytes st + len (delivered calls)
    /\ len (delivered calls) mod data_unit = 0
    /\ len (delivered calls) + len (byte_array st')
       = len (byte_array st) + len received
    /\ running_calls calls = 0%nat
    /\ running st' = running st.
Proof.
  unfold on_readable.
  set (buf := byte_array st ++ received).
  assert (len buf = len (byte_array st) + len received) as Hbuf
    by apply len_app.
  pose proof (len_nonneg buf) as Hnn.
  destruct (Z.leb_spec data_unit (len buf)) as [Hge|Hlt].
  - unfold mod_. destruct (Z.eqb_spec data_unit 0) as [E|_]; [lia|].
    cbn [mbind result_bind bind_flip bind].
    pose proof (Z.mod_pos_bound (len buf) data_unit ltac:(lia)) as Hrest.
    destruct (Z.eqb_spec (len buf mod data_unit) 0) as [E|E].
    + eexists _, _. split; [reflexivity|].
      cbn [delivered _data_bytes byte_array running running_calls].
      rewrite app_nil_r. repeat split; try reflexivity; try exact E.
      unfold len at 2. simpl. lia.
    + assert (0 < len buf mod data_unit <= len buf) as Hr by lia.
      eexists _, _. split; [reflexivity|].
      cbn [delivered _data_bytes byte_array running running_calls].
      rewrite app_nil_r, slice_drop_tail, slice_keep_tail by exact Hr.
      assert (len (take (Z.to_nat (len buf - len buf mod data_unit)) buf)
              = len buf - len buf mod data_unit) as Htake
        by (unfold len in *; rewrite length_take; lia).
      assert (len (drop (Z.to_nat (len buf - len buf mod data_unit)) buf)
              = len buf mod data_unit) as Hdrop
        by (unfold len in *; rewrite length_drop; lia).
      rewrite Htake, Hdrop. repeat split; try reflexivity; try lia.
      rewrite Zminus_mod, Z.mod_mod, Z.sub_diag by lia. apply Z.mod_0_l. lia.
  - eexists _, _. split; [reflexivity|].
    cbn [delivered _data_bytes byte_array running running_calls].
    repeat split; try reflexivity.
    + unfold len at 1. simpl. lia.
    + unfold len at 1. simpl. fold buf. lia.
Qed.

Lemma running_calls_app (c1 c2 : list handler_call) :
  running_calls (c1 ++ c2) = (running_calls c1 + running_calls c2)%nat.
Proof.
  induction c1 as [|[b|] c1 IH]; simpl; rewrite ?IH; reflexivity.
Qed.

Lemma iteration_counts (st : loop_state) (ev : select_result) :
  0 <= running st <= 1 ->
  exists calls st',
    iteration data_unit st ev = Ok (calls, st')
    /\ _data_bytes st' = _data_bytes st + len (delivered calls)
    /\ len (delivered calls) mod data_unit = 0
    /\ len (delivered calls) + len (byte_array st')
       = len (byte_array st) + len (received_bytes [ev])
    /\ 0 <= running st' <= 1
    /\ Z.of_nat (running_calls calls) = running st
    /\ running st' = 1 - running st.
Proof.
  intros Hrun. unfold iteration.
  assert (forall calls st1,
            _data_bytes st1 = _data_bytes st + len (delivered calls) ->
            len (delivered calls) mod data_unit = 0 ->
            len (delivered calls) + len (byte_array st1)
            = len (byte_array st) + len (received_bytes [ev]) ->
            running_calls calls = 0%nat -> running st1 = running st ->
            exists calls' st',
              (let '(calls0, st0) := tick st1 in
               Ok (calls ++ calls0, st0)) = Ok (calls', st')
              /\ _data_bytes st' = _data_bytes st + len (delivered calls')
              /\ len (delivered calls') mod data_unit = 0
              /\ len (delivered calls') + len (byte_array st')
                 = len (byte_array st) + len (received_bytes [ev])
              /\ 0 <= running st' <= 1
              /\ Z.of_nat (running_calls calls') = running st
              /\ running st' = 1 - running st) as Htick.
  { intros calls st1 Hbytes Hmod Hsum Hcalls Hrunning. unfold tick.
    rewrite Hrunning.
    assert (running st = 0 \/ running st = 1) as [E|E] by lia; rewrite E;
      cbn [Z.add Z.modulo Z.div_eucl Z.pos_div_eucl Z.eqb Pos.add Pos.succ];
      simpl ((_ mod _) =? _);
      eexists _, _; (split; [reflexivity|]);
      rewrite delivered_app, running_calls_app, Hcalls;
      cbn [delivered running_calls _data_bytes byte_array running];
      rewrite ?app_nil_r; repeat split; try assumption; try lia. }
  destruct ev as [received|].
  - destruct (on_readable_counts st received)
      as (calls & st1 & -> & Hbytes & Hmod & Hsum & Hcalls & Hrunning).
    cbn [mbind result_bind bind_flip bind].
    apply Htick; try assumption.
    cbn [received_bytes]. rewrite app_nil_r. exact Hsum.
  - cbn [mbind result_bind bind_flip bind].
    apply Htick; try reflexivity.
    + cbn [delivered]. unfold len at 1. simpl. lia.
    + cbn [delivered received_bytes]. unfold len at 1 4. simpl. lia.
Qed.

Lemma run_loop_counts (evs : list select_result) (st : loop_state) :
  0 <= running st <= 1 ->
  exists calls st',
    run_loop data_unit st evs = Ok (calls, st')
    /\ _data_bytes st' = _data_bytes st + len (delivered calls)
    /\ len (delivered calls) mod data_unit = 0
    /\ len (delivered calls) + len (byte_array st')
       = len (byte_array st) + len (received_bytes evs)
    /\ 0 <= running st' <= 1
    /\ running st' = (running st + Z.of_nat (length evs)) mod 2
    /\ Z.of_nat (running_calls calls) = (running st + Z.of_nat (length evs)) / 2.
Proof.
  revert st. induction evs as [|ev evs IH]; intros st Hrun.
  - cbn [run_loop]. eexists _, _. split; [reflexivity|].
    cbn [delivered received_bytes running_calls length].
    change (Z.of_nat 0) with 0. rewrite (Z.add_0_r (running st)).
    rewrite (Z.mod_small (running st)), (Z.div_small (running st)) by lia.
    unfold len. simpl. repeat split; try lia.
  - cbn [run_loop].
    destruct (iteration_counts st ev Hrun)
      as (c1 & st1 & -> & Hbytes1 & Hmod1 & Hsum1 & Hrun1 & Hcalls1 & Hrunning1).
    cbn [mbind result_bind bind_flip bind].
    destruct (IH st1 Hrun1)
      as (c2 & st2 & -> & Hbytes2 & Hmod2 & Hsum2 & Hrun2 & Hrunning2 & Hcalls2).
    cbn [mbind result_bind bind_flip bind].
    eexists _, _. split; [reflexivity|].
    rewrite delivered_app, running_calls_app, len_app.
    assert (len (received_bytes (ev :: evs))
            = len (received_bytes [ev]) + len (received_bytes evs)) as Hrecv.
    { destruct ev; cbn [received_bytes]; rewrite ?app_nil_r, ?len_app;
        [reflexivity | unfold len at 2; simpl; lia]. }
    assert (received_bytes [ev] = match ev with Readable r => r | NotReadable => [] end)
      as Hone by (destruct ev; cbn [received_bytes]; rewrite ?app_nil_r; reflexivity).
    rewrite Hone in Hrecv, Hsum1.
    split; [lia|]. split; [rewrite Zplus_mod, Hmod1, Hmod2; reflexivity|].
    split; [destruct ev; lia|]. split; [exact Hrun2|].
    cbn [length]. rewrite Nat2Z.inj_succ, Nat2Z.inj_add.
    rewrite Hrunning2, Hcalls2, Hcalls1, Hrunning1.
    assert (running st = 0 \/ running st = 1) as [E|E] by lia; rewrite E.
    + split; [f_equal; lia|].
      replace (0 + Z.succ (Z.of_nat (length evs))) with (1 - 0 + Z.of_nat (length evs))
        by lia. lia.
    + replace (1 + Z.succ (Z.of_nat (length evs)))
        with (Z.of_nat (length evs) + 1 * 2) by lia.
      rewrite Z_mod_plus_full, Z_div_plus_full by lia.
      replace (1 - 1 + Z.of_nat (length evs)) with (Z.of_nat (length evs)) by lia.
      split; [reflexivity | lia].
Qed.

End DaqAccounting.

(** X17: with a data unit d >= 1, after any sequence of passes of the receive
    loop the byte counter of the thread is the number of bytes handed to
    [on_daq_data], it is a multiple of d, and together with the bytes still
    buffered (what [_data_rest] records when the loop is left) it is the
    number of bytes received. *)
Theorem daq_byte_accounting (data_unit : Z) (evs : list DaqClient.select_result) :
  1 <= data_unit ->
  exists calls st,
    DaqClient.run_loop data_unit DaqClient.loop_start evs = Py.Ok (calls, st)
    /\ DaqClient._data_bytes st = Py.len (DaqClient.delivered calls)
    /\ DaqClient._data_bytes st mod data_unit = 0
    /\ DaqClient._data_bytes st + Py.len (DaqClient.byte_array st)
       = Py.len (DaqClient.received_bytes evs).
Proof.
  intros Hd.
  destruct (run_loop_counts data_unit Hd evs DaqClient.loop_start)
    as (calls & st & Hrun & Hbytes & Hmod & Hsum & _);
    [simpl; lia|].
  exists calls, st. cbn [DaqClient._data_bytes DaqClient.loop_start] in Hbytes.
  cbn [DaqClient.byte_array DaqClient.loop_start] in Hsum.
  split; [exact Hrun|]. rewrite Hbytes, Z.add_0_l.
  split; [reflexivity|]. split; [exact Hmod|].
  rewrite Hsum. unfold Py.len at 1. simpl. reflexivity.
Qed.

Lemma daq_byte_accounting_witness :
  exists calls st,
    DaqClient.run_loop 8 DaqClient.loop_start
      [DaqClient.Readable [1; 2; 3; 4; 5; 6; 7; 8; 9; 10; 11];
       DaqClient.NotReadable;
       DaqClient.Readable [12; 13; 14; 15; 16; 17]] = Py.Ok (calls, st)
    /\ DaqClient._data_bytes st = Py.len (DaqClient.delivered calls)
    /\ DaqClient._data_bytes st mod 8 = 0
    /\ DaqClient._data_bytes st + Py.len (DaqClient.byte_array st)
       = Py.len (DaqClient.received_bytes
                   [DaqClient.Readable [1; 2; 3; 4; 5; 6; 7; 8; 9; 10; 11];
                    DaqClient.NotReadable;
                    DaqClient.Readable [12; 13; 14; 15; 16; 17]]).
Proof. apply (daq_byte_accounting 8). lia. Defined.

(** X18: [on_daq_running] is called in every second pass of the receive loop,
    readable or not: after k passes it has been called k / 2 times (rounded
    down) and the pass counter [running] holds k mod 2. *)
Theorem daq_running_every_second_pass (data_unit : Z)
    (evs : list DaqClient.select_result) :
  1 <= data_unit ->
  exists calls st,
    DaqClient.run_loop data_unit DaqClient.loop_start evs = Py.Ok (calls, st)
    /\ DaqClient.running_calls calls = (length evs / 2)%nat
    /\ DaqClient.running st = Z.of_nat (length evs mod 2).
Proof.
  intros Hd.
  destruct (run_loop_counts data_unit Hd evs DaqClient.loop_start)
    as (calls & st & Hrun & _ & _ & _ & _ & Hrunning & Hcalls);
    [simpl; lia|].
  exists calls, st. split; [exact Hrun|].
  cbn [DaqClient.running DaqClient.loop_start] in Hrunning, Hcalls.
  rewrite Z.add_0_l in Hrunning, Hcalls.
  split.
  - apply Nat2Z.inj. rewrite Hcalls, Nat2Z.inj_div. reflexivity.
  - rewrite Hrunning, Nat2Z.inj_mod. reflexivity.
Qed.

Lemma daq_running_every_second_pass_witness :
  exists calls st,
    DaqClient.run_loop 8 DaqClient.loop_start
      [DaqClient.Readable [1; 2; 3]; DaqClient.NotReadable; DaqClient.NotReadable;
       DaqClient.Readable [4; 5; 6; 7; 8]; DaqClient.NotReadable]
    = Py.Ok (calls, st)
    /\ DaqClient.running_calls calls = (5 / 2)%nat
    /\ DaqClient.running st = Z.of_nat (5 mod 2).
Proof. apply (daq_running_every_second_pass 8). lia. Defined.

(** X19: a handler whose data unit is 0 stops the loop with ZeroDivisionError
    in the first pass in which the socket is readable, whatever [recv]
    returned; passes before it in which nothing is readable run as usual. *)
Theorem daq_zero_data_unit_raises (quiet : nat) (received : list Z)
    (evs : list DaqClient.select_result) :
  DaqClient.run_loop 0 DaqClient.loop_start
    (repeat DaqClient.NotReadable quiet ++ DaqClient.Readable received :: evs)
  = Py.Raise Py.ZeroDivisionError.
Proof.
  assert (forall st,
            DaqClient.run_loop 0 st
              (repeat DaqClient.NotReadable quiet ++ DaqClient.Readable received :: evs)
            = Py.Raise Py.ZeroDivisionError) as H; [|apply H].
  induction quiet as [|quiet IH]; intros st.
  - cbn [repeat app DaqClient.run_loop]. unfold DaqClient.iteration, DaqClient.on_readable.
    pose proof (len_nonneg (DaqClient.byte_array st ++ received)) as Hnn.
    destruct (Z.leb_spec 0 (Py.len (DaqClient.byte_array st ++ received))); [|lia].
    reflexivity.
  - cbn [repeat app DaqClient.run_loop]. unfold DaqClient.iteration.
    cbn [mbind result_bind Py.bind_flip Py.bind].
    destruct (DaqClient.tick st) as [calls st1].
    cbn [mbind result_bind Py.bind_flip Py.bind]. rewrite IH. reflexivity.
Qed.

(** ** A text session over several receives *)

Section TextSession.
Import Py Cui.

Variable on_data : list Z -> bool.
Hypothesis on_data_goes_on : forall msg, on_data msg = true.

Local Abbreviation ends_with_terminator :=
  (fun msg : list Z =>
     exists body terminator,
       msg = body ++ terminator
       /\ (terminator = [CR; LF] \/ terminator = [LF] \/ terminator = [CR])).

Lemma on_recv_keeps_bytes (self : SessionThread) (chunk : list Z) :
  chunk <> [] ->
  let res := on_recv on_data self chunk in
  continue res = true
  /\ match message res with
     | Some msg =>
         ends_with_terminator msg
         /\ msg ++ _rest_byte_data (session res) = _rest_byte_data self ++ chunk
     | None => _rest_byte_data (session res) = _rest_byte_data self ++ chunk
     end.
Proof.
  intros Hchunk res. subst res. unfold on_recv.
  destruct chunk as [|c chunk]; [congruence|].
  pose (buf := _rest_byte_data self ++ c :: chunk).
  change (_rest_byte_data self ++ c :: chunk) with buf at 2 3.
  assert (match _rest_byte_data self with
          | [] => c :: chunk
          | _ :: _ => _rest_byte_data self ++ c :: chunk
          end = buf) as ->.
  { subst buf. destruct (_rest_byte_data self); reflexivity. }
  destruct (find_delimiter_position_cases (_data_handler self) buf)
    as [(terminator & pre & post & Hbuf & Hcase & ->) | (Hcr & Hlf & ->)].
  - destruct (cut_after_terminator pre terminator post) as (Hpos & Hmsg & Hrest).
    cbv zeta in Hpos, Hmsg, Hrest. rewrite Hpos.
    subst buf. rewrite !Hbuf, ?Hmsg, ?Hrest, !on_data_goes_on.
    cbn [negb continue message session _rest_byte_data].
    split; [reflexivity|]. split.
    + exists pre, terminator. split; [reflexivity|].
      destruct Hcase as [[-> _]|[[-> _]|[-> _]]]; auto.
    + rewrite <- app_assoc. reflexivity.
  - cbn [Z.leb Z.compare continue message session _rest_byte_data]. auto.
Qed.

Lemma run_loop_keeps_bytes (chunks : list (list Z)) (self : SessionThread) :
  Forall (fun chunk => chunk <> []) chunks ->
  concat (fst (run_loop on_data self chunks))
    ++ _rest_byte_data (snd (run_loop on_data self chunks))
  = _rest_byte_data self ++ concat chunks
  /\ (length (fst (run_loop on_data self chunks)) <= length chunks)%nat
  /\ Forall ends_with_terminator (fst (run_loop on_data self chunks)).
Proof.
  intros Hchunks. revert self.
  induction Hchunks as [|chunk chunks Hchunk _ IH]; intros self.
  - cbn [run_loop fst snd concat length]. rewrite app_nil_r. auto.
  - cbn [run_loop].
    destruct (on_recv_keeps_bytes self chunk Hchunk) as [Hgo Hmsg].
    cbv zeta in Hgo, Hmsg. rewrite Hgo.
    destruct (IH (session (on_recv on_data self chunk))) as (Hbytes & Hcount & Hends).
    destruct (run_loop on_data (session (on_recv on_data self chunk)) chunks)
      as [handed self'].
    cbn [fst snd] in *.
    destruct (message (on_recv on_data self chunk)) as [msg|].
    + destruct Hmsg as [Hend Hmsg]. cbn [app concat length].
      rewrite <- app_assoc, Hbytes, app_assoc, Hmsg, <- app_assoc.
      split; [reflexivity|]. split; [lia|]. constructor; assumption.
    + cbn [app concat length]. rewrite Hbytes, Hmsg, <- app_assoc.
      split; [reflexivity|]. split; [lia | exact Hends].
Qed.

End TextSession.

(** X20: a text session whose handler never ends it, over receives that each
    return some bytes: the messages handed to [on_data], in order, followed
    by the bytes the session keeps, are exactly the bytes it kept before
    followed by the bytes received; every message ends with CR LF, LF or CR;
    and each receive hands over at most one message, so a second line that
    arrived in the same receive waits for the next one. *)
Theorem text_session_keeps_every_byte (on_data : list Z -> bool)
    (self : Cui.SessionThread) (chunks : list (list Z)) :
  (forall msg, on_data msg = true) ->
  Forall (fun chunk => chunk <> []) chunks ->
  let handed := fst (Cui.run_loop on_data self chunks) in
  let self' := snd (Cui.run_loop on_data self chunks) in
  concat handed ++ Cui._rest_byte_data self'
  = Cui._rest_byte_data self ++ concat chunks
  /\ (length handed <= length chunks)%nat
  /\ Forall (fun msg =>
               exists body terminator,
                 msg = body ++ terminator
                 /\ (terminator = [Cui.CR; Cui.LF] \/ terminator = [Cui.LF]
                     \/ terminator = [Cui.CR])) handed.
Proof.
  intros Hgo Hchunks handed self'.
  exact (run_loop_keeps_bytes on_data Hgo chunks self Hchunks).
Qed.

Lemma text_session_keeps_every_byte_witness :
  let chunks := [[97; 10; 98; 10]; [99]; [13; 10; 100]] in
  let start :=
    {| Cui._data_handler := Cui.TextHandler__init__; Cui._rest_byte_data := [] |} in
  let handed := fst (Cui.run_loop (fun _ => true) start chunks) in
  let self' := snd (Cui.run_loop (fun _ => true) start chunks) in
  concat handed ++ Cui._rest_byte_data self'
  = Cui._rest_byte_data start ++ concat chunks
  /\ (length handed <= length chunks)%nat
  /\ Forall (fun msg =>
               exists body terminator,
                 msg = body ++ terminator
                 /\ (terminator = [Cui.CR; Cui.LF] \/ terminator = [Cui.LF]
                     \/ terminator = [Cui.CR])) handed.
Proof.
  apply (text_session_keeps_every_byte (fun _ => true)).
  - reflexivity.
  - repeat constructor; discriminate.
Defined.

(** ** The reply a command client waits for *)

Section ClientReceive.
Import Py Cui.

Variable prompt : list Z.

(** A pass that leaves the loop of [_receive] running: nothing readable, or
    some bytes without the prompt in them. *)
Local Abbreviation goes_on :=
  (fun ev : select_result =>
     match ev with
     | NotReadable => True
     | Readable read_byte_data =>
         read_byte_data <> [] /\ ~ contains read_byte_data prompt
     end).

Lemma find_misses (byte_data : list Z) :
  ~ contains byte_data prompt -> (0 <=? find byte_data prompt) = false.
Proof.
  intros Hno. unfold find.
  destruct (find_from_spec prompt byte_data 0)
    as [[-> _] | (pre & post & Hl & _)]; [reflexivity|].
  destruct Hno. exists pre, post. exact Hl.
Qed.

Lemma receive_loop_goes_on (strip_prompt : bool) (evs rest : list select_result)
    (byte_data : list Z) :
  Forall goes_on evs ->
  _receive_loop prompt strip_prompt byte_data (evs ++ rest)
  = _receive_loop prompt strip_prompt (byte_data ++ received_bytes evs) rest.
Proof.
  intros Hevs. revert byte_data.
  induction Hevs as [|ev evs Hev _ IH]; intros byte_data.
  - cbn [app received_bytes]. rewrite app_nil_r. reflexivity.
  - destruct ev as [read_byte_data|]; cbn [app _receive_loop received_bytes].
    + destruct Hev as [Hsome Hno].
      destruct read_byte_data as [|b read_byte_data]; [congruence|].
      rewrite (find_misses _ Hno), IH, <- app_assoc. reflexivity.
    + apply IH.
Qed.

End ClientReceive.

(** X21: what [CommandClient._receive] returns.  Over passes in which nothing
    is readable or the bytes received hold no prompt, the bytes accumulate
    and the loop goes on, also when the prompt arrives split over two
    receives.  The first receive that holds the prompt ends the loop with
    all bytes received so far, cut before the first prompt of that receive
    when [strip_prompt] is set (bytes after it are dropped).  An empty
    receive ends the loop with None, whatever was received before. *)
Theorem receive_returns_at_prompt (prompt : list Z) (strip_prompt : bool)
    (evs rest : list Cui.select_result) :
  Forall (fun ev => match ev with
                    | Cui.NotReadable => True
                    | Cui.Readable read_byte_data =>
                        read_byte_data <> [] /\ ~ Cui.contains read_byte_data prompt
                    end) evs ->
  Cui._receive prompt strip_prompt evs = None
  /\ Cui._receive prompt strip_prompt (evs ++ Cui.Readable [] :: rest) = Some None
  /\ (forall pre post,
        pre ++ prompt ++ post <> [] ->
        (forall pre' post', pre ++ prompt ++ post = pre' ++ prompt ++ post' ->
                            (length pre <= length pre')%nat) ->
        Cui._receive prompt strip_prompt
          (evs ++ Cui.Readable (pre ++ prompt ++ post) :: rest)
        = Some (Some (Cui.received_bytes evs
                      ++ (if strip_prompt then pre else pre ++ prompt ++ post)))).
Proof.
  intros Hevs. unfold Cui._receive. split; [|split].
  - rewrite <- (app_nil_r evs), (receive_loop_goes_on prompt) by exact Hevs.
    reflexivity.
  - rewrite (receive_loop_goes_on prompt) by exact Hevs. reflexivity.
  - intros pre post Hsome Hfirst.
    rewrite (receive_loop_goes_on prompt) by exact Hevs.
    cbn [Cui._receive_loop app].
    destruct (pre ++ prompt ++ post) as [|b chunk] eqn:Hchunk; [congruence|].
    rewrite <- Hchunk in *. clear Hchunk b chunk.
    unfold Py.find.
    destruct (find_from_spec prompt (pre ++ prompt ++ post) 0)
      as [[_ Hno] | (pre1 & post1 & Hl & -> & Hmin)].
    { destruct (Hno pre post eq_refl). }
    assert (length pre1 = length pre) as Hlen.
    { apply Nat.le_antisymm; [apply (Hmin pre post eq_refl) | apply (Hfirst pre1 post1 Hl)]. }
    assert (pre1 = pre) as ->.
    { apply (f_equal (take (length pre))) in Hl.
      rewrite take_app_length in Hl. rewrite <- Hlen, take_app_length in Hl.
      congruence. }
    pose proof (len_nonneg pre) as Hp.
    destruct (Z.leb_spec 0 (0 + Py.len pre)); [|lia].
    destruct strip_prompt; [|reflexivity].
    rewrite slice_range
      by (try rewrite (len_app pre); pose proof (len_nonneg (prompt ++ post)); lia).
    change (drop (Z.to_nat 0) (pre ++ prompt ++ post)) with (pre ++ prompt ++ post).
    replace (Z.to_nat (0 + Py.len pre - 0)) with (length pre)
      by (unfold Py.len; lia).
    rewrite take_app_length. reflexivity.
Qed.

Lemma receive_returns_at_prompt_witness :
  Cui._receive [62; 32] true
    ([Cui.Readable [79; 75; 13; 10; 62]; Cui.NotReadable; Cui.Readable [32; 97]]
     ++ Cui.Readable ([98] ++ [62; 32] ++ [99; 62; 32]) :: [])
  = Some (Some (Cui.received_bytes
                  [Cui.Readable [79; 75; 13; 10; 62]; Cui.NotReadable;
                   Cui.Readable [32; 97]]
                ++ [98])).
Proof.
  refine (proj2 (proj2 (receive_returns_at_prompt [62; 32] true
            [Cui.Readable [79; 75; 13; 10; 62]; Cui.NotReadable; Cui.Readable [32; 97]]
            [] _)) [98] [99; 62; 32] _ _).
  - repeat constructor; try discriminate.
    + intros (pre & post & H).
      destruct pre as [|? [|? [|? [|? [|? pre]]]]]; try discriminate;
        destruct pre; discriminate.
    + intros (pre & post & H).
      destruct pre as [|? [|? pre]]; try discriminate; destruct pre; discriminate.
  - discriminate.
  - intros pre' post' H.
    destruct pre' as [|? pre']; [discriminate | simpl; lia].
Defined.

(** ** The stream of a generator session and the DAQ client *)

Section GeneratedStream.
Import Py RbcpServer.

Lemma create_data_shape (self : DataGenerator) (n : Z) :
  _data_unit self = 8 -> 0 <= _count self < 0xffffffff -> 0 <= n ->
  exists data self',
    create_data self n = Ok (data, self')
    /\ len data = 8 * n
    /\ _data_unit self' = 8
    /\ 0 <= _count self' < 0xffffffff
    /\ _data_unit_count self' = _data_unit_count self.
Proof.
  intros Hunit Hc Hn. unfold create_data, bytearray. rewrite Hunit.
  destruct (Z.ltb_spec (8 * n) 0); [lia|].
  cbn [mbind result_bind bind_flip bind].
  destruct (Z.eq_dec n 0) as [->|Hpos].
  - cbn. eexists _, _. split; [reflexivity|]. cbn. auto.
  - replace (Z.to_nat (8 * n)) with (8 * Z.to_nat (n - 1 - 0) + 8)%nat by lia.
    rewrite repeat_app.
    pose proof (create_data_loop_fills (Z.to_nat (n - 1 - 0)) (_count self) []
                  (repeat 0 8) 0 Hc eq_refl) as Hloop.
    cbn [app] in Hloop. rewrite Hloop. cbn [mbind result_bind bind_flip bind].
    eexists _, _. split; [reflexivity|].
    cbn [_count _data_unit _data_unit_count].
    split; [|split; [reflexivity|split; [|reflexivity]]].
    + rewrite len_app. unfold len. rewrite length_filled_units, repeat_length. lia.
    + rewrite iter_next_count by exact Hc. apply Z.mod_pos_bound. lia.
Qed.

Lemma generator_records (passes : list select_writable) (self : DataGenerator) :
  _data_unit self = 8 -> 0 <= _count self < 0xffffffff ->
  0 <= _data_unit_count self ->
  Forall (fun pass =>
            match pass with
            | Writable accepted => 8 * _data_unit_count self <= Z.of_nat accepted
            | WritableSendRaises => False
            | NotWritable => True
            end) passes ->
  exists sent self',
    SessionThreadGen_run self passes = Ok (sent, self')
    /\ Forall (fun data => len data = 8 * _data_unit_count self) sent
    /\ length sent
       = length (List.filter (fun pass => match pass with
                                     | Writable _ => true
                                     | _ => false
                                     end) passes)
    /\ _data_unit_count self' = _data_unit_count self.
Proof.
  intros Hunit Hc Hn Hpasses. revert self Hunit Hc Hn Hpasses.
  induction passes as [|pass passes IH]; intros self Hunit Hc Hn Hpasses.
  - eexists _, _. split; [reflexivity|]. auto.
  - apply Forall_cons in Hpasses as [Hpass Hpasses].
    cbn [SessionThreadGen_run].
    destruct pass as [accepted| |]; [|destruct Hpass|].
    + destruct (create_data_shape self (_data_unit_count self) Hunit Hc Hn)
        as (data & self1 & -> & Hlen & Hunit1 & Hc1 & Hn1).
      cbn [mbind result_bind bind_flip bind].
      destruct (IH self1) as (sent & self' & -> & Hsent & Hcount & Hn');
        [exact Hunit1 | exact Hc1 | lia | rewrite Hn1; exact Hpasses |].
      cbn [mbind result_bind bind_flip bind].
      eexists _, _. split; [reflexivity|]. rewrite Hn1 in Hsent, Hn'.
      split; [|split; [cbn [List.filter length]; lia | exact Hn']].
      constructor; [|exact Hsent].
      rewrite take_ge by (unfold len in Hlen; lia). exact Hlen.
    + destruct (IH self Hunit Hc Hn Hpasses) as (sent & self' & -> & Hsent & Hcount & Hn').
      eexists _, _. split; [reflexivity|]. auto.
Qed.

Lemma len_concat_records (sent : list (list Z)) (size : Z) :
  Forall (fun data => len data = size) sent ->
  len (concat sent) = size * Z.of_nat (length sent).
Proof.
  induction 1 as [|data sent Hdata _ IH]; [unfold len; simpl; lia|].
  cbn [concat length]. rewrite len_app, Hdata, IH. lia.
Qed.

End GeneratedStream.

(** X22: a generator session whose [send] always takes the whole record puts
    one record of 8 * data_unit_count bytes on the connection in every pass
    in which the socket is writable; and however the connection cuts that
    stream into receives, a DAQ client with data unit 8 hands every byte of
    it to [on_daq_data] and keeps none in its buffer. *)
Theorem generator_stream_reaches_daq (self : RbcpServer.DataGenerator)
    (passes : list RbcpServer.select_writable) :
  RbcpServer._data_unit self = 8 ->
  0 <= RbcpServer._count self < 0xffffffff ->
  0 <= RbcpServer._data_unit_count self ->
  Forall (fun pass =>
            match pass with
            | RbcpServer.Writable accepted =>
                8 * RbcpServer._data_unit_count self <= Z.of_nat accepted
            | RbcpServer.WritableSendRaises => False
            | RbcpServer.NotWritable => True
            end) passes ->
  exists sent self',
    RbcpServer.SessionThreadGen_run self passes = Py.Ok (sent, self')
    /\ Forall (fun data => Py.len data = 8 * RbcpServer._data_unit_count self) sent
    /\ length sent
       = length (List.filter (fun pass => match pass with
                                     | RbcpServer.Writable _ => true
                                     | _ => false
                                     end) passes)
    /\ forall evs,
         DaqClient.received_bytes evs = concat sent ->
         exists calls st,
           DaqClient.run_loop 8 DaqClient.loop_start evs = Py.Ok (calls, st)
           /\ DaqClient.delivered calls = concat sent
           /\ DaqClient.byte_array st = []
           /\ DaqClient._data_bytes st = Py.len (concat sent).
Proof.
  intros Hunit Hc Hn Hpasses.
  destruct (generator_records passes self Hunit Hc Hn Hpasses)
    as (sent & self' & Hrun & Hsent & Hcount & _).
  exists sent, self'. split; [exact Hrun|]. split; [exact Hsent|].
  split; [exact Hcount|]. intros evs Hevs.
  destruct (run_loop_steps 8 ltac:(lia) evs DaqClient.loop_start)
    as (calls & st & Hloop & _ & Hrest & Hbytes); [unfold Py.len; simpl; lia|].
  destruct (run_loop_counts 8 ltac:(lia) evs DaqClient.loop_start)
    as (calls' & st' & Hloop' & Hdata & Hmod & Hsum & _); [simpl; lia|].
  rewrite Hloop in Hloop'. injection Hloop' as <- <-.
  cbn [DaqClient.byte_array DaqClient._data_bytes DaqClient.loop_start app] in *.
  rewrite Hevs in Hbytes, Hsum.
  pose proof (len_concat_records sent _ Hsent) as Hstream.
  pose proof (len_nonneg (DaqClient.byte_array st)) as Hnn.
  assert (Py.len (DaqClient.byte_array st) = 0) as Hzero.
  { clear Hsum. pose proof (f_equal Py.len Hbytes) as Hsum.
    rewrite len_app in Hsum.
    assert (Py.len (DaqClient.byte_array st) mod 8 = 0) as Hm.
    { replace (Py.len (DaqClient.byte_array st))
        with (Py.len (concat sent) - Py.len (DaqClient.delivered calls)) by lia.
      rewrite Zminus_mod, Hmod, Hstream.
      replace (8 * RbcpServer._data_unit_count self * Z.of_nat (length sent))
        with (RbcpServer._data_unit_count self * Z.of_nat (length sent) * 8) by lia.
      rewrite Z_mod_mult. reflexivity. }
    rewrite Z.mod_small in Hm by lia. exact Hm. }
  assert (DaqClient.byte_array st = []) as Hempty.
  { destruct (DaqClient.byte_array st); [reflexivity|].
    unfold Py.len in Hzero. simpl in Hzero. lia. }
  exists calls, st. split; [exact Hloop|].
  rewrite Hempty, app_nil_r in Hbytes.
  split; [exact Hbytes|]. split; [exact Hempty|].
  rewrite Hdata, Hbytes. lia.
Qed.

Lemma generator_stream_reaches_daq_witness :
  exists sent self',
    RbcpServer.SessionThreadGen_run
      {| RbcpServer._data_unit := 8; RbcpServer._count := 0xfffffffe;
         RbcpServer._data_unit_count := 2 |}
      [RbcpServer.Writable 16; RbcpServer.NotWritable; RbcpServer.Writable 4096]
    = Py.Ok (sent, self')
    /\ Forall (fun data => Py.len data = 8 * 2) sent
    /\ length sent
       = length (List.filter (fun pass => match pass with
                                     | RbcpServer.Writable _ => true
                                     | _ => false
                                     end)
                   [RbcpServer.Writable 16; RbcpServer.NotWritable;
                    RbcpServer.Writable 4096])
    /\ forall evs,
         DaqClient.received_bytes evs = concat sent ->
         exists calls st,
           DaqClient.run_loop 8 DaqClient.loop_start evs = Py.Ok (calls, st)
           /\ DaqClient.delivered calls = concat sent
           /\ DaqClient.byte_array st = []
           /\ DaqClient._data_bytes st = Py.len (concat sent).
Proof.
  apply (generator_stream_reaches_daq
           {| RbcpServer._data_unit := 8; RbcpServer._count := 0xfffffffe;
              RbcpServer._data_unit_count := 2 |}).
  - reflexivity.
  - simpl. lia.
  - simpl. lia.
  - repeat constructor; simpl; lia.
Defined.
